(** * Hospital EMR backend: appointment scheduling and encounter lifecycle

    A shallow embedding of the scheduling service
    (package [scheduling]: [CreateAppointment], [UpdateAppointment],
    [CancelAppointment], [CheckInAppointment], [GetProviderAvailability],
    [isProviderAvailable], [isProviderAvailableExcept]) and of the encounter
    service ([UpdateEncounter]), over an explicit model of the relational
    store and of the message bus.

    Conventions.
    - [time.Time] is an instant, a number of nanoseconds since the Unix epoch
      ([Z]); [Before]/[After] compare instants.  [time.Duration] is a signed
      64-bit number of nanoseconds, its multiplication wraps around.
    - [uuid.UUID] is represented by its canonical text form, so [id.String()]
      is the identity.
    - The tables are lists of rows in insertion order.  Rows of the
      appointment and encounter tables are never deleted by the repository,
      so every row is visible to gorm's queries.
    - Whatever the code reads from its environment (wall clock, generated
      identifier, the details left in the shared [ErrDatabaseError] value)
      is an explicit [Env] argument. *)

From Stdlib Require Import ZArith Zwf List String Ascii Bool Lia DecimalString.
From Equations Require Import Equations.
Import ListNotations.

Open Scope string_scope.
Open Scope Z_scope.

(** ** Package [time] *)

Module time.

Definition Time := Z.
Definition Duration := Z.

Definition wrap64 (z : Z) : Z := (z + 2 ^ 63) mod 2 ^ 64 - 2 ^ 63.

Definition Nanosecond : Duration := 1.
Definition Second : Duration := 1000000000.
Definition Minute : Duration := 60 * Second.
Definition Hour : Duration := 60 * Minute.

(** [time.Duration(n) * time.Minute] on int64. *)
Definition mulDuration (n : Z) (d : Duration) : Duration := wrap64 (n * d).

Definition Add (t : Time) (d : Duration) : Time := t + d.
Definition Before (t u : Time) : bool := t <? u.
Definition After (t u : Time) : bool := u <? t.

(** A [*time.Location] with a fixed offset east of UTC, in nanoseconds.
    Both HTTP handlers obtain the date from
    [time.Parse("2006-01-02", _)], whose result is in [UTC]. *)
Record Location := { offset : Z }.
Definition UTC : Location := {| offset := 0 |}.

Definition Day : Duration := 24 * Hour.

(** [time.Date(t.Year(), t.Month(), t.Day(), hour, 0, 0, 0, loc)]: the
    instant at which the clock of [loc] shows [hour]:00 on the civil day
    on which [t] falls in [loc]. *)
Definition DateOfDay (t : Time) (hour : Z) (loc : Location) : Time :=
  ((t + offset loc) / Day) * Day + hour * Hour - offset loc.

End time.

Import time.

(** ** Package [uuid] *)

Definition UUID := string.
Definition uuid_Nil : UUID := "00000000-0000-0000-0000-000000000000".
Definition uuid_eqb (a b : UUID) : bool := String.eqb a b.

(** ** Package [errors] *)

Record AppError := {
  Code : string;
  Message : string;
  StatusCode : Z;
  Details : option string
}.

Definition NewAppError (code message : string) (statusCode : Z) : AppError :=
  {| Code := code; Message := message; StatusCode := statusCode; Details := None |}.

(** [WithDetails] writes the details into the value it is called on and
    returns that same value; this is the value as the caller receives it.
    The package-level errors are pointers shared by the whole process, so
    what is written into one of them stays there: see [databaseErrorDetails]
    and [currentDatabaseError] below. *)
Definition WithDetails (e : AppError) (details : string) : AppError :=
  {| Code := Code e; Message := Message e; StatusCode := StatusCode e;
     Details := Some details |}.

Definition StatusNotFound : Z := 404.
Definition StatusConflict : Z := 409.
Definition StatusBadRequest : Z := 400.
Definition StatusInternalServerError : Z := 500.

Definition ErrCodeValidation : string := "VALIDATION_ERROR".
Definition ErrCodeDatabaseError : string := "DATABASE_ERROR".

Definition ErrValidation : AppError :=
  NewAppError ErrCodeValidation "Validation error" StatusBadRequest.

(** The value of [ErrDatabaseError] when the process starts. *)
Definition ErrDatabaseError : AppError :=
  NewAppError ErrCodeDatabaseError "Database error" StatusInternalServerError.

Definition ErrPatientNotFound (id : string) : AppError :=
  NewAppError "PATIENT_NOT_FOUND" ("Patient with ID " ++ id ++ " not found") StatusNotFound.

Definition ErrEncounterNotFound (id : string) : AppError :=
  NewAppError "ENCOUNTER_NOT_FOUND" ("Encounter with ID " ++ id ++ " not found") StatusNotFound.

Definition ErrAppointmentNotFound (id : string) : AppError :=
  NewAppError "APPOINTMENT_NOT_FOUND" ("Appointment with ID " ++ id ++ " not found") StatusNotFound.

Definition ErrAppointmentConflict : AppError :=
  NewAppError "APPOINTMENT_CONFLICT" "Appointment slot is not available" StatusConflict.

Definition ErrUserNotFound (id : string) : AppError :=
  NewAppError "USER_NOT_FOUND" ("User with ID " ++ id ++ " not found") StatusNotFound.

(** A Go [error] returned by a service: an [*errors.AppError], or the raw
    error of the storage layer ([CheckInAppointment] returns it as it is). *)
Inductive error :=
| EApp (e : AppError)
| EGorm (msg : string).

(** The error kinds of the specification that the code can express:
    [Conflict] is HTTP 409, [Validation] is the code [VALIDATION_ERROR]. *)
Definition isConflict (e : error) : bool :=
  match e with EApp a => String.eqb (Code a) "APPOINTMENT_CONFLICT" | EGorm _ => false end.

Definition isValidation (e : error) : bool :=
  match e with EApp a => String.eqb (Code a) ErrCodeValidation | EGorm _ => false end.

(** ** Package [models] *)

Definition AppointmentStatus := string.
Definition AppointmentStatusScheduled : AppointmentStatus := "scheduled".
Definition AppointmentStatusConfirmed : AppointmentStatus := "confirmed".
Definition AppointmentStatusCheckedIn : AppointmentStatus := "checked_in".
Definition AppointmentStatusInProgress : AppointmentStatus := "in_progress".
Definition AppointmentStatusCompleted : AppointmentStatus := "completed".
Definition AppointmentStatusCancelled : AppointmentStatus := "cancelled".
Definition AppointmentStatusNoShow : AppointmentStatus := "no_show".

Definition AppointmentType := string.
Definition AppointmentTypeConsultation : AppointmentType := "consultation".

Record Appointment := {
  ID : UUID;
  CreatedAt : Time;
  UpdatedAt : Time;
  CreatedBy : UUID;
  UpdatedBy : UUID;
  AppointmentNumber : string;
  PatientID : UUID;
  ProviderID : UUID;
  ApptType : AppointmentType;
  Status : AppointmentStatus;
  StartTime : Time;
  EndTime : Time;
  Duration_ : Z;
  Department : string;
  Location_ : string;
  Room : string;
  ReasonForVisit : string;
  Notes : string;
  ReminderSent : bool;
  ReminderSentAt : option Time;
  CheckedInAt : option Time;
  CancelledAt : option Time;
  CancellationReason : string
}.

Definition EncounterStatus := string.
Definition EncounterStatusScheduled : EncounterStatus := "scheduled".
Definition EncounterStatusInProgress : EncounterStatus := "in_progress".
Definition EncounterStatusCompleted : EncounterStatus := "completed".
Definition EncounterStatusCancelled : EncounterStatus := "cancelled".

Record Encounter := {
  EncID : UUID;
  EncCreatedAt : Time;
  EncUpdatedAt : Time;
  EncCreatedBy : UUID;
  EncUpdatedBy : UUID;
  EncounterNumber : string;
  EncPatientID : UUID;
  EncProviderID : UUID;
  EncounterType : string;
  EncStatus : EncounterStatus;
  Priority : string;
  EncDepartment : string;
  EncLocation : string;
  AdmissionDate : Time;
  DischargeDate : option Time;
  ChiefComplaint : string;
  EncReasonForVisit : string
}.

(** A row of the [patients] or [users] table as the scheduling code sees it:
    its key and whether it is soft-deleted ([deleted_at] set). *)
Record DirRow := { RowID : UUID; Deleted : bool }.

(** ** Package [messaging] *)

Inductive Value :=
| VString (s : string)
| VTime (t : Time).

Record BusMessage := { Subject : string; Payload : list (string * Value) }.

Definition SubjectEncounterUpdated : string := "encounter.updated".
Definition SubjectAppointmentBooked : string := "appointment.booked".
Definition SubjectAppointmentCancelled : string := "appointment.cancelled".

(** ** The store and the bus *)

Record World := {
  patients : list DirRow;
  users : list DirRow;
  appointments : list Appointment;
  encounters : list Encounter;
  (** [natsClient != nil && natsClient.conn != nil] *)
  natsConnected : bool;
  (** messages handed to the connection, oldest first *)
  published : list BusMessage
}.

Definition setAppointments (w : World) (l : list Appointment) : World :=
  {| patients := patients w; users := users w; appointments := l;
     encounters := encounters w; natsConnected := natsConnected w;
     published := published w |}.

Definition setEncounters (w : World) (l : list Encounter) : World :=
  {| patients := patients w; users := users w; appointments := appointments w;
     encounters := l; natsConnected := natsConnected w;
     published := published w |}.

(** [NATSClient.Publish]: nothing happens on a nil client or connection;
    the callers drop the returned error. *)
Definition Publish (w : World) (subject : string) (data : list (string * Value)) : World :=
  if natsConnected w then
    {| patients := patients w; users := users w; appointments := appointments w;
       encounters := encounters w; natsConnected := natsConnected w;
       published := published w ++ [ {| Subject := subject; Payload := data |} ] |}
  else w.

(** What one service call reads from outside the store. *)
Record Env := {
  (** [time.Now()] in the service *)
  now : Time;
  (** [time.Now().UTC()] in the [BeforeCreate]/[BeforeUpdate] hook *)
  hookNow : Time;
  (** [uuid.New()] in [BeforeCreate] *)
  newID : UUID;
  (** [errors.ErrDatabaseError.Details] as the call finds it: [None] in a
      fresh process, afterwards what the last
      [ErrDatabaseError.WithDetails(...)] of the process has written *)
  databaseErrorDetails : option string
}.

(** [errors.ErrDatabaseError] as a call that returns it unchanged hands it
    over: the shared value, with the details it holds at that time. *)
Definition currentDatabaseError (e : Env) : AppError :=
  match databaseErrorDetails e with
  | Some details => WithDetails ErrDatabaseError details
  | None => ErrDatabaseError
  end.


(** ** gorm queries used by the services *)

(** [Where("id = ?", id).First(&row)] on a table with soft deletion. *)
Definition firstRow (id : UUID) (rows : list DirRow) : option DirRow :=
  find (fun r => uuid_eqb (RowID r) id && negb (Deleted r)) rows.

(** The referenced key exists, soft-deleted or not: what a foreign-key
    constraint checks. *)
Definition rowPresent (id : UUID) (rows : list DirRow) : bool :=
  existsb (fun r => uuid_eqb (RowID r) id) rows.

Definition firstAppointment (id : UUID) (tbl : list Appointment) : option Appointment :=
  find (fun a => uuid_eqb (ID a) id) tbl.

Definition firstEncounter (id : UUID) (tbl : list Encounter) : option Encounter :=
  find (fun e => uuid_eqb (EncID e) id) tbl.

(** [Model(&T{}).Where(cond).Count(&count)] *)
Definition Count {A : Type} (cond : A -> bool) (tbl : list A) : Z :=
  Z.of_nat (List.length (filter cond tbl)).

(** [Order("start_time ASC")], as a stable insertion sort. *)
Fixpoint insertByStartTime (a : Appointment) (l : list Appointment) : list Appointment :=
  match l with
  | [] => [a]
  | b :: r => if StartTime a <? StartTime b then a :: b :: r
              else b :: insertByStartTime a r
  end.

Definition orderByStartTime (l : list Appointment) : list Appointment :=
  fold_right insertByStartTime [] l.

Definition notCancelled (a : Appointment) : bool :=
  negb (String.eqb (Status a) AppointmentStatusCancelled).

(** The primary key and the unique index on [appointment_number]. *)
Definition uniqueViolation (a : Appointment) (tbl : list Appointment) : bool :=
  existsb (fun b => uuid_eqb (ID b) (ID a)
                    || String.eqb (AppointmentNumber b) (AppointmentNumber a)) tbl.

(** The foreign keys of an appointment row; a key that the statement leaves
    as it was stored is not checked again. *)
Definition fkHolds (w : World) (old : option Appointment) (a : Appointment) : bool :=
  let unchanged (f : Appointment -> UUID) :=
    match old with Some o => uuid_eqb (f o) (f a) | None => false end in
  (unchanged PatientID || rowPresent (PatientID a) (patients w))
  && (unchanged ProviderID || rowPresent (ProviderID a) (users w)).

Definition withAudit (a : Appointment) (id : UUID) (created updated : Time) : Appointment :=
  {| ID := id; CreatedAt := created; UpdatedAt := updated;
     CreatedBy := CreatedBy a; UpdatedBy := UpdatedBy a;
     AppointmentNumber := AppointmentNumber a; PatientID := PatientID a;
     ProviderID := ProviderID a; ApptType := ApptType a; Status := Status a;
     StartTime := StartTime a; EndTime := EndTime a; Duration_ := Duration_ a;
     Department := Department a; Location_ := Location_ a; Room := Room a;
     ReasonForVisit := ReasonForVisit a; Notes := Notes a;
     ReminderSent := ReminderSent a; ReminderSentAt := ReminderSentAt a;
     CheckedInAt := CheckedInAt a; CancelledAt := CancelledAt a;
     CancellationReason := CancellationReason a |}.

(** [BaseModel.BeforeCreate] *)
Definition BeforeCreate (e : Env) (a : Appointment) : Appointment :=
  withAudit a (if uuid_eqb (ID a) uuid_Nil then newID e else ID a) (hookNow e) (hookNow e).

(** [BaseModel.BeforeUpdate] *)
Definition BeforeUpdate (e : Env) (a : Appointment) : Appointment :=
  withAudit a (ID a) (CreatedAt a) (hookNow e).

(** [db.Create(appointment)]: the row after the hook and the new table, or
    the text of the storage error. *)
Definition dbCreate (w : World) (e : Env) (a : Appointment)
  : string + (Appointment * World) :=
  let a' := BeforeCreate e a in
  if uniqueViolation a' (appointments w) then
    inl "ERROR: duplicate key value violates unique constraint (SQLSTATE 23505)"
  else if negb (fkHolds w None a') then
    inl "ERROR: insert or update violates foreign key constraint (SQLSTATE 23503)"
  else inr (a', setAppointments w (appointments w ++ [a'])).

(** [db.Save(&appointment)] of a row with its primary key set: every column
    of the stored row is overwritten; with no stored row it is inserted. *)
Definition dbSave (w : World) (e : Env) (a : Appointment)
  : string + (Appointment * World) :=
  let a' := BeforeUpdate e a in
  let old := firstAppointment (ID a) (appointments w) in
  if negb (fkHolds w old a') then
    inl "ERROR: insert or update violates foreign key constraint (SQLSTATE 23503)"
  else
    match old with
    | Some _ =>
        inr (a', setAppointments w
                   (map (fun b => if uuid_eqb (ID b) (ID a) then a' else b)
                        (appointments w)))
    | None => inr (a', setAppointments w (appointments w ++ [a']))
    end.

(** ** Package [scheduling]: the service *)

Record CreateAppointmentRequest := {
  ReqPatientID : UUID;
  ReqProviderID : UUID;
  ReqAppointmentType : AppointmentType;
  ReqStartTime : Time;
  (** in minutes *)
  ReqDuration : Z;
  ReqDepartment : string;
  ReqLocation : string;
  ReqRoom : string;
  ReqReasonForVisit : string;
  ReqNotes : string
}.

Record TimeSlot := {
  SlotStartTime : Time;
  SlotEndTime : Time;
  Available : bool
}.

(** The [WHERE] clause of [isProviderAvailable]:
    [provider_id = ? AND status NOT IN ('cancelled')
     AND start_time < endTime AND end_time > startTime]. *)
Definition conflictsWith (providerID : UUID) (startTime endTime : Time)
           (a : Appointment) : bool :=
  uuid_eqb (ProviderID a) providerID
  && notCancelled a
  && (StartTime a <? endTime)
  && (EndTime a >? startTime).

Definition isProviderAvailable (w : World) (providerID : UUID)
           (startTime endTime : Time) : bool :=
  Count (conflictsWith providerID startTime endTime) (appointments w) =? 0.

(** The [WHERE] clause of [isProviderAvailableExcept] adds [id != exceptID]. *)
Definition conflictsWithExcept (providerID : UUID) (startTime endTime : Time)
           (exceptID : UUID) (a : Appointment) : bool :=
  uuid_eqb (ProviderID a) providerID
  && negb (uuid_eqb (ID a) exceptID)
  && notCancelled a
  && (StartTime a <? endTime)
  && (EndTime a >? startTime).

Definition isProviderAvailableExcept (w : World) (providerID : UUID)
           (startTime endTime : Time) (exceptID : UUID) : bool :=
  Count (conflictsWithExcept providerID startTime endTime exceptID) (appointments w) =? 0.

(** [fmt.Sprintf("APT%d", time.Now().UnixNano()%1000000000)] *)
Definition generateAppointmentNumber (e : Env) : string :=
  "APT" ++ NilZero.string_of_int (Z.to_int (Z.rem (now e) 1000000000)).

(** The reads of [CreateAppointment]: both directory lookups and the
    conflict query.  The result is the computed end time. *)
Definition createCheck (w : World) (req : CreateAppointmentRequest) : error + Time :=
  match firstRow (ReqPatientID req) (patients w) with
  | None => inl (EApp (ErrPatientNotFound (ReqPatientID req)))
  | Some _ =>
    match firstRow (ReqProviderID req) (users w) with
    | None => inl (EApp (ErrUserNotFound (ReqProviderID req)))
    | Some _ =>
      let endTime := Add (ReqStartTime req) (mulDuration (ReqDuration req) Minute) in
      if negb (isProviderAvailable w (ReqProviderID req) (ReqStartTime req) endTime)
      then inl (EApp ErrAppointmentConflict)
      else inr endTime
    end
  end.

(** The rest of [CreateAppointment]: building the row, the insert and the
    event. *)
Definition createWrite (w : World) (e : Env) (req : CreateAppointmentRequest)
           (createdBy : UUID) (endTime : Time) : (error + Appointment) * World :=
  let appointmentNumber := generateAppointmentNumber e in
  let appointment :=
    {| ID := uuid_Nil; CreatedAt := 0; UpdatedAt := 0;
       CreatedBy := createdBy; UpdatedBy := createdBy;
       AppointmentNumber := appointmentNumber;
       PatientID := ReqPatientID req; ProviderID := ReqProviderID req;
       ApptType := ReqAppointmentType req;
       Status := AppointmentStatusScheduled;
       StartTime := ReqStartTime req; EndTime := endTime;
       Duration_ := ReqDuration req;
       Department := ReqDepartment req; Location_ := ReqLocation req;
       Room := ReqRoom req; ReasonForVisit := ReqReasonForVisit req;
       Notes := ReqNotes req;
       ReminderSent := false; ReminderSentAt := None;
       CheckedInAt := None; CancelledAt := None; CancellationReason := EmptyString |} in
  match dbCreate w e appointment with
  | inl msg => (inl (EApp (WithDetails ErrDatabaseError msg)), w)
  | inr (appointment, w') =>
      (inr appointment,
       Publish w' SubjectAppointmentBooked
         [("appointment_id", VString (ID appointment));
          ("appointment_number", VString (AppointmentNumber appointment));
          ("patient_id", VString (PatientID appointment));
          ("provider_id", VString (ProviderID appointment));
          ("start_time", VTime (StartTime appointment));
          ("created_by", VString createdBy)])
  end.

Definition CreateAppointment (w : World) (e : Env) (req : CreateAppointmentRequest)
           (createdBy : UUID) : (error + Appointment) * World :=
  match createCheck w req with
  | inl err => (inl err, w)
  | inr endTime => createWrite w e req createdBy endTime
  end.

(** The reads of [UpdateAppointment]: loading the row and the conflict query
    that leaves the row itself out. *)
Definition updateCheck (w : World) (id : UUID) (req : CreateAppointmentRequest)
  : error + (Appointment * Time) :=
  match firstAppointment id (appointments w) with
  | None => inl (EApp (ErrAppointmentNotFound id))
  | Some appointment =>
      let endTime := Add (ReqStartTime req) (mulDuration (ReqDuration req) Minute) in
      if negb (isProviderAvailableExcept w (ReqProviderID req) (ReqStartTime req) endTime id)
      then inl (EApp ErrAppointmentConflict)
      else inr (appointment, endTime)
  end.

(** The rest of [UpdateAppointment]: the field updates and the save. *)
Definition updateWrite (w : World) (e : Env) (req : CreateAppointmentRequest)
           (updatedBy : UUID) (appointment : Appointment) (endTime : Time)
  : (error + Appointment) * World :=
  let appointment :=
    {| ID := ID appointment; CreatedAt := CreatedAt appointment;
       UpdatedAt := UpdatedAt appointment;
       CreatedBy := CreatedBy appointment; UpdatedBy := updatedBy;
       AppointmentNumber := AppointmentNumber appointment;
       PatientID := ReqPatientID req; ProviderID := ReqProviderID req;
       ApptType := ReqAppointmentType req;
       Status := Status appointment;
       StartTime := ReqStartTime req; EndTime := endTime;
       Duration_ := ReqDuration req;
       Department := ReqDepartment req; Location_ := ReqLocation req;
       Room := ReqRoom req; ReasonForVisit := ReqReasonForVisit req;
       Notes := ReqNotes req;
       ReminderSent := ReminderSent appointment;
       ReminderSentAt := ReminderSentAt appointment;
       CheckedInAt := CheckedInAt appointment;
       CancelledAt := CancelledAt appointment;
       CancellationReason := CancellationReason appointment |} in
  match dbSave w e appointment with
  | inl _ => (inl (EApp (currentDatabaseError e)), w)
  | inr (appointment, w') => (inr appointment, w')
  end.

Definition UpdateAppointment (w : World) (e : Env) (id : UUID)
           (req : CreateAppointmentRequest) (updatedBy : UUID)
  : (error + Appointment) * World :=
  match updateCheck w id req with
  | inl err => (inl err, w)
  | inr (appointment, endTime) => updateWrite w e req updatedBy appointment endTime
  end.

Definition CancelAppointment (w : World) (e : Env) (id : UUID) (reason : string)
           (cancelledBy : UUID) : option error * World :=
  match firstAppointment id (appointments w) with
  | None => (Some (EApp (ErrAppointmentNotFound id)), w)
  | Some appointment =>
      let now := now e in
      let appointment :=
        {| ID := ID appointment; CreatedAt := CreatedAt appointment;
           UpdatedAt := UpdatedAt appointment;
           CreatedBy := CreatedBy appointment; UpdatedBy := cancelledBy;
           AppointmentNumber := AppointmentNumber appointment;
           PatientID := PatientID appointment; ProviderID := ProviderID appointment;
           ApptType := ApptType appointment;
           Status := AppointmentStatusCancelled;
           StartTime := StartTime appointment; EndTime := EndTime appointment;
           Duration_ := Duration_ appointment;
           Department := Department appointment; Location_ := Location_ appointment;
           Room := Room appointment; ReasonForVisit := ReasonForVisit appointment;
           Notes := Notes appointment;
           ReminderSent := ReminderSent appointment;
           ReminderSentAt := ReminderSentAt appointment;
           CheckedInAt := CheckedInAt appointment;
           CancelledAt := Some now;
           CancellationReason := reason |} in
      match dbSave w e appointment with
      | inl _ => (Some (EApp (currentDatabaseError e)), w)
      | inr (appointment, w') =>
          (None,
           Publish w' SubjectAppointmentCancelled
             [("appointment_id", VString (ID appointment));
              ("patient_id", VString (PatientID appointment));
              ("provider_id", VString (ProviderID appointment));
              ("reason", VString reason);
              ("cancelled_by", VString cancelledBy)])
      end
  end.

Definition CheckInAppointment (w : World) (e : Env) (id : UUID) : option error * World :=
  match firstAppointment id (appointments w) with
  | None => (Some (EApp (ErrAppointmentNotFound id)), w)
  | Some appointment =>
      let now := now e in
      let appointment :=
        {| ID := ID appointment; CreatedAt := CreatedAt appointment;
           UpdatedAt := UpdatedAt appointment;
           CreatedBy := CreatedBy appointment; UpdatedBy := UpdatedBy appointment;
           AppointmentNumber := AppointmentNumber appointment;
           PatientID := PatientID appointment; ProviderID := ProviderID appointment;
           ApptType := ApptType appointment;
           Status := AppointmentStatusCheckedIn;
           StartTime := StartTime appointment; EndTime := EndTime appointment;
           Duration_ := Duration_ appointment;
           Department := Department appointment; Location_ := Location_ appointment;
           Room := Room appointment; ReasonForVisit := ReasonForVisit appointment;
           Notes := Notes appointment;
           ReminderSent := ReminderSent appointment;
           ReminderSentAt := ReminderSentAt appointment;
           CheckedInAt := Some now;
           CancelledAt := CancelledAt appointment;
           CancellationReason := CancellationReason appointment |} in
      match dbSave w e appointment with
      | inl msg => (Some (EGorm msg), w)
      | inr (_, w') => (None, w')
      end
  end.

(** *** Availability *)

Definition slotDuration : Duration := 30 * Minute.

(** The inner loop of [GetProviderAvailability]: the slot is free unless
    some fetched appointment satisfies
    [currentSlot.Before(appt.EndTime) && slotEnd.After(appt.StartTime)]. *)
Fixpoint slotIsAvailable (currentSlot slotEnd : Time) (appts : list Appointment) : bool :=
  match appts with
  | [] => true
  | appt :: rest =>
      if Before currentSlot (EndTime appt) && After slotEnd (StartTime appt)
      then false
      else slotIsAvailable currentSlot slotEnd rest
  end.

(** The measure of the outer loop, [workEnd - currentSlot], decreases in
    the order [Zwf 0]; the accessibility proof is padded with constructors
    so that the loop also evaluates on concrete dates. *)
#[local] Instance Zwf0_wf : WellFounded (Zwf 0) :=
  Acc_intro_generator 6 (Zwf_well_founded 0).

(** The outer loop, [for currentSlot.Before(workEnd) { ... }]. *)
Equations? slotLoop (appts : list Appointment) (workEnd currentSlot : Time)
  : list TimeSlot by wf (workEnd - currentSlot) (Zwf 0) :=
  slotLoop appts workEnd currentSlot with Z_lt_dec currentSlot workEnd := {
    | left _ =>
        let slotEnd := Add currentSlot slotDuration in
        {| SlotStartTime := currentSlot; SlotEndTime := slotEnd;
           Available := slotIsAvailable currentSlot slotEnd appts |}
        :: slotLoop appts workEnd slotEnd
    | right _ => []
  }.
Proof.
  subst slotEnd. unfold Zwf, Add, slotDuration, Minute, Second, Time in *. lia.
Qed.

(** The query of [GetProviderAvailability]:
    [provider_id = ? AND start_time >= startOfDay AND start_time < endOfDay
     AND status NOT IN ('cancelled')], ordered by [start_time]. *)
Definition onDay (providerID : UUID) (startOfDay endOfDay : Time) (a : Appointment) : bool :=
  uuid_eqb (ProviderID a) providerID
  && (StartTime a >=? startOfDay)
  && (StartTime a <? endOfDay)
  && notCancelled a.

Definition GetProviderAvailability (w : World) (providerID : UUID)
           (date : Time) (loc : Location) : error + list TimeSlot :=
  match firstRow providerID (users w) with
  | None => inl (EApp (ErrUserNotFound providerID))
  | Some _ =>
      let startOfDay := DateOfDay date 0 loc in
      let endOfDay := Add startOfDay (24 * Hour) in
      let appts :=
        orderByStartTime (filter (onDay providerID startOfDay endOfDay) (appointments w)) in
      let workStart := DateOfDay date 8 loc in
      let workEnd := DateOfDay date 17 loc in
      inr (slotLoop appts workEnd workStart)
  end.

(** ** Package [encounter]: the status update *)

(** The number of characters of a text in UTF-8: one at each byte that does
    not continue a sequence (a byte other than [10xxxxxx]). *)
Definition characters (s : string) : Z :=
  Z.of_nat
    (List.length
       (filter (fun c => negb (Z.land (Z.of_N (N_of_ascii c)) 192 =? 128))
               (list_ascii_of_string s))).

(** The [status] column of the encounters table is declared
    [type:varchar(20)]. *)
Definition statusColumnWidth : Z := 20.

Definition fitsStatusColumn (status : EncounterStatus) : bool :=
  characters status <=? statusColumnWidth.

(** [db.Save(&encounter)] of a row loaded from the table and given the
    caller's status: the stored row with this identifier is overwritten,
    unless the status has more than [statusColumnWidth] characters, which
    the database refuses.  The result is the saved row and the new store,
    or the text of the storage error. *)
Definition dbSaveEncounter (w : World) (e : Env) (enc : Encounter)
  : string + (Encounter * World) :=
  let enc' :=
    {| EncID := EncID enc; EncCreatedAt := EncCreatedAt enc; EncUpdatedAt := hookNow e;
       EncCreatedBy := EncCreatedBy enc; EncUpdatedBy := EncUpdatedBy enc;
       EncounterNumber := EncounterNumber enc; EncPatientID := EncPatientID enc;
       EncProviderID := EncProviderID enc; EncounterType := EncounterType enc;
       EncStatus := EncStatus enc; Priority := Priority enc;
       EncDepartment := EncDepartment enc; EncLocation := EncLocation enc;
       AdmissionDate := AdmissionDate enc; DischargeDate := DischargeDate enc;
       ChiefComplaint := ChiefComplaint enc;
       EncReasonForVisit := EncReasonForVisit enc |} in
  if negb (fitsStatusColumn (EncStatus enc)) then
    inl "ERROR: value too long for type character varying(20) (SQLSTATE 22001)"
  else
    inr (enc',
         setEncounters w
           (map (fun b => if uuid_eqb (EncID b) (EncID enc) then enc' else b)
                (encounters w))).

Definition UpdateEncounter (w : World) (e : Env) (id : UUID)
           (status : EncounterStatus) (updatedBy : UUID) : (error + Encounter) * World :=
  match firstEncounter id (encounters w) with
  | None => (inl (EApp (ErrEncounterNotFound id)), w)
  | Some encounter =>
      let dischargeDate :=
        if String.eqb status EncounterStatusCompleted
        then Some (now e)
        else DischargeDate encounter in
      let encounter :=
        {| EncID := EncID encounter; EncCreatedAt := EncCreatedAt encounter;
           EncUpdatedAt := EncUpdatedAt encounter;
           EncCreatedBy := EncCreatedBy encounter; EncUpdatedBy := updatedBy;
           EncounterNumber := EncounterNumber encounter;
           EncPatientID := EncPatientID encounter;
           EncProviderID := EncProviderID encounter;
           EncounterType := EncounterType encounter;
           EncStatus := status; Priority := Priority encounter;
           EncDepartment := EncDepartment encounter;
           EncLocation := EncLocation encounter;
           AdmissionDate := AdmissionDate encounter;
           DischargeDate := dischargeDate;
           ChiefComplaint := ChiefComplaint encounter;
           EncReasonForVisit := EncReasonForVisit encounter |} in
      match dbSaveEncounter w e encounter with
      | inl _ => (inl (EApp (currentDatabaseError e)), w)
      | inr (encounter, w') =>
          (inr encounter,
           Publish w' SubjectEncounterUpdated
             [("encounter_id", VString (EncID encounter));
              ("status", VString (EncStatus encounter));
              ("updated_by", VString updatedBy)])
      end
  end.

Record CreateEncounterRequest := {
  EReqPatientID : UUID;
  EReqProviderID : UUID;
  EReqEncounterType : string;
  EReqPriority : string;
  EReqDepartment : string;
  EReqLocation : string;
  EReqAdmissionDate : Time;
  EReqChiefComplaint : string;
  EReqReasonForVisit : string
}.

(** [fmt.Sprintf("ENC%d", time.Now().UnixNano()%1000000000)] *)
Definition generateEncounterNumber (e : Env) : string :=
  "ENC" ++ NilZero.string_of_int (Z.to_int (Z.rem (now e) 1000000000)).

Definition CreateEncounter (w : World) (e : Env) (req : CreateEncounterRequest)
           (createdBy : UUID) : (error + Encounter) * World :=
  match firstRow (EReqPatientID req) (patients w) with
  | None => (inl (EApp (ErrPatientNotFound (EReqPatientID req))), w)
  | Some _ =>
    match firstRow (EReqProviderID req) (users w) with
    | None => (inl (EApp (ErrUserNotFound (EReqProviderID req))), w)
    | Some _ =>
      let encounter :=
        {| EncID := newID e; EncCreatedAt := hookNow e; EncUpdatedAt := hookNow e;
           EncCreatedBy := createdBy; EncUpdatedBy := createdBy;
           EncounterNumber := generateEncounterNumber e;
           EncPatientID := EReqPatientID req; EncProviderID := EReqProviderID req;
           EncounterType := EReqEncounterType req;
           EncStatus := EncounterStatusScheduled;
           Priority := EReqPriority req;
           EncDepartment := EReqDepartment req; EncLocation := EReqLocation req;
           AdmissionDate := EReqAdmissionDate req; DischargeDate := None;
           ChiefComplaint := EReqChiefComplaint req;
           EncReasonForVisit := EReqReasonForVisit req |} in
      if existsb (fun b => uuid_eqb (EncID b) (EncID encounter)
                           || String.eqb (EncounterNumber b) (EncounterNumber encounter))
                 (encounters w)
      then (inl (EApp (WithDetails ErrDatabaseError
                         "ERROR: duplicate key value violates unique constraint (SQLSTATE 23505)")),
            w)
      else
        (inr encounter,
         Publish (setEncounters w (encounters w ++ [encounter]))
           "encounter.created"
           [("encounter_id", VString (EncID encounter));
            ("encounter_number", VString (EncounterNumber encounter));
            ("patient_id", VString (EncPatientID encounter));
            ("provider_id", VString (EncProviderID encounter));
            ("created_by", VString createdBy)])
    end
  end.

(** ** Concurrent requests

    Each request is served by its own handler against the shared store.
    A handler of [CreateAppointment] or [UpdateAppointment] issues its
    statements one after the other, outside any transaction and without a
    lock: first the reads up to the conflict query, later the write.  Each
    statement is atomic; statements of other handlers may run in between. *)

Inductive Call :=
| CallCreate (req : CreateAppointmentRequest) (createdBy : UUID)
| CallUpdate (id : UUID) (req : CreateAppointmentRequest) (updatedBy : UUID).

Inductive Phase :=
| Arrived
| Cleared (loaded : option Appointment) (endTime : Time)
| Finished (result : error + Appointment).

Record Handler := { call : Call; env_ : Env; phase : Phase }.

Definition setPhase (h : Handler) (p : Phase) : Handler :=
  {| call := call h; env_ := env_ h; phase := p |}.

(** The next statement group of a handler. *)
Definition stepHandler (w : World) (h : Handler) : World * Handler :=
  match phase h, call h with
  | Arrived, CallCreate req _ =>
      match createCheck w req with
      | inl err => (w, setPhase h (Finished (inl err)))
      | inr endTime => (w, setPhase h (Cleared None endTime))
      end
  | Arrived, CallUpdate id req _ =>
      match updateCheck w id req with
      | inl err => (w, setPhase h (Finished (inl err)))
      | inr (a, endTime) => (w, setPhase h (Cleared (Some a) endTime))
      end
  | Cleared _ endTime, CallCreate req createdBy =>
      let '(r, w') := createWrite w (env_ h) req createdBy endTime in
      (w', setPhase h (Finished r))
  | Cleared (Some a) endTime, CallUpdate _ req updatedBy =>
      let '(r, w') := updateWrite w (env_ h) req updatedBy a endTime in
      (w', setPhase h (Finished r))
  | Cleared None _, CallUpdate _ _ _ => (w, h)
  | Finished _, _ => (w, h)
  end.

Fixpoint setNth {A : Type} (i : nat) (x : A) (l : list A) : list A :=
  match l, i with
  | [], _ => []
  | _ :: r, O => x :: r
  | y :: r, S i => y :: setNth i x r
  end.

(** One step of the system: the scheduler picks handler [i]. *)
Definition stepSystem (st : World * list Handler) (i : nat) : World * list Handler :=
  match nth_error (snd st) i with
  | None => st
  | Some h => let '(w', h') := stepHandler (fst st) h in (w', setNth i h' (snd st))
  end.

Definition runSchedule (st : World * list Handler) (schedule : list nat)
  : World * list Handler :=
  fold_left stepSystem schedule st.

Definition committed (h : Handler) : bool :=
  match phase h with Finished (inr _) => true | _ => false end.

(** Two distinct live rows of one provider whose intervals meet. *)
Definition clashb (a b : Appointment) : bool :=
  negb (uuid_eqb (ID a) (ID b))
  && uuid_eqb (ProviderID a) (ProviderID b)
  && notCancelled a && notCancelled b
  && (StartTime a <? EndTime b) && (EndTime a >? StartTime b).

Definition doubleBooked (w : World) : bool :=
  existsb (fun a => existsb (clashb a) (appointments w)) (appointments w).

(** ** Predicates of the specification *)

(** Two half-open intervals meet, as the conflict queries test it. *)
Definition overlaps (a : Appointment) (newStart newEnd : Time) : Prop :=
  StartTime a < newEnd /\ EndTime a > newStart.

(** The rows that make [isProviderAvailable] answer no. *)
Definition blocks (providerID : UUID) (newStart newEnd : Time) (a : Appointment) : Prop :=
  ProviderID a = providerID
  /\ Status a <> AppointmentStatusCancelled
  /\ overlaps a newStart newEnd.

(** ** Worked scenario: one provider, one patient, Monday 2024-01-15 (UTC) *)

Module Scenario.

Definition drA : UUID := "7d9f2c1e-5a34-4b8e-9c0d-1f2e3a4b5c6d".
Definition patA : UUID := "0b6a8f52-3c7d-4e19-8a2b-6c5d4e3f2a1b".
Definition clerk : UUID := "c3e1a7b9-2d48-4f60-b5a6-9e8d7c6b5a49".

(** 2024-01-15T00:00:00Z *)
Definition midnight : Time := 1705276800 * Second.
Definition at_ (h m : Z) : Time := midnight + h * Hour + m * Minute.

Definition empty : World :=
  {| patients := [ {| RowID := patA; Deleted := false |} ];
     users := [ {| RowID := drA; Deleted := false |} ];
     appointments := []; encounters := [];
     natsConnected := true; published := [] |}.

Definition request (start : Time) (minutes : Z) : CreateAppointmentRequest :=
  {| ReqPatientID := patA; ReqProviderID := drA;
     ReqAppointmentType := AppointmentTypeConsultation;
     ReqStartTime := start; ReqDuration := minutes;
     ReqDepartment := "Poli Umum"; ReqLocation := "Lantai 1"; ReqRoom := "101";
     ReqReasonForVisit := "Kontrol"; ReqNotes := EmptyString |}.

Definition env (n : Z) (id : UUID) : Env :=
  {| now := at_ 7 0 + n; hookNow := at_ 7 0 + n + 1; newID := id;
     databaseErrorDetails := None |}.

Definition id1 : UUID := "11111111-1111-4111-8111-111111111111".
Definition id2 : UUID := "22222222-2222-4222-8222-222222222222".

(** The store after provider [drA] was booked 09:00-09:30. *)
Definition booked0900 : World :=
  snd (CreateAppointment empty (env 1 id1) (request (at_ 9 0) 30) clerk).

(** The row that this leaves in the table. *)
Definition bookedRow : Appointment :=
  {| ID := id1; CreatedAt := at_ 7 0 + 2; UpdatedAt := at_ 7 0 + 2;
     CreatedBy := clerk; UpdatedBy := clerk;
     AppointmentNumber := "APT1"; PatientID := patA; ProviderID := drA;
     ApptType := AppointmentTypeConsultation;
     Status := AppointmentStatusScheduled;
     StartTime := at_ 9 0; EndTime := at_ 9 30; Duration_ := 30;
     Department := "Poli Umum"; Location_ := "Lantai 1"; Room := "101";
     ReasonForVisit := "Kontrol"; Notes := EmptyString;
     ReminderSent := false; ReminderSentAt := None;
     CheckedInAt := None; CancelledAt := None; CancellationReason := EmptyString |}.

(** A request for 09:00 with a duration of minus thirty minutes. *)
Definition negativeBooking : (error + Appointment) * World :=
  CreateAppointment empty (env 1 id1) (request (at_ 9 0) (-30)) clerk.

(** The store after provider [drA] was booked 10:00-10:30. *)
Definition booked1000 : World :=
  snd (CreateAppointment empty (env 1 id1) (request (at_ 10 0) 30) clerk).

(** Two clients ask for provider [drA] at the same time: 09:00-09:30 and
    09:15-09:45. *)
Definition racers : list Handler :=
  [ {| call := CallCreate (request (at_ 9 0) 30) clerk;
       env_ := env 1 id1; phase := Arrived |};
    {| call := CallCreate (request (at_ 9 15) 30) clerk;
       env_ := env 2 id2; phase := Arrived |} ].

(** The 10:00 booking is moved to 09:00-09:30 while another client asks
    for 09:15-09:45. *)
Definition movers : list Handler :=
  [ {| call := CallUpdate id1 (request (at_ 9 0) 30) clerk;
       env_ := env 3 id1; phase := Arrived |};
    {| call := CallCreate (request (at_ 9 15) 30) clerk;
       env_ := env 2 id2; phase := Arrived |} ].

(** Rows as the seeder stores them: a visit completed a week before and a
    booking cancelled since. *)
Definition seededCompleted : Appointment :=
  {| ID := id1; CreatedAt := at_ 6 0; UpdatedAt := at_ 6 0;
     CreatedBy := drA; UpdatedBy := drA;
     AppointmentNumber := "APT-003"; PatientID := patA; ProviderID := drA;
     ApptType := "wellness"; Status := AppointmentStatusCompleted;
     StartTime := at_ 6 0 - 7 * Day; EndTime := at_ 6 0 - 7 * Day + 45 * Minute;
     Duration_ := 45;
     Department := "Poli Umum"; Location_ := "Ruang 101"; Room := EmptyString;
     ReasonForVisit := "Cek Kesehatan Tahunan"; Notes := EmptyString;
     ReminderSent := false; ReminderSentAt := None;
     CheckedInAt := Some (at_ 6 0 - 7 * Day - 10 * Minute);
     CancelledAt := None; CancellationReason := EmptyString |}.

Definition seededCancelled : Appointment :=
  {| ID := id2; CreatedAt := at_ 6 0; UpdatedAt := at_ 6 0;
     CreatedBy := drA; UpdatedBy := drA;
     AppointmentNumber := "APT-004"; PatientID := patA; ProviderID := drA;
     ApptType := "consultation"; Status := AppointmentStatusCancelled;
     StartTime := at_ 6 0 - 2 * Day; EndTime := at_ 6 0 - 2 * Day + 30 * Minute;
     Duration_ := 30;
     Department := "Poli Umum"; Location_ := "Ruang 101"; Room := EmptyString;
     ReasonForVisit := "Gejala Flu"; Notes := EmptyString;
     ReminderSent := false; ReminderSentAt := None;
     CheckedInAt := None;
     CancelledAt := Some (at_ 6 0 - 3 * Day);
     CancellationReason := "Pasien sudah merasa baikan" |}.

Definition seeded : World :=
  {| patients := [ {| RowID := patA; Deleted := false |} ];
     users := [ {| RowID := drA; Deleted := false |} ];
     appointments := [ seededCompleted; seededCancelled ];
     encounters := [];
     natsConnected := true; published := [] |}.

(** An encounter registered at 07:00 for an admission at 14:00. *)
Definition encounterRequest : CreateEncounterRequest :=
  {| EReqPatientID := patA; EReqProviderID := drA;
     EReqEncounterType := "outpatient"; EReqPriority := "routine";
     EReqDepartment := "Poli Umum"; EReqLocation := "Ruang 101";
     EReqAdmissionDate := at_ 14 0;
     EReqChiefComplaint := "Sakit Kepala"; EReqReasonForVisit := "Migrain" |}.

Definition registeredFor1400 : World :=
  snd (CreateEncounter empty (env 1 id1) encounterRequest clerk).

(** The row that this leaves in the table. *)
Definition registeredRow : Encounter :=
  {| EncID := id1; EncCreatedAt := at_ 7 0 + 2; EncUpdatedAt := at_ 7 0 + 2;
     EncCreatedBy := clerk; EncUpdatedBy := clerk;
     EncounterNumber := "ENC1";
     EncPatientID := patA; EncProviderID := drA;
     EncounterType := "outpatient"; EncStatus := EncounterStatusScheduled;
     Priority := "routine";
     EncDepartment := "Poli Umum"; EncLocation := "Ruang 101";
     AdmissionDate := at_ 14 0; DischargeDate := None;
     ChiefComplaint := "Sakit Kepala"; EncReasonForVisit := "Migrain" |}.

(** The same encounter after it was completed at 15:00. *)
Definition completedAt1500 : World :=
  snd (UpdateEncounter registeredFor1400
         {| now := at_ 15 0; hookNow := at_ 15 0 + 1; newID := id2;
           databaseErrorDetails := None |}
         id1 EncounterStatusCompleted drA).


(** The 09:00 booking after it was cancelled at 07:30. *)
Definition cancelledOnce : World :=
  snd (CancelAppointment booked0900
         {| now := at_ 7 30; hookNow := at_ 7 30 + 1; newID := id2;
           databaseErrorDetails := None |}
         id1 "Pasien berhalangan" clerk).

(** A second cancellation of the same booking, at 07:45. *)
Definition cancelAgain : option error * World :=
  CancelAppointment cancelledOnce
    {| now := at_ 7 45; hookNow := at_ 7 45 + 1; newID := id2;
      databaseErrorDetails := None |}
    id1 EmptyString clerk.

(** The encounter admitted for 14:00, completed at 09:00 already. *)
Definition completedEarly : (error + Encounter) * World :=
  UpdateEncounter registeredFor1400
    {| now := at_ 9 0; hookNow := at_ 9 0 + 1; newID := id2;
      databaseErrorDetails := None |}
    id1 EncounterStatusCompleted drA.

End Scenario.

(** ** Slot sequences *)

(** The [i]-th slot counted from [workStart], as the loop builds it. *)
Definition nthSlot (appts : list Appointment) (workStart : Time) (i : nat) : TimeSlot :=
  let currentSlot := workStart + Z.of_nat i * slotDuration in
  let slotEnd := Add currentSlot slotDuration in
  {| SlotStartTime := currentSlot; SlotEndTime := slotEnd;
     Available := slotIsAvailable currentSlot slotEnd appts |}.

Definition ascendingSlots (slots : list TimeSlot) : Prop :=
  forall i j si sj, (i < j)%nat ->
    nth_error slots i = Some si -> nth_error slots j = Some sj ->
    SlotStartTime si < SlotStartTime sj.

Definition contiguousSlots (slots : list TimeSlot) : Prop :=
  forall i s t,
    nth_error slots i = Some s -> nth_error slots (S i) = Some t ->
    SlotEndTime s = SlotStartTime t.

Definition disjointSlots (slots : list TimeSlot) : Prop :=
  forall i j si sj, i <> j ->
    nth_error slots i = Some si -> nth_error slots j = Some sj ->
    SlotEndTime si <= SlotStartTime sj \/ SlotEndTime sj <= SlotStartTime si.

(** Every instant of [[lo, hi)] lies in some slot and no slot leaves
    [[lo, hi)]. *)
Definition coversExactly (slots : list TimeSlot) (lo hi : Time) : Prop :=
  forall t, lo <= t < hi
            <-> exists s, In s slots /\ SlotStartTime s <= t < SlotEndTime s.

(** The fetched appointment meets the slot:
    [slot.start < appt.end && slot.end > appt.start]. *)
Definition meetsSlot (s : TimeSlot) (a : Appointment) : Prop :=
  SlotStartTime s < EndTime a /\ SlotEndTime s > StartTime a.

(** * The rest of the services and their callers *)

From Stdlib Require Import Sorted.

(** ** Package [scheduling]: reads *)

(** An appointment with its [Patient] and [Provider] associations as
    [Preload] fills them: the referenced row if it is visible (not
    soft-deleted), otherwise the association stays empty. *)
Record LoadedAppointment := {
  Row : Appointment;
  LoadedPatient : option DirRow;
  LoadedProvider : option DirRow
}.

Definition preload (w : World) (a : Appointment) : LoadedAppointment :=
  {| Row := a;
     LoadedPatient := firstRow (PatientID a) (patients w);
     LoadedProvider := firstRow (ProviderID a) (users w) |}.

Definition GetAppointment (w : World) (id : UUID) : error + LoadedAppointment :=
  match firstAppointment id (appointments w) with
  | None => inl (EApp (ErrAppointmentNotFound id))
  | Some appointment => inr (preload w appointment)
  end.

(** The key columns of the appointments table are unique. *)
Definition uniqueKeys (w : World) : Prop :=
  NoDup (map ID (appointments w))
  /\ NoDup (map AppointmentNumber (appointments w)).

(** The store [w'] is [w] with the row [id] of the appointments table
    overwritten and nothing else changed. *)
Definition replacesRow (id : UUID) (w w' : World) : Prop :=
  exists a a',
    firstAppointment id (appointments w) = Some a
    /\ ID a' = id
    /\ AppointmentNumber a' = AppointmentNumber a
    /\ appointments w'
       = map (fun b => if uuid_eqb (ID b) id then a' else b) (appointments w)
    /\ patients w' = patients w
    /\ users w' = users w
    /\ encounters w' = encounters w
    /\ natsConnected w' = natsConnected w.

(** The rows of the table other than row [id], in table order. *)
Definition otherRows (id : UUID) (w : World) : list Appointment :=
  filter (fun b => negb (uuid_eqb (ID b) id)) (appointments w).

(** ** More worked cases, on the day of the scenario *)

Module Cases.

(** The 09:00 booking was cancelled; the slot is then booked again. *)
Definition rebooked : World :=
  snd (CreateAppointment Scenario.cancelledOnce (Scenario.env 2 Scenario.id2)
         (Scenario.request (Scenario.at_ 9 0) 30) Scenario.clerk).

(** A clock reading one second after the one of the first booking. *)
Definition oneSecondLater : Env :=
  {| now := now (Scenario.env 1 Scenario.id1) + Second;
     hookNow := hookNow (Scenario.env 1 Scenario.id1) + Second;
     newID := Scenario.id2;
     databaseErrorDetails := None |}.



End Cases.

Module Overnight.

(** A booking from 23:00 of the day before for 600 minutes, until 09:00. *)
Definition world : World :=
  snd (CreateAppointment Scenario.empty (Scenario.env 1 Scenario.id1)
         (Scenario.request (Scenario.at_ 0 0 - Hour) 600) Scenario.clerk).

Definition row : Appointment :=
  {| ID := Scenario.id1;
     CreatedAt := Scenario.at_ 7 0 + 2; UpdatedAt := Scenario.at_ 7 0 + 2;
     CreatedBy := Scenario.clerk; UpdatedBy := Scenario.clerk;
     AppointmentNumber := "APT1";
     PatientID := Scenario.patA; ProviderID := Scenario.drA;
     ApptType := AppointmentTypeConsultation;
     Status := AppointmentStatusScheduled;
     StartTime := Scenario.at_ 0 0 - Hour; EndTime := Scenario.at_ 9 0;
     Duration_ := 600;
     Department := "Poli Umum"; Location_ := "Lantai 1"; Room := "101";
     ReasonForVisit := "Kontrol"; Notes := EmptyString;
     ReminderSent := false; ReminderSentAt := None;
     CheckedInAt := None; CancelledAt := None;
     CancellationReason := EmptyString |}.

End Overnight.

(** ** Package [scheduling]: listing *)

(** [Offset(n)]: an [OFFSET] clause is emitted only for a positive [n]. *)
Definition Offset {A : Type} (n : Z) (l : list A) : list A :=
  if 0 <? n then skipn (Z.to_nat n) l else l.

(** [Limit(n)]: a [LIMIT] clause; a negative [n] stands for no limit. *)
Definition Limit {A : Type} (n : Z) (l : list A) : list A :=
  if n <? 0 then l else firstn (Z.to_nat n) l.

(** The filters of [ListAppointments], each applied when its argument is
    not nil. *)
Definition listFilter (patientID providerID : option UUID)
           (status : option AppointmentStatus) (date : option (Time * Location))
           (a : Appointment) : bool :=
  match patientID with Some p => uuid_eqb (PatientID a) p | None => true end
  && match providerID with Some p => uuid_eqb (ProviderID a) p | None => true end
  && match status with Some s => String.eqb (Status a) s | None => true end
  && match date with
     | Some (d, loc) =>
         let startOfDay := DateOfDay d 0 loc in
         let endOfDay := Add startOfDay (24 * Hour) in
         (StartTime a >=? startOfDay) && (StartTime a <? endOfDay)
     | None => true
     end.

(** The page and the total count. *)
Definition ListAppointments (w : World) (page pageSize : Z)
           (patientID providerID : option UUID)
           (status : option AppointmentStatus) (date : option (Time * Location))
  : list LoadedAppointment * Z :=
  let query := listFilter patientID providerID status date in
  let total := Count query (appointments w) in
  let offset := wrap64 (wrap64 (page - 1) * pageSize) in
  (map (preload w)
       (Limit pageSize
          (Offset offset (orderByStartTime (filter query (appointments w))))),
   total).

(** *** The paging of [Handler.ListAppointments] *)

(** [strconv.Atoi] where [int] has 64 bits, as the handler and [getEnvAsInt]
    use it: the value and whether [err == nil].  The two kinds of error of
    package [strconv]: *)
Inductive NumError := ErrSyntax | ErrRange.

Definition digitOf (c : Ascii.ascii) : option Z :=
  let n := Z.of_N (Ascii.N_of_ascii c) in
  if (48 <=? n) && (n <=? 57) then Some (n - 48) else None.

Definition maxUint64 : Z := 2 ^ 64 - 1.

(** The loop of [ParseUint(s, 10, 0)] over the bytes, [n] the unsigned
    64-bit value read so far.  A byte that is no decimal digit ends it with
    the syntax error; a value that no longer fits ends it at once with
    [maxUint64] and the range error, whatever follows. *)
Fixpoint parseUintLoop (n : Z) (s : string) : Z * option NumError :=
  match s with
  | EmptyString => (n, None)
  | String c rest =>
      match digitOf c with
      | None => (0, Some ErrSyntax)
      | Some d =>
          if n >=? maxUint64 / 10 + 1 then (maxUint64, Some ErrRange)
          else
            let n := n * 10 in
            let n1 := (n + d) mod 2 ^ 64 in
            if (n1 <? n) || (n1 >? maxUint64) then (maxUint64, Some ErrRange)
            else parseUintLoop n1 rest
      end
  end.

Definition ParseUint (s : string) : Z * option NumError :=
  match s with
  | EmptyString => (0, Some ErrSyntax)
  | _ => parseUintLoop 0 s
  end.

(** [ParseInt(s, 10, 0)]: the sign is picked off, the rest is read as an
    unsigned number and checked against the signed range. *)
Definition ParseInt (s : string) : Z * option NumError :=
  match s with
  | EmptyString => (0, Some ErrSyntax)
  | String c rest =>
      let '(neg, s) :=
        if Ascii.eqb c "+" then (false, rest)
        else if Ascii.eqb c "-" then (true, rest)
        else (false, s) in
      let '(un, err) := ParseUint s in
      match err with
      | Some ErrSyntax => (0, Some ErrSyntax)
      | _ =>
          let cutoff := 2 ^ 63 in
          if negb neg && (un >=? cutoff) then (cutoff - 1, Some ErrRange)
          else if neg && (un >? cutoff) then (- cutoff, Some ErrRange)
          else
            let n := wrap64 un in
            let n := if neg then wrap64 (- n) else n in
            (n, None)
      end
  end.

(** The loop of the short path of [Atoi]: [ch -= '0'] on a byte, then
    [n = n*10 + int(ch)]. *)
Fixpoint atoiLoop (n : Z) (s : string) : option Z :=
  match s with
  | EmptyString => Some n
  | String c rest =>
      let ch := (Z.of_N (Ascii.N_of_ascii c) - 48) mod 256 in
      if ch >? 9 then None else atoiLoop (wrap64 (n * 10 + ch)) rest
  end.

(** [Atoi]: texts of 1 to 18 bytes take the short path, all others go
    through [ParseInt]. *)
Definition Atoi (s : string) : Z * bool :=
  let sLen := Z.of_nat (String.length s) in
  if (0 <? sLen) && (sLen <? 19) then
    match s with
    | EmptyString => (0, false)
    | String s0 rest =>
        let signed := Ascii.eqb s0 "-" || Ascii.eqb s0 "+" in
        let s := if signed then rest else s in
        if signed && (Z.of_nat (String.length s) <? 1) then (0, false)
        else
          match atoiLoop 0 s with
          | None => (0, false)
          | Some n => (if Ascii.eqb s0 "-" then wrap64 (- n) else n, true)
          end
    end
  else
    let '(i64, err) := ParseInt s in
    (i64, match err with None => true | Some _ => false end).

(** [c.DefaultQuery(key, def)] for a parameter that is absent ([None]) or
    present with some text. *)
Definition DefaultQuery (param : option string) (def : string) : string :=
  match param with Some v => v | None => def end.

(** The first lines of the handler: [page] and [page_size], with the
    parse errors dropped and the bounds enforced. *)
Definition listPaging (pageParam pageSizeParam : option string) : Z * Z :=
  let page := fst (Atoi (DefaultQuery pageParam "1")) in
  let pageSize := fst (Atoi (DefaultQuery pageSizeParam "20")) in
  let page := if page <? 1 then 1 else page in
  let pageSize := if (pageSize <? 1) || (pageSize >? 100) then 20 else pageSize in
  (page, pageSize).

(** ["total_pages": (total + int64(pageSize) - 1) / int64(pageSize)] *)
Definition totalPages (total pageSize : Z) : Z :=
  Z.quot (wrap64 (wrap64 (total + pageSize) - 1)) pageSize.



(** ** Package [config] *)

(** A Go string is its sequence of bytes; [os.Getenv] is a function from
    names to values, the empty string standing for an unset variable too
    (the state of the environment after [godotenv.Load]). *)
Definition Environ := string -> string.

Definition bytesOf (s : string) : list ascii := list_ascii_of_string s.
Definition byteOf (c : ascii) : Z := Z.of_N (N_of_ascii c).
Definition charOf (b : Z) : ascii := ascii_of_N (Z.to_N (b mod 256)).

(** [s[i] == ' ' || s[i] == '\t' || s[i] == '\n'] *)
Definition isBlank (c : ascii) : bool :=
  (byteOf c =? 32) || (byteOf c =? 9) || (byteOf c =? 10).

(** The first loop of [trimSpace] moves [start] past the leading blanks. *)
Fixpoint dropBlanks (l : list ascii) : list ascii :=
  match l with
  | c :: rest => if isBlank c then dropBlanks rest else l
  | [] => []
  end.

(** The second loop moves [end] back over the trailing blanks of what is
    left: the same scan, from the other end. *)
Definition trimSpace (s : string) : string :=
  string_of_list_ascii (rev (dropBlanks (rev (dropBlanks (bytesOf s))))).

(** *** Ranging over a string

    [for _, char := range s] decodes one UTF-8 sequence per iteration; a
    byte that starts no valid sequence yields U+FFFD and advances by one
    byte ([runtime.decoderune]). *)
Definition RuneError : Z := 65533.

Definition isCont (b : Z) : bool := (128 <=? b) && (b <=? 191).

Definition decoderune (s : list ascii) : Z * nat :=
  match s with
  | [] => (RuneError, 1%nat)
  | c0 :: rest =>
      let s0 := byteOf c0 in
      if s0 <? 128 then (s0, 1%nat)
      else if (192 <=? s0) && (s0 <? 224) then
        match rest with
        | c1 :: _ =>
            let r := Z.lor (Z.shiftl (Z.land s0 31) 6) (Z.land (byteOf c1) 63) in
            if isCont (byteOf c1) && (127 <? r) then (r, 2%nat)
            else (RuneError, 1%nat)
        | _ => (RuneError, 1%nat)
        end
      else if (224 <=? s0) && (s0 <? 240) then
        match rest with
        | c1 :: c2 :: _ =>
            let r := Z.lor (Z.lor (Z.shiftl (Z.land s0 15) 12)
                                  (Z.shiftl (Z.land (byteOf c1) 63) 6))
                           (Z.land (byteOf c2) 63) in
            if isCont (byteOf c1) && isCont (byteOf c2)
               && (2047 <? r) && negb ((55296 <=? r) && (r <=? 57343))
            then (r, 3%nat)
            else (RuneError, 1%nat)
        | _ => (RuneError, 1%nat)
        end
      else if (240 <=? s0) && (s0 <? 248) then
        match rest with
        | c1 :: c2 :: c3 :: _ =>
            let r := Z.lor (Z.lor (Z.lor (Z.shiftl (Z.land s0 7) 18)
                                         (Z.shiftl (Z.land (byteOf c1) 63) 12))
                                  (Z.shiftl (Z.land (byteOf c2) 63) 6))
                           (Z.land (byteOf c3) 63) in
            if isCont (byteOf c1) && isCont (byteOf c2) && isCont (byteOf c3)
               && (65535 <? r) && (r <=? 1114111)
            then (r, 4%nat)
            else (RuneError, 1%nat)
        | _ => (RuneError, 1%nat)
        end
      else (RuneError, 1%nat)
  end.

Arguments decoderune : simpl never.

(** The runes of a string, in order; [skip] counts the bytes of the
    current sequence still to pass. *)
Fixpoint runesFrom (skip : nat) (s : list ascii) : list Z :=
  match s with
  | [] => []
  | _ :: rest =>
      match skip with
      | S k => runesFrom k rest
      | O => let '(r, size) := decoderune s in r :: runesFrom (size - 1) rest
      end
  end.

(** [string(char)]: the UTF-8 encoding of a rune ([runtime.encoderune]);
    a surrogate or a value above U+10FFFF is encoded as U+FFFD. *)
Definition encoderune (r : Z) : list ascii :=
  let i := r mod 2 ^ 32 in
  let three (r : Z) :=
    [ charOf (Z.lor 224 (Z.shiftr r 12));
      charOf (Z.lor 128 (Z.land (Z.shiftr r 6) 63));
      charOf (Z.lor 128 (Z.land r 63)) ] in
  if i <=? 127 then [ charOf r ]
  else if i <=? 2047 then
    [ charOf (Z.lor 192 (Z.shiftr r 6)); charOf (Z.lor 128 (Z.land r 63)) ]
  else if (1114111 <? i) || ((55296 <=? i) && (i <=? 57343)) then three RuneError
  else if i <=? 65535 then three r
  else
    [ charOf (Z.lor 240 (Z.shiftr r 18));
      charOf (Z.lor 128 (Z.land (Z.shiftr r 12) 63));
      charOf (Z.lor 128 (Z.land (Z.shiftr r 6) 63));
      charOf (Z.lor 128 (Z.land r 63)) ].

Arguments encoderune : simpl never.

(** The loop of [splitByComma]. *)
Fixpoint splitLoop (runes : list Z) (current : list ascii) (result : list string)
  : list string :=
  match runes with
  | [] =>
      match current with
      | [] => result
      | _ => (result ++ [string_of_list_ascii current])%list
      end
  | char :: rest =>
      if char =? 44
      then splitLoop rest [] (result ++ [string_of_list_ascii current])%list
      else splitLoop rest (current ++ encoderune char)%list result
  end.

Definition splitByComma (s : string) : list string :=
  splitLoop (runesFrom 0 (bytesOf s)) [] [].

Definition getEnv (env : Environ) (key defaultValue : string) : string :=
  if String.eqb (env key) EmptyString then defaultValue else env key.

Definition getEnvAsInt (env : Environ) (key : string) (defaultValue : Z) : Z :=
  if String.eqb (env key) EmptyString then defaultValue
  else
    let '(intVal, ok) := Atoi (env key) in
    if ok then intVal else defaultValue.

(** [strconv.ParseBool] *)
Definition ParseBool (s : string) : option bool :=
  if existsb (String.eqb s) ["1"; "t"; "T"; "TRUE"; "true"; "True"] then Some true
  else if existsb (String.eqb s) ["0"; "f"; "F"; "FALSE"; "false"; "False"]
       then Some false
       else None.

Definition getEnvAsBool (env : Environ) (key : string) (defaultValue : bool) : bool :=
  if String.eqb (env key) EmptyString then defaultValue
  else match ParseBool (env key) with
       | Some boolVal => boolVal
       | None => defaultValue
       end.

Definition getEnvAsSlice (env : Environ) (key : string) (defaultValue : list string)
  : list string :=
  if String.eqb (env key) EmptyString then defaultValue
  else
    fold_left
      (fun result v =>
         let trimmed := trimSpace v in
         if String.eqb trimmed EmptyString then result
         else (result ++ [trimmed])%list)
      (splitByComma (env key)) [].

(** Every piece written out and followed by a comma. *)
Definition commaTerminated (pieces : list string) : list ascii :=
  flat_map (fun p => (bytesOf p ++ [","%char])%list) pieces.

(** The text is not empty and its last byte is not a comma. *)
Definition endsOpen (l : list ascii) : bool :=
  match rev l with
  | [] => false
  | c :: _ => negb (byteOf c =? 44)
  end.

(** A value as [getEnvAsSlice] lets it through: not empty, without a
    comma, and with no blank at either end. *)
Definition cleanValue (v : string) : Prop :=
  v <> EmptyString
  /\ Forall (fun c => byteOf c <> 44) (bytesOf v)
  /\ (forall c rest, bytesOf v = c :: rest -> isBlank c = false)
  /\ (forall front c, bytesOf v = (front ++ [c])%list -> isBlank c = false).

(** *** The configuration *)

Record AppConfig := {
  AppName : string; Environment : string; AppPort : string;
  Version : string; LogLevel : string; LogFormat : string
}.

Record DatabaseConfig := {
  DbURL : string; DbHost : string; DbPort : string; DbUser : string;
  DbPassword : string; DbName : string; SSLMode : string;
  MaxConnections : Z; MaxIdleConns : Z
}.

Record JWTConfig := {
  Secret : string; ExpirationHours : Z; RefreshExpirationHours : Z
}.

Record RedisConfig := {
  RedisHost : string; RedisPort : string; RedisPassword : string; RedisDB : Z
}.

Record NATSConfig := { NatsURL : string; ClusterID : string }.

Record CORSConfig := {
  AllowedOrigins : list string;
  AllowedMethods : list string;
  AllowedHeaders : list string
}.

Record SecurityConfig := {
  EncryptionKey : string; MFAIssuer : string; SessionTimeoutMinutes : Z;
  DataEncryptionEnabled : bool; AuditLogRetentionYears : Z;
  RateLimitPerMinute : Z
}.

Record UploadConfig := { MaxSizeMB : Z; UploadPath : string }.

Record EmailConfig := {
  SMTPHost : string; SMTPPort : string; SMTPUser : string;
  SMTPPassword : string; EmailFrom : string
}.

Record ExternalConfig := {
  ERPAPIUrl : string; ERPAPIKey : string; LISAPIUrl : string;
  LISAPIKey : string; RISAPIUrl : string; RISAPIKey : string
}.

Record FHIRConfig := { ServerURL : string }.

Record Config := {
  App : AppConfig;
  Database : DatabaseConfig;
  JWT : JWTConfig;
  Redis : RedisConfig;
  NATS : NATSConfig;
  CORS : CORSConfig;
  Security : SecurityConfig;
  Upload : UploadConfig;
  Email : EmailConfig;
  External : ExternalConfig;
  FHIR : FHIRConfig
}.

(** [Config.Validate]: the error text, or [None] for [nil]. *)
Definition Validate (c : Config) : option string :=
  if String.eqb (DbURL (Database c)) EmptyString
     && String.eqb (DbPassword (Database c)) EmptyString
  then Some "DB_PASSWORD is required when DATABASE_URL is not set"
  else if String.eqb (Secret (JWT c)) EmptyString
          || String.eqb (Secret (JWT c)) "your_jwt_secret_key"
  then Some "JWT_SECRET must be set to a secure value"
  else if String.eqb (EncryptionKey (Security c)) EmptyString
          && DataEncryptionEnabled (Security c)
  then Some "ENCRYPTION_KEY is required when data encryption is enabled"
  else None.

Definition readConfig (env : Environ) : Config :=
  {| App :=
       {| AppName := getEnv env "APP_NAME" "Hospital-EMR-System";
          Environment := getEnv env "APP_ENV" "development";
          AppPort := getEnv env "APP_PORT" "8080";
          Version := getEnv env "APP_VERSION" "1.0.0";
          LogLevel := getEnv env "LOG_LEVEL" "info";
          LogFormat := getEnv env "LOG_FORMAT" "json" |};
     Database :=
       {| DbURL := getEnv env "DATABASE_URL" EmptyString;
          DbHost := getEnv env "DB_HOST" "localhost";
          DbPort := getEnv env "DB_PORT" "5432";
          DbUser := getEnv env "DB_USER" "postgres";
          DbPassword := getEnv env "DB_PASSWORD" EmptyString;
          DbName := getEnv env "DB_NAME" "emr_database";
          SSLMode := getEnv env "DB_SSLMODE" "disable";
          MaxConnections := getEnvAsInt env "DB_MAX_CONNECTIONS" 100;
          MaxIdleConns := getEnvAsInt env "DB_MAX_IDLE_CONNECTIONS" 10 |};
     JWT :=
       {| Secret := getEnv env "JWT_SECRET" "your_jwt_secret_key";
          ExpirationHours := getEnvAsInt env "JWT_EXPIRATION_HOURS" 24;
          RefreshExpirationHours := getEnvAsInt env "JWT_REFRESH_EXPIRATION_HOURS" 168 |};
     Redis :=
       {| RedisHost := getEnv env "REDIS_HOST" "localhost";
          RedisPort := getEnv env "REDIS_PORT" "6379";
          RedisPassword := getEnv env "REDIS_PASSWORD" EmptyString;
          RedisDB := getEnvAsInt env "REDIS_DB" 0 |};
     NATS :=
       {| NatsURL := getEnv env "NATS_URL" EmptyString;
          ClusterID := getEnv env "NATS_CLUSTER_ID" "emr-cluster" |};
     CORS :=
       {| AllowedOrigins :=
            getEnvAsSlice env "CORS_ALLOWED_ORIGINS"
              ["http://localhost:3000"; "https://frontend-hospital-gules.vercel.app"];
          AllowedMethods :=
            getEnvAsSlice env "CORS_ALLOWED_METHODS"
              ["GET"; "POST"; "PUT"; "DELETE"; "PATCH"; "OPTIONS"];
          AllowedHeaders :=
            getEnvAsSlice env "CORS_ALLOWED_HEADERS"
              ["Origin"; "Content-Type"; "Accept"; "Authorization"] |};
     Security :=
       {| EncryptionKey := getEnv env "ENCRYPTION_KEY" EmptyString;
          MFAIssuer := getEnv env "MFA_ISSUER" "Hospital-EMR";
          SessionTimeoutMinutes := getEnvAsInt env "SESSION_TIMEOUT_MINUTES" 30;
          DataEncryptionEnabled := getEnvAsBool env "DATA_ENCRYPTION_ENABLED" true;
          AuditLogRetentionYears := getEnvAsInt env "AUDIT_LOG_RETENTION_YEARS" 25;
          RateLimitPerMinute := getEnvAsInt env "RATE_LIMIT_REQUESTS_PER_MINUTE" 100 |};
     Upload :=
       {| MaxSizeMB := getEnvAsInt env "MAX_UPLOAD_SIZE_MB" 50;
          UploadPath := getEnv env "UPLOAD_PATH" "./uploads" |};
     Email :=
       {| SMTPHost := getEnv env "SMTP_HOST" "smtp.gmail.com";
          SMTPPort := getEnv env "SMTP_PORT" "587";
          SMTPUser := getEnv env "SMTP_USER" EmptyString;
          SMTPPassword := getEnv env "SMTP_PASSWORD" EmptyString;
          EmailFrom := getEnv env "EMAIL_FROM" "noreply@hospital-emr.com" |};
     External :=
       {| ERPAPIUrl := getEnv env "ERP_API_URL" EmptyString;
          ERPAPIKey := getEnv env "ERP_API_KEY" EmptyString;
          LISAPIUrl := getEnv env "LIS_API_URL" EmptyString;
          LISAPIKey := getEnv env "LIS_API_KEY" EmptyString;
          RISAPIUrl := getEnv env "RIS_API_URL" EmptyString;
          RISAPIKey := getEnv env "RIS_API_KEY" EmptyString |};
     FHIR := {| ServerURL := getEnv env "FHIR_SERVER_URL" EmptyString |} |}.

(** [Load]: the configuration read from the environment, or the error of
    [Validate]. *)
Definition Load (env : Environ) : string + Config :=
  let config := readConfig env in
  match Validate config with
  | Some err => inl err
  | None => inr config
  end.

(** [fmt.Sprintf("host=%s port=%s user=%s password=%s dbname=%s sslmode=%s", ...)] *)
Definition GetDSN (c : Config) : string :=
  if negb (String.eqb (DbURL (Database c)) EmptyString) then DbURL (Database c)
  else "host=" ++ DbHost (Database c)
       ++ " port=" ++ DbPort (Database c)
       ++ " user=" ++ DbUser (Database c)
       ++ " password=" ++ DbPassword (Database c)
       ++ " dbname=" ++ DbName (Database c)
       ++ " sslmode=" ++ SSLMode (Database c).

Definition GetJWTExpiration (c : Config) : Duration :=
  mulDuration (ExpirationHours (JWT c)) Hour.

Definition GetJWTRefreshExpiration (c : Config) : Duration :=
  mulDuration (RefreshExpirationHours (JWT c)) Hour.

Definition IsProduction (c : Config) : bool :=
  String.eqb (Environment (App c)) "production".

Definition IsDevelopment (c : Config) : bool :=
  String.eqb (Environment (App c)) "development".

Module Deployment.

(** An environment with a database URL, a secret, and encryption off. *)
Definition env : Environ :=
  fun k =>
    if String.eqb k "DATABASE_URL" then "postgres://emr@db:5432/emr"
    else if String.eqb k "JWT_SECRET" then "s3cr3t"
    else if String.eqb k "DATA_ENCRYPTION_ENABLED" then "false"
    else EmptyString.

End Deployment.

(** ** Package [encounter]: listing *)

Record LoadedEncounter := {
  EncRow : Encounter;
  EncLoadedPatient : option DirRow;
  EncLoadedProvider : option DirRow
}.

Definition preloadEncounter (w : World) (enc : Encounter) : LoadedEncounter :=
  {| EncRow := enc;
     EncLoadedPatient := firstRow (EncPatientID enc) (patients w);
     EncLoadedProvider := firstRow (EncProviderID enc) (users w) |}.

(** [Order("admission_date DESC")], as a stable insertion sort. *)
Fixpoint insertByAdmissionDesc (enc : Encounter) (l : list Encounter) : list Encounter :=
  match l with
  | [] => [enc]
  | b :: r => if AdmissionDate b <? AdmissionDate enc then enc :: b :: r
              else b :: insertByAdmissionDesc enc r
  end.

Definition orderByAdmissionDesc (l : list Encounter) : list Encounter :=
  fold_right insertByAdmissionDesc [] l.

Definition encounterFilter (patientID providerID : option UUID)
           (status : option EncounterStatus) (enc : Encounter) : bool :=
  match patientID with Some p => uuid_eqb (EncPatientID enc) p | None => true end
  && match providerID with Some p => uuid_eqb (EncProviderID enc) p | None => true end
  && match status with Some s => String.eqb (EncStatus enc) s | None => true end.

Definition ListEncounters (w : World) (page pageSize : Z)
           (patientID providerID : option UUID) (status : option EncounterStatus)
  : list LoadedEncounter * Z :=
  let query := encounterFilter patientID providerID status in
  let total := Count query (encounters w) in
  let offset := wrap64 (wrap64 (page - 1) * pageSize) in
  (map (preloadEncounter w)
       (Limit pageSize
          (Offset offset (orderByAdmissionDesc (filter query (encounters w))))),
   total).

(** Latest admission first, ties allowed. *)
Definition byAdmissionDesc (x y : LoadedEncounter) : Prop :=
  AdmissionDate (EncRow y) <= AdmissionDate (EncRow x).

(** * Properties *)

(** ** Reflection lemmas for the column comparisons *)

Lemma uuid_eqb_eq (a b : UUID) : uuid_eqb a b = true <-> a = b.
Proof. apply String.eqb_eq. Qed.

Lemma uuid_eqb_refl (a : UUID) : uuid_eqb a a = true.
Proof. apply String.eqb_refl. Qed.

Lemma uuid_eqb_neq (a b : UUID) : uuid_eqb a b = false <-> a <> b.
Proof. apply String.eqb_neq. Qed.

Lemma notCancelled_iff (a : Appointment) :
  notCancelled a = true <-> Status a <> AppointmentStatusCancelled.
Proof.
  unfold notCancelled. rewrite negb_true_iff. apply String.eqb_neq.
Qed.

Lemma Count_nonzero {A : Type} (cond : A -> bool) (tbl : list A) :
  (Count cond tbl =? 0) = false <-> exists a, In a tbl /\ cond a = true.
Proof.
  unfold Count. rewrite Z.eqb_neq. split.
  - intros H. destruct (filter cond tbl) as [|a r] eqn:E.
    + simpl in H. lia.
    + exists a. apply filter_In. rewrite E. now left.
  - intros [a Ha]. apply filter_In in Ha.
    destruct (filter cond tbl); [destruct Ha | simpl; lia].
Qed.

Lemma conflictsWith_iff providerID s e a :
  conflictsWith providerID s e a = true <-> blocks providerID s e a.
Proof.
  unfold conflictsWith, blocks, overlaps.
  rewrite !andb_true_iff, uuid_eqb_eq, notCancelled_iff, Z.ltb_lt, Z.gtb_lt.
  intuition lia.
Qed.

Lemma conflictsWithExcept_iff providerID s e x a :
  conflictsWithExcept providerID s e x a = true
  <-> ID a <> x /\ blocks providerID s e a.
Proof.
  unfold conflictsWithExcept, blocks, overlaps.
  rewrite !andb_true_iff, negb_true_iff, uuid_eqb_eq, uuid_eqb_neq,
    notCancelled_iff, Z.ltb_lt, Z.gtb_lt.
  intuition lia.
Qed.

Lemma isProviderAvailable_false w providerID s e :
  isProviderAvailable w providerID s e = false
  <-> exists a, In a (appointments w) /\ blocks providerID s e a.
Proof.
  unfold isProviderAvailable. rewrite Count_nonzero.
  split; intros [a [Hin H]]; exists a; split; auto; now apply conflictsWith_iff.
Qed.

Lemma isProviderAvailableExcept_false w providerID s e x :
  isProviderAvailableExcept w providerID s e x = false
  <-> exists a, In a (appointments w) /\ ID a <> x /\ blocks providerID s e a.
Proof.
  unfold isProviderAvailableExcept. rewrite Count_nonzero.
  split; intros [a [Hin H]]; exists a; split; auto; now apply conflictsWithExcept_iff.
Qed.


(** ** The booking conflict guard *)

Lemma createCheck_conflict w req :
  createCheck w req = inl (EApp ErrAppointmentConflict)
  <-> firstRow (ReqPatientID req) (patients w) <> None
      /\ firstRow (ReqProviderID req) (users w) <> None
      /\ isProviderAvailable w (ReqProviderID req) (ReqStartTime req)
           (Add (ReqStartTime req) (mulDuration (ReqDuration req) Minute)) = false.
Proof.
  unfold createCheck.
  destruct (firstRow (ReqPatientID req) (patients w));
    [| split; [discriminate | intros [H _]; now destruct H]].
  destruct (firstRow (ReqProviderID req) (users w));
    [| split; [discriminate | intros [_ [H _]]; now destruct H]].
  destruct (isProviderAvailable w _ _ _); simpl.
  - split; [discriminate | intros [_ [_ H]]; discriminate].
  - split; [intros _; repeat split; discriminate | reflexivity].
Qed.

Lemma createWrite_not_conflict w e req createdBy endTime :
  fst (createWrite w e req createdBy endTime) <> inl (EApp ErrAppointmentConflict).
Proof.
  unfold createWrite.
  destruct (dbCreate w e _) as [msg | [a w']]; simpl; discriminate.
Qed.

Lemma updateWrite_not_conflict w e req updatedBy a endTime :
  fst (updateWrite w e req updatedBy a endTime) <> inl (EApp ErrAppointmentConflict).
Proof.
  unfold updateWrite, currentDatabaseError.
  destruct (dbSave w e _) as [msg | [a' w']]; simpl;
    [destruct (databaseErrorDetails e) |]; discriminate.
Qed.

Lemma CreateAppointment_conflict w e req createdBy :
  fst (CreateAppointment w e req createdBy) = inl (EApp ErrAppointmentConflict)
  <-> createCheck w req = inl (EApp ErrAppointmentConflict).
Proof.
  unfold CreateAppointment.
  destruct (createCheck w req) as [err | endTime] eqn:E; simpl.
  - split; congruence.
  - split; [| discriminate].
    intros H. now apply createWrite_not_conflict in H.
Qed.

Lemma UpdateAppointment_conflict w e id req updatedBy :
  fst (UpdateAppointment w e id req updatedBy) = inl (EApp ErrAppointmentConflict)
  <-> firstAppointment id (appointments w) <> None
      /\ isProviderAvailableExcept w (ReqProviderID req) (ReqStartTime req)
           (Add (ReqStartTime req) (mulDuration (ReqDuration req) Minute)) id = false.
Proof.
  unfold UpdateAppointment, updateCheck.
  destruct (firstAppointment id (appointments w)) as [a|];
    [| simpl; split; [discriminate | intros [H _]; now destruct H]].
  destruct (isProviderAvailableExcept w _ _ _ id); simpl.
  - split; [| intros [_ H]; discriminate].
    intros H. now apply updateWrite_not_conflict in H.
  - split; [intros _; split; [discriminate | reflexivity] | reflexivity].
Qed.

(** C1. The guard answers "not available" exactly when some non-cancelled
    appointment of the same provider (other than the excluded one, for
    [isProviderAvailableExcept]) has [start < newEnd] and [end > newStart];
    [CreateAppointment] and [UpdateAppointment] return the conflict error
    exactly in that case (their lookups having succeeded).  With provider
    [drA] booked 09:00-09:30, a 09:15-09:45 request is refused with the
    conflict error and stores nothing, and a 09:30-10:00 request is stored. *)
Theorem booking_conflict_guard :
  (forall w providerID newStart newEnd,
      isProviderAvailable w providerID newStart newEnd = false
      <-> exists a, In a (appointments w)
                    /\ ProviderID a = providerID
                    /\ Status a <> AppointmentStatusCancelled
                    /\ StartTime a < newEnd /\ EndTime a > newStart)
  /\ (forall w providerID newStart newEnd exceptID,
         isProviderAvailableExcept w providerID newStart newEnd exceptID = false
         <-> exists a, In a (appointments w)
                       /\ ID a <> exceptID
                       /\ ProviderID a = providerID
                       /\ Status a <> AppointmentStatusCancelled
                       /\ StartTime a < newEnd /\ EndTime a > newStart)
  /\ (forall w e req createdBy,
         fst (CreateAppointment w e req createdBy) = inl (EApp ErrAppointmentConflict)
         <-> firstRow (ReqPatientID req) (patients w) <> None
             /\ firstRow (ReqProviderID req) (users w) <> None
             /\ exists a, In a (appointments w)
                  /\ blocks (ReqProviderID req) (ReqStartTime req)
                       (ReqStartTime req + mulDuration (ReqDuration req) Minute) a)
  /\ (forall w e id req updatedBy,
         fst (UpdateAppointment w e id req updatedBy) = inl (EApp ErrAppointmentConflict)
         <-> firstAppointment id (appointments w) <> None
             /\ exists a, In a (appointments w)
                  /\ ID a <> id
                  /\ blocks (ReqProviderID req) (ReqStartTime req)
                       (ReqStartTime req + mulDuration (ReqDuration req) Minute) a)
  /\ (exists a0, appointments Scenario.booked0900 = [a0]
         /\ ProviderID a0 = Scenario.drA
         /\ Status a0 = AppointmentStatusScheduled
         /\ StartTime a0 = Scenario.at_ 9 0 /\ EndTime a0 = Scenario.at_ 9 30)
  /\ CreateAppointment Scenario.booked0900 (Scenario.env 2 Scenario.id2)
       (Scenario.request (Scenario.at_ 9 15) 30) Scenario.clerk
     = (inl (EApp ErrAppointmentConflict), Scenario.booked0900)
  /\ (exists a w',
         CreateAppointment Scenario.booked0900 (Scenario.env 2 Scenario.id2)
           (Scenario.request (Scenario.at_ 9 30) 30) Scenario.clerk = (inr a, w')
         /\ StartTime a = Scenario.at_ 9 30 /\ EndTime a = Scenario.at_ 10 0
         /\ ProviderID a = Scenario.drA
         /\ In a (appointments w')).
Proof.
  split; [| split; [| split; [| split; [| split; [| split]]]]].
  - intros. rewrite isProviderAvailable_false. unfold blocks, overlaps.
    split; intros [a H]; exists a; tauto.
  - intros. rewrite isProviderAvailableExcept_false. unfold blocks, overlaps.
    split; intros [a H]; exists a; tauto.
  - intros. rewrite CreateAppointment_conflict, createCheck_conflict.
    rewrite isProviderAvailable_false. reflexivity.
  - intros. rewrite UpdateAppointment_conflict.
    rewrite isProviderAvailableExcept_false. reflexivity.
  - eexists. split; [vm_compute; reflexivity |]. vm_compute. repeat split.
  - vm_compute. reflexivity.
  - eexists. eexists. split; [vm_compute; reflexivity |].
    vm_compute. repeat split. right. left. reflexivity.
Qed.

(** ** The availability calculator *)

Lemma slotLoop_step appts workEnd currentSlot :
  slotLoop appts workEnd currentSlot =
  if currentSlot <? workEnd
  then nthSlot appts currentSlot 0
       :: slotLoop appts workEnd (Add currentSlot slotDuration)
  else [].
Proof.
  rewrite (slotLoop_equation_1 appts workEnd currentSlot). unfold Time in *.
  destruct (Z_lt_dec currentSlot workEnd) as [H | H]; simpl.
  - apply Z.ltb_lt in H as ->. unfold nthSlot. simpl Z.of_nat.
    now rewrite Z.mul_0_l, Z.add_0_r.
  - apply Z.ltb_nlt in H as ->. reflexivity.
Qed.

Lemma nthSlot_shift appts workStart i :
  nthSlot appts (Add workStart slotDuration) i = nthSlot appts workStart (S i).
Proof.
  unfold nthSlot, Add.
  replace (workStart + slotDuration + Z.of_nat i * slotDuration)
    with (workStart + Z.of_nat (S i) * slotDuration) by lia.
  reflexivity.
Qed.

(** The loop run over a window of [n] whole slots. *)
Lemma slotLoop_closed appts n : forall workStart,
  slotLoop appts (workStart + Z.of_nat n * slotDuration) workStart
  = map (nthSlot appts workStart) (seq 0 n).
Proof.
  induction n as [| n IH]; intros workStart.
  - rewrite slotLoop_step. simpl Z.of_nat. rewrite Z.mul_0_l, Z.add_0_r.
    now rewrite Z.ltb_irrefl.
  - rewrite slotLoop_step.
    assert (0 < slotDuration) by (unfold slotDuration, Minute, Second; lia).
    replace (workStart <? workStart + Z.of_nat (S n) * slotDuration) with true
      by (symmetry; apply Z.ltb_lt; nia).
    simpl seq. simpl map. f_equal.
    replace (workStart + Z.of_nat (S n) * slotDuration)
      with (Add workStart slotDuration + Z.of_nat n * slotDuration)
      by (unfold Add; lia).
    rewrite IH, <- seq_shift, map_map.
    apply map_ext. intros i. apply nthSlot_shift.
Qed.

Lemma working_window date loc :
  DateOfDay date 17 loc = DateOfDay date 8 loc + Z.of_nat 18 * slotDuration.
Proof.
  unfold DateOfDay, slotDuration, Hour, Minute, Second. simpl Z.of_nat. lia.
Qed.

Lemma GetProviderAvailability_closed w providerID date loc :
  firstRow providerID (users w) <> None ->
  GetProviderAvailability w providerID date loc
  = inr (map (nthSlot
                (orderByStartTime
                   (filter (onDay providerID (DateOfDay date 0 loc)
                              (Add (DateOfDay date 0 loc) (24 * Hour)))
                      (appointments w)))
                (DateOfDay date 8 loc))
             (seq 0 18)).
Proof.
  intros H. unfold GetProviderAvailability.
  destruct (firstRow providerID (users w)); [| now destruct H].
  rewrite working_window, slotLoop_closed. reflexivity.
Qed.

Lemma nth_error_slots appts workStart n i s :
  nth_error (map (nthSlot appts workStart) (seq 0 n)) i = Some s
  <-> (i < n)%nat /\ s = nthSlot appts workStart i.
Proof.
  rewrite nth_error_map. split.
  - destruct (nth_error (seq 0 n) i) as [k|] eqn:E; simpl; [| discriminate].
    intros [= <-].
    assert (Hi : (i < n)%nat)
      by (rewrite <- (length_seq n 0); apply nth_error_Some; congruence).
    split; [exact Hi |].
    rewrite nth_error_nth' with (d := 0%nat) in E by (now rewrite length_seq).
    rewrite seq_nth in E by exact Hi. injection E as <-. reflexivity.
  - intros [Hi ->].
    rewrite nth_error_nth' with (d := 0%nat) by (now rewrite length_seq).
    rewrite seq_nth by exact Hi. reflexivity.
Qed.

Lemma nthSlot_bounds appts workStart i :
  SlotStartTime (nthSlot appts workStart i) = workStart + Z.of_nat i * slotDuration
  /\ SlotEndTime (nthSlot appts workStart i)
     = workStart + Z.of_nat i * slotDuration + slotDuration.
Proof. split; reflexivity. Qed.

Lemma slots_ascending appts workStart n :
  ascendingSlots (map (nthSlot appts workStart) (seq 0 n)).
Proof.
  intros i j si sj Hij Hi Hj.
  apply nth_error_slots in Hi as [_ ->]. apply nth_error_slots in Hj as [_ ->].
  simpl. unfold slotDuration, Minute, Second. lia.
Qed.

Lemma slots_contiguous appts workStart n :
  contiguousSlots (map (nthSlot appts workStart) (seq 0 n)).
Proof.
  intros i s t Hs Ht.
  apply nth_error_slots in Hs as [_ ->]. apply nth_error_slots in Ht as [_ ->].
  simpl. unfold Add, slotDuration, Minute, Second. lia.
Qed.

Lemma slots_disjoint appts workStart n :
  disjointSlots (map (nthSlot appts workStart) (seq 0 n)).
Proof.
  intros i j si sj Hij Hi Hj.
  apply nth_error_slots in Hi as [_ ->]. apply nth_error_slots in Hj as [_ ->].
  simpl. unfold Add, slotDuration, Minute, Second. lia.
Qed.

Lemma slots_cover appts workStart n :
  coversExactly (map (nthSlot appts workStart) (seq 0 n))
                workStart (workStart + Z.of_nat n * slotDuration).
Proof.
  assert (Hd : slotDuration = 1800000000000) by reflexivity.
  intros t. split.
  - intros Ht.
    exists (nthSlot appts workStart (Z.to_nat ((t - workStart) / slotDuration))).
    split.
    + apply in_map, in_seq. rewrite Hd in *.
      assert ((t - workStart) / 1800000000000 < Z.of_nat n)
        by (apply Z.div_lt_upper_bound; lia).
      assert (0 <= (t - workStart) / 1800000000000)
        by (apply Z.div_pos; lia).
      lia.
    + simpl. unfold Add. rewrite Z2Nat.id by (apply Z.div_pos; rewrite ?Hd; lia).
      rewrite Hd.
      pose proof (Z.mul_div_le (t - workStart) 1800000000000 ltac:(lia)).
      pose proof (Z.mul_succ_div_gt (t - workStart) 1800000000000 ltac:(lia)).
      lia.
  - intros [s [Hin Hs]]. apply in_map_iff in Hin as [i [<- Hi]].
    apply in_seq in Hi. simpl in Hs. unfold Add in Hs. rewrite Hd in *. nia.
Qed.

(** C3. For a provider that resolves, [GetProviderAvailability] returns
    exactly 18 slots; the [i]-th starts at 08:00 plus [i] times 30 minutes
    and lasts 30 minutes, so the slots are in ascending order of start time,
    each ends where the next starts, no two overlap, and together they cover
    the working window from 08:00 to 17:00 of the day and nothing else. *)
Theorem availability_partitions_working_window w providerID date loc :
  firstRow providerID (users w) <> None ->
  exists slots,
    GetProviderAvailability w providerID date loc = inr slots
    /\ List.length slots = 18%nat
    /\ (forall i s, nth_error slots i = Some s ->
          SlotStartTime s = DateOfDay date 8 loc + Z.of_nat i * (30 * Minute)
          /\ SlotEndTime s = SlotStartTime s + 30 * Minute)
    /\ ascendingSlots slots
    /\ contiguousSlots slots
    /\ disjointSlots slots
    /\ coversExactly slots (DateOfDay date 8 loc) (DateOfDay date 17 loc).
Proof.
  intros H. rewrite (GetProviderAvailability_closed w providerID date loc H).
  eexists. split; [reflexivity |].
  split; [now rewrite length_map, length_seq |].
  split.
  { intros i s Hs. apply nth_error_slots in Hs as [_ ->]. split; reflexivity. }
  split; [apply slots_ascending |].
  split; [apply slots_contiguous |].
  split; [apply slots_disjoint |].
  rewrite working_window. apply slots_cover.
Qed.

(** The 18 slots of provider [drA] on 2024-01-15, asked for at 13:37. *)
Lemma availability_partitions_working_window_witness :
  exists slots,
    GetProviderAvailability Scenario.empty Scenario.drA (Scenario.at_ 13 37) UTC
    = inr slots
    /\ List.length slots = 18%nat
    /\ (forall i s, nth_error slots i = Some s ->
          SlotStartTime s = Scenario.at_ 8 0 + Z.of_nat i * (30 * Minute)
          /\ SlotEndTime s = SlotStartTime s + 30 * Minute)
    /\ ascendingSlots slots
    /\ contiguousSlots slots
    /\ disjointSlots slots
    /\ coversExactly slots (Scenario.at_ 8 0) (Scenario.at_ 17 0).
Proof.
  apply (availability_partitions_working_window
           Scenario.empty Scenario.drA (Scenario.at_ 13 37) UTC).
  vm_compute. discriminate.
Defined.

Lemma slotIsAvailable_false currentSlot slotEnd appts :
  slotIsAvailable currentSlot slotEnd appts = false
  <-> exists a, In a appts /\ currentSlot < EndTime a /\ slotEnd > StartTime a.
Proof.
  induction appts as [| b r IH]; simpl.
  - split; [discriminate | intros [a [[] _]]].
  - unfold Before, After.
    destruct ((currentSlot <? EndTime b) && (StartTime b <? slotEnd)) eqn:E.
    + apply andb_true_iff in E as [E1 E2]. apply Z.ltb_lt in E1, E2.
      split; [intros _ | reflexivity]. exists b. split; [now left | lia].
    + rewrite IH. apply andb_false_iff in E.
      split.
      * intros [a [Hin Ha]]. exists a. split; [now right | exact Ha].
      * intros [a [[<- | Hin] Ha]]; [| exists a; now split].
        exfalso. destruct E as [E | E]; apply Z.ltb_nlt in E; lia.
Qed.

Lemma In_insertByStartTime a x l :
  In a (insertByStartTime x l) <-> a = x \/ In a l.
Proof.
  induction l as [| b r IH]; simpl.
  - intuition congruence.
  - destruct (StartTime x <? StartTime b); simpl; rewrite ?IH; intuition congruence.
Qed.

Lemma In_orderByStartTime a l : In a (orderByStartTime l) <-> In a l.
Proof.
  induction l as [| b r IH]; simpl; [reflexivity |].
  rewrite In_insertByStartTime, IH. intuition congruence.
Qed.

Lemma onDay_iff providerID startOfDay endOfDay a :
  onDay providerID startOfDay endOfDay a = true
  <-> ProviderID a = providerID
      /\ startOfDay <= StartTime a < endOfDay
      /\ Status a <> AppointmentStatusCancelled.
Proof.
  unfold onDay.
  rewrite !andb_true_iff, uuid_eqb_eq, notCancelled_iff, Z.geb_le, Z.ltb_lt.
  intuition lia.
Qed.

(** C4. A slot returned by [GetProviderAvailability] is flagged unavailable
    exactly when some non-cancelled appointment of the provider whose start
    lies in [[dayStart, dayStart + 24h)] has [slot.start < appt.end] and
    [slot.end > appt.start].  With the single booking 10:00-10:30, the 18
    slots of the day are all available except the one from 10:00 to 10:30. *)
Theorem slot_unavailable_iff_meets_booking :
  (forall w providerID date loc slots s,
      GetProviderAvailability w providerID date loc = inr slots ->
      In s slots ->
      (Available s = false
       <-> exists a, In a (appointments w)
             /\ ProviderID a = providerID
             /\ Status a <> AppointmentStatusCancelled
             /\ DateOfDay date 0 loc <= StartTime a < DateOfDay date 0 loc + 24 * Hour
             /\ meetsSlot s a))
  /\ (exists day,
        GetProviderAvailability Scenario.booked1000 Scenario.drA
          (Scenario.at_ 13 37) UTC = inr day
        /\ List.length day = 18%nat
        /\ filter (fun x => negb (Available x)) day
           = [ {| SlotStartTime := Scenario.at_ 10 0;
                  SlotEndTime := Scenario.at_ 10 30;
                  Available := false |} ]
        /\ List.length (filter Available day) = 17%nat).
Proof.
  split.
  - intros w providerID date loc slots s Hget Hin.
    assert (Hu : firstRow providerID (users w) <> None).
    { unfold GetProviderAvailability in Hget.
      destruct (firstRow providerID (users w)); [discriminate | discriminate Hget]. }
    rewrite (GetProviderAvailability_closed w providerID date loc Hu) in Hget.
    apply (f_equal (fun r => match r with inr l => l | inl _ => [] end)) in Hget.
    cbv beta iota in Hget. subst slots. apply in_map_iff in Hin as [i [<- _]].
    unfold nthSlot, meetsSlot. simpl Available. simpl SlotStartTime. simpl SlotEndTime.
    rewrite slotIsAvailable_false.
    split; intros [a [Ha H]]; exists a.
    + apply In_orderByStartTime, filter_In in Ha as [Ha Hday].
      apply onDay_iff in Hday. unfold Add in *. tauto.
    + split; [| tauto].
      apply In_orderByStartTime, filter_In. split; [tauto |].
      apply onDay_iff. unfold Add. tauto.
  - eexists. split; [vm_compute; reflexivity |]. vm_compute. repeat split.
Qed.

(** The fifth slot of the day, 10:00-10:30, against the 10:00 booking. *)
Lemma slot_unavailable_iff_meets_booking_witness :
  Available (nthSlot (appointments Scenario.booked1000) (Scenario.at_ 8 0) 4) = false
  <-> exists a, In a (appointments Scenario.booked1000)
        /\ ProviderID a = Scenario.drA
        /\ Status a <> AppointmentStatusCancelled
        /\ DateOfDay (Scenario.at_ 13 37) 0 UTC <= StartTime a
           < DateOfDay (Scenario.at_ 13 37) 0 UTC + 24 * Hour
        /\ meetsSlot (nthSlot (appointments Scenario.booked1000) (Scenario.at_ 8 0) 4) a.
Proof.
  refine (proj1 slot_unavailable_iff_meets_booking
            Scenario.booked1000 Scenario.drA (Scenario.at_ 13 37) UTC
            (map (nthSlot (appointments Scenario.booked1000) (Scenario.at_ 8 0))
                 (seq 0 18))
            (nthSlot (appointments Scenario.booked1000) (Scenario.at_ 8 0) 4) _ _).
  - vm_compute. reflexivity.
  - apply in_map, in_seq. lia.
Defined.

(** ** Store lemmas *)

Lemma firstAppointment_Some id tbl a :
  firstAppointment id tbl = Some a -> ID a = id /\ In a tbl.
Proof.
  unfold firstAppointment. intros H. apply find_some in H as [Hin Hid].
  apply uuid_eqb_eq in Hid. now split.
Qed.

Lemma firstAppointment_replaced id a' tbl a :
  ID a' = id ->
  firstAppointment id tbl = Some a ->
  firstAppointment id (map (fun b => if uuid_eqb (ID b) id then a' else b) tbl)
  = Some a'.
Proof.
  intros Hid. unfold firstAppointment.
  induction tbl as [| b r IH]; simpl; [discriminate |].
  destruct (uuid_eqb (ID b) id) eqn:E.
  - intros _. now rewrite Hid, uuid_eqb_refl.
  - rewrite E. exact IH.
Qed.

Lemma appointments_Publish w subject data :
  appointments (Publish w subject data) = appointments w.
Proof. unfold Publish. now destruct (natsConnected w). Qed.

Lemma encounters_Publish w subject data :
  encounters (Publish w subject data) = encounters w.
Proof. unfold Publish. now destruct (natsConnected w). Qed.

Lemma published_Publish w subject data :
  published (Publish w subject data)
  = (published w
       ++ (if natsConnected w
           then [ {| Subject := subject; Payload := data |} ] else []))%list.
Proof.
  unfold Publish. destruct (natsConnected w); simpl; [reflexivity |].
  now rewrite app_nil_r.
Qed.

(** Saving a loaded row whose keys were left alone always succeeds. *)
Lemma dbSave_loaded w e id a a1 :
  firstAppointment id (appointments w) = Some a ->
  ID a1 = ID a -> PatientID a1 = PatientID a -> ProviderID a1 = ProviderID a ->
  dbSave w e a1
  = inr (BeforeUpdate e a1,
         setAppointments w
           (map (fun b => if uuid_eqb (ID b) id then BeforeUpdate e a1 else b)
                (appointments w))).
Proof.
  intros Hf Hid Hp Hd. destruct (firstAppointment_Some _ _ _ Hf) as [Ha _].
  unfold dbSave. rewrite Hid, Ha, Hf. unfold fkHolds. simpl.
  rewrite Hp, Hd, !uuid_eqb_refl. reflexivity.
Qed.

(** ** Appointment lifecycle *)

Lemma CancelAppointment_found w e id reason cancelledBy a :
  firstAppointment id (appointments w) = Some a ->
  exists a' w',
    CancelAppointment w e id reason cancelledBy = (None, w')
    /\ firstAppointment id (appointments w') = Some a'
    /\ Status a' = AppointmentStatusCancelled
    /\ CancelledAt a' = Some (now e)
    /\ CancellationReason a' = reason
    /\ UpdatedBy a' = cancelledBy
    /\ (StartTime a', EndTime a', Duration_ a', PatientID a', ProviderID a')
       = (StartTime a, EndTime a, Duration_ a, PatientID a, ProviderID a)
    /\ published w'
       = (published w
            ++ (if natsConnected w
                then [ {| Subject := SubjectAppointmentCancelled;
                          Payload := [("appointment_id", VString id);
                                      ("patient_id", VString (PatientID a));
                                      ("provider_id", VString (ProviderID a));
                                      ("reason", VString reason);
                                      ("cancelled_by", VString cancelledBy)] |} ]
                else []))%list.
Proof.
  intros Hf. destruct (firstAppointment_Some _ _ _ Hf) as [Hid _].
  unfold CancelAppointment. rewrite Hf.
  rewrite (dbSave_loaded w e id a) by (try exact Hf; reflexivity).
  eexists. eexists. split; [reflexivity |].
  rewrite appointments_Publish, published_Publish. simpl.
  split; [apply firstAppointment_replaced with (a := a); [exact Hid | exact Hf] |].
  rewrite Hid. repeat split.
Qed.

(** C5 (as amended). [CancelAppointment] does not look at the current
    status.  For an appointment that exists, whatever its status, it
    succeeds, sets the status to Cancelled, records the cancellation time and
    the caller's reason (empty or not) and hands one appointment-cancelled
    event to the bus if it is connected; for an unknown id it returns the
    not-found error and changes nothing. *)
Theorem cancel_ignores_current_status w e id reason cancelledBy :
  match firstAppointment id (appointments w) with
  | None =>
      CancelAppointment w e id reason cancelledBy
      = (Some (EApp (ErrAppointmentNotFound id)), w)
  | Some a =>
      exists a' w',
        CancelAppointment w e id reason cancelledBy = (None, w')
        /\ firstAppointment id (appointments w') = Some a'
        /\ Status a' = AppointmentStatusCancelled
        /\ CancelledAt a' = Some (now e)
        /\ CancellationReason a' = reason
        /\ published w'
           = (published w
                ++ (if natsConnected w
                    then [ {| Subject := SubjectAppointmentCancelled;
                              Payload := [("appointment_id", VString id);
                                          ("patient_id", VString (PatientID a));
                                          ("provider_id", VString (ProviderID a));
                                          ("reason", VString reason);
                                          ("cancelled_by", VString cancelledBy)] |} ]
                    else []))%list
  end.
Proof.
  destruct (firstAppointment id (appointments w)) as [a |] eqn:Hf.
  - destruct (CancelAppointment_found w e id reason cancelledBy a Hf)
      as [a' [w' H]].
    exists a', w'. tauto.
  - unfold CancelAppointment. now rewrite Hf.
Qed.

(** C5 fails as stated: the seeded appointment APT-003 is Completed, and
    cancelling it is accepted; it is stored as Cancelled and the event goes
    out. *)
Lemma cancel_completed_is_accepted :
  firstAppointment Scenario.id1 (appointments Scenario.seeded)
  = Some Scenario.seededCompleted
  /\ Status Scenario.seededCompleted = AppointmentStatusCompleted
  /\ fst (CancelAppointment Scenario.seeded (Scenario.env 0 Scenario.id2)
            Scenario.id1 EmptyString Scenario.clerk) = None
  /\ option_map Status
       (firstAppointment Scenario.id1
          (appointments
             (snd (CancelAppointment Scenario.seeded (Scenario.env 0 Scenario.id2)
                     Scenario.id1 EmptyString Scenario.clerk))))
     = Some AppointmentStatusCancelled
  /\ map Subject
       (published
          (snd (CancelAppointment Scenario.seeded (Scenario.env 0 Scenario.id2)
                  Scenario.id1 EmptyString Scenario.clerk)))
     = [SubjectAppointmentCancelled].
Proof. vm_compute. repeat split. Qed.

(** C9 (as amended). Cancelling an appointment that is already Cancelled is
    neither refused nor a no-op: the call succeeds, the status stays
    Cancelled, the cancellation time and reason are overwritten with those
    of the new call, and another appointment-cancelled event is handed to
    the bus if it is connected. *)
Theorem cancel_again_repeats_side_effects w e id reason cancelledBy a :
  firstAppointment id (appointments w) = Some a ->
  Status a = AppointmentStatusCancelled ->
  exists a' w',
    CancelAppointment w e id reason cancelledBy = (None, w')
    /\ firstAppointment id (appointments w') = Some a'
    /\ Status a' = AppointmentStatusCancelled
    /\ CancelledAt a' = Some (now e)
    /\ CancellationReason a' = reason
    /\ published w'
       = (published w
            ++ (if natsConnected w
                then [ {| Subject := SubjectAppointmentCancelled;
                          Payload := [("appointment_id", VString id);
                                      ("patient_id", VString (PatientID a));
                                      ("provider_id", VString (ProviderID a));
                                      ("reason", VString reason);
                                      ("cancelled_by", VString cancelledBy)] |} ]
                else []))%list.
Proof.
  intros Hf _.
  destruct (CancelAppointment_found w e id reason cancelledBy a Hf) as [a' [w' H]].
  exists a', w'. tauto.
Qed.

(** The seeded, already cancelled APT-004 is cancelled once more. *)
Lemma cancel_again_repeats_side_effects_witness :
  exists a' w',
    CancelAppointment Scenario.seeded (Scenario.env 0 Scenario.id1)
      Scenario.id2 EmptyString Scenario.clerk = (None, w')
    /\ firstAppointment Scenario.id2 (appointments w') = Some a'
    /\ Status a' = AppointmentStatusCancelled
    /\ CancelledAt a' = Some (now (Scenario.env 0 Scenario.id1))
    /\ CancellationReason a' = EmptyString
    /\ published w'
       = (published Scenario.seeded
            ++ (if natsConnected Scenario.seeded
                then [ {| Subject := SubjectAppointmentCancelled;
                          Payload :=
                            [("appointment_id", VString Scenario.id2);
                             ("patient_id", VString (PatientID Scenario.seededCancelled));
                             ("provider_id", VString (ProviderID Scenario.seededCancelled));
                             ("reason", VString EmptyString);
                             ("cancelled_by", VString Scenario.clerk)] |} ]
                else []))%list.
Proof.
  apply (cancel_again_repeats_side_effects
           Scenario.seeded (Scenario.env 0 Scenario.id1) Scenario.id2 EmptyString
           Scenario.clerk Scenario.seededCancelled).
  - vm_compute. reflexivity.
  - reflexivity.
Defined.

(** C9 fails as stated: the booking cancelled at 07:30 is cancelled again at
    07:45.  The second call reports success, the stored row changes (its
    cancellation time and reason are replaced), and the bus receives a
    second appointment-cancelled event. *)
Lemma cancel_again_reemits_event :
  option_map Status
    (firstAppointment Scenario.id1 (appointments Scenario.cancelledOnce))
  = Some AppointmentStatusCancelled
  /\ fst Scenario.cancelAgain = None
  /\ appointments (snd Scenario.cancelAgain) <> appointments Scenario.cancelledOnce
  /\ map Subject (published Scenario.cancelledOnce)
     = [SubjectAppointmentBooked; SubjectAppointmentCancelled]
  /\ map Subject (published (snd Scenario.cancelAgain))
     = [SubjectAppointmentBooked; SubjectAppointmentCancelled;
        SubjectAppointmentCancelled].
Proof. vm_compute. repeat split. discriminate. Qed.

(** ** Check-in *)

Lemma CheckInAppointment_found w e id a :
  firstAppointment id (appointments w) = Some a ->
  exists a' w',
    CheckInAppointment w e id = (None, w')
    /\ firstAppointment id (appointments w') = Some a'
    /\ Status a' = AppointmentStatusCheckedIn
    /\ CheckedInAt a' = Some (now e)
    /\ published w' = published w.
Proof.
  intros Hf. destruct (firstAppointment_Some _ _ _ Hf) as [Hid _].
  unfold CheckInAppointment. rewrite Hf.
  rewrite (dbSave_loaded w e id a) by (try exact Hf; reflexivity).
  eexists. eexists. split; [reflexivity |]. simpl.
  split; [apply firstAppointment_replaced with (a := a); [exact Hid | exact Hf] |].
  repeat split.
Qed.

(** C6 (as amended). [CheckInAppointment] does not look at the current
    status.  For an appointment that exists, whatever its status, it
    succeeds and sets the status to CheckedIn and the checked-in time to
    now; for an unknown id it returns the not-found error and changes
    nothing. *)
Theorem checkin_ignores_current_status w e id :
  match firstAppointment id (appointments w) with
  | None =>
      CheckInAppointment w e id = (Some (EApp (ErrAppointmentNotFound id)), w)
  | Some a =>
      exists a' w',
        CheckInAppointment w e id = (None, w')
        /\ firstAppointment id (appointments w') = Some a'
        /\ Status a' = AppointmentStatusCheckedIn
        /\ CheckedInAt a' = Some (now e)
  end.
Proof.
  destruct (firstAppointment id (appointments w)) as [a |] eqn:Hf.
  - destruct (CheckInAppointment_found w e id a Hf) as [a' [w' H]].
    exists a', w'. tauto.
  - unfold CheckInAppointment. now rewrite Hf.
Qed.

(** C6 fails as stated: the seeded appointment APT-004 is Cancelled, neither
    Scheduled nor Confirmed, yet checking it in is accepted and stores it as
    CheckedIn; so is checking in the Completed APT-003. *)
Lemma checkin_cancelled_is_accepted :
  option_map Status
    (firstAppointment Scenario.id2 (appointments Scenario.seeded))
  = Some AppointmentStatusCancelled
  /\ fst (CheckInAppointment Scenario.seeded (Scenario.env 0 Scenario.id1)
            Scenario.id2) = None
  /\ option_map Status
       (firstAppointment Scenario.id2
          (appointments
             (snd (CheckInAppointment Scenario.seeded (Scenario.env 0 Scenario.id1)
                     Scenario.id2))))
     = Some AppointmentStatusCheckedIn
  /\ fst (CheckInAppointment Scenario.seeded (Scenario.env 0 Scenario.id2)
            Scenario.id1) = None.
Proof. vm_compute. repeat split. Qed.

(** ** Encounter lifecycle *)

Lemma firstEncounter_Some id tbl enc :
  firstEncounter id tbl = Some enc -> EncID enc = id /\ In enc tbl.
Proof.
  unfold firstEncounter. intros H. apply find_some in H as [Hin Hid].
  apply uuid_eqb_eq in Hid. now split.
Qed.

Lemma firstEncounter_replaced id enc' tbl enc :
  EncID enc' = id ->
  firstEncounter id tbl = Some enc ->
  firstEncounter id (map (fun b => if uuid_eqb (EncID b) id then enc' else b) tbl)
  = Some enc'.
Proof.
  intros Hid. unfold firstEncounter.
  induction tbl as [| b r IH]; simpl; [discriminate |].
  destruct (uuid_eqb (EncID b) id) eqn:E.
  - intros _. now rewrite Hid, uuid_eqb_refl.
  - rewrite E. exact IH.
Qed.

Lemma UpdateEncounter_found w e id status updatedBy enc :
  firstEncounter id (encounters w) = Some enc ->
  fitsStatusColumn status = true ->
  exists enc' w',
    UpdateEncounter w e id status updatedBy = (inr enc', w')
    /\ firstEncounter id (encounters w') = Some enc'
    /\ EncStatus enc' = status
    /\ EncUpdatedBy enc' = updatedBy
    /\ AdmissionDate enc' = AdmissionDate enc
    /\ DischargeDate enc'
       = (if String.eqb status EncounterStatusCompleted
          then Some (now e) else DischargeDate enc)
    /\ published w'
       = (published w
            ++ (if natsConnected w
                then [ {| Subject := SubjectEncounterUpdated;
                          Payload := [("encounter_id", VString id);
                                      ("status", VString status);
                                      ("updated_by", VString updatedBy)] |} ]
                else []))%list.
Proof.
  intros Hf Hfit. destruct (firstEncounter_Some _ _ _ Hf) as [Hid _].
  unfold UpdateEncounter, dbSaveEncounter. rewrite Hf. cbv zeta.
  simpl EncStatus. rewrite Hfit. simpl negb. cbv iota. simpl EncID.
  eexists. eexists. split; [reflexivity |].
  rewrite encounters_Publish, published_Publish. simpl. rewrite Hid.
  split; [apply firstEncounter_replaced with (enc := enc); [reflexivity | exact Hf] |].
  repeat split.
Qed.


(** C7 (as amended). For an encounter that exists, updating its status to
    Completed succeeds, stores the status Completed and sets the discharge
    time to the current time, leaving the admission time as it was; the
    discharge time is therefore at or after the admission time whenever the
    admission time is not in the future.  Invoking it with Completed again
    succeeds again and replaces the discharge time by the time of that
    call. *)
Theorem complete_sets_discharge_to_now w e id updatedBy enc :
  firstEncounter id (encounters w) = Some enc ->
  exists enc' w',
    UpdateEncounter w e id EncounterStatusCompleted updatedBy = (inr enc', w')
    /\ firstEncounter id (encounters w') = Some enc'
    /\ EncStatus enc' = EncounterStatusCompleted
    /\ DischargeDate enc' = Some (now e)
    /\ AdmissionDate enc' = AdmissionDate enc
    /\ (AdmissionDate enc <= now e ->
        exists d, DischargeDate enc' = Some d /\ d >= AdmissionDate enc')
    /\ (forall e2 updatedBy2,
          exists enc2 w2,
            UpdateEncounter w' e2 id EncounterStatusCompleted updatedBy2
            = (inr enc2, w2)
            /\ EncStatus enc2 = EncounterStatusCompleted
            /\ DischargeDate enc2 = Some (now e2)).
Proof.
  intros Hf.
  destruct (UpdateEncounter_found w e id EncounterStatusCompleted updatedBy enc Hf
              eq_refl)
    as [enc' [w' [Hu [Hs [Hst [_ [Ha [Hd _]]]]]]]].
  simpl in Hd.
  exists enc', w'. repeat split; try assumption.
  - intros Hle. exists (now e). split; [exact Hd | rewrite Ha; lia].
  - intros e2 updatedBy2.
    destruct (UpdateEncounter_found w' e2 id EncounterStatusCompleted updatedBy2 enc' Hs
                eq_refl)
      as [enc2 [w2 [Hu2 [_ [Hst2 [_ [_ [Hd2 _]]]]]]]].
    exists enc2, w2. repeat split; assumption.
Qed.

(** The encounter registered for 14:00 is completed at 15:00. *)
Lemma complete_sets_discharge_to_now_witness :
  exists enc' w',
    UpdateEncounter Scenario.registeredFor1400
      {| now := Scenario.at_ 15 0; hookNow := Scenario.at_ 15 0 + 1;
         newID := Scenario.id2; databaseErrorDetails := None |}
      Scenario.id1 EncounterStatusCompleted Scenario.drA = (inr enc', w')
    /\ firstEncounter Scenario.id1 (encounters w') = Some enc'
    /\ EncStatus enc' = EncounterStatusCompleted
    /\ DischargeDate enc' = Some (Scenario.at_ 15 0)
    /\ AdmissionDate enc' = Scenario.at_ 14 0
    /\ (Scenario.at_ 14 0 <= Scenario.at_ 15 0 ->
        exists d, DischargeDate enc' = Some d /\ d >= AdmissionDate enc')
    /\ (forall e2 updatedBy2,
          exists enc2 w2,
            UpdateEncounter w' e2 Scenario.id1 EncounterStatusCompleted updatedBy2
            = (inr enc2, w2)
            /\ EncStatus enc2 = EncounterStatusCompleted
            /\ DischargeDate enc2 = Some (now e2)).
Proof.
  apply (complete_sets_discharge_to_now
           Scenario.registeredFor1400
           {| now := Scenario.at_ 15 0; hookNow := Scenario.at_ 15 0 + 1;
              newID := Scenario.id2; databaseErrorDetails := None |}
           Scenario.id1 Scenario.drA Scenario.registeredRow).
  vm_compute. reflexivity.
Defined.

(** C7 fails as stated: an encounter registered for an admission at 14:00
    and completed at 09:00 of the same day is stored as Completed with a
    discharge time before its admission time. *)
Lemma complete_before_admission :
  firstEncounter Scenario.id1 (encounters Scenario.registeredFor1400)
  = Some Scenario.registeredRow
  /\ option_map (fun enc => (EncStatus enc, AdmissionDate enc, DischargeDate enc))
       (firstEncounter Scenario.id1 (encounters (snd Scenario.completedEarly)))
     = Some (EncounterStatusCompleted, Scenario.at_ 14 0, Some (Scenario.at_ 9 0))
  /\ Scenario.at_ 9 0 < Scenario.at_ 14 0.
Proof. vm_compute. repeat split. Qed.



(** ** Stored intervals *)

Lemma wrap64_small z : - 2 ^ 63 <= z < 2 ^ 63 -> wrap64 z = z.
Proof.
  intros H. unfold wrap64. rewrite Z.mod_small; lia.
Qed.

(** A duration of 153722868 minutes no longer fits: the product wraps to
    a negative number of nanoseconds. *)
Example mulDuration_wraps :
  mulDuration 153722867 Minute = 9223372020000000000
  /\ mulDuration 153722868 Minute = -9223371993709551616.
Proof. vm_compute. split; reflexivity. Qed.

Example generateAppointmentNumber_format :
  generateAppointmentNumber
    {| now := 1705302000123456789; hookNow := 0; newID := uuid_Nil;
       databaseErrorDetails := None |}
  = "APT123456789".
Proof. vm_compute. reflexivity. Qed.

Lemma createCheck_endTime w req endTime :
  createCheck w req = inr endTime ->
  endTime = ReqStartTime req + wrap64 (ReqDuration req * Minute).
Proof.
  unfold createCheck.
  destruct (firstRow (ReqPatientID req) (patients w)); [| discriminate].
  destruct (firstRow (ReqProviderID req) (users w)); [| discriminate].
  destruct (isProviderAvailable w _ _ _); simpl; [| discriminate].
  now intros [= <-].
Qed.

Lemma createWrite_inr w e req createdBy endTime a w' :
  createWrite w e req createdBy endTime = (inr a, w') ->
  appointments w' = (appointments w ++ [a])%list
  /\ StartTime a = ReqStartTime req
  /\ EndTime a = endTime
  /\ Duration_ a = ReqDuration req
  /\ ProviderID a = ReqProviderID req
  /\ Status a = AppointmentStatusScheduled.
Proof.
  unfold createWrite, dbCreate.
  destruct (uniqueViolation _ _); [discriminate |].
  destruct (negb (fkHolds w None _)); [discriminate |].
  intros [= <- <-]. rewrite appointments_Publish. simpl. repeat split.
Qed.

Lemma updateCheck_inr w id req a endTime :
  updateCheck w id req = inr (a, endTime) ->
  firstAppointment id (appointments w) = Some a
  /\ endTime = ReqStartTime req + wrap64 (ReqDuration req * Minute).
Proof.
  unfold updateCheck.
  destruct (firstAppointment id (appointments w)) as [a0 |]; [| discriminate].
  destruct (isProviderAvailableExcept w _ _ _ id); simpl; [| discriminate].
  intros [= <- <-]. now split.
Qed.

Lemma updateWrite_inr w e req updatedBy id a0 endTime a w' :
  firstAppointment id (appointments w) = Some a0 ->
  updateWrite w e req updatedBy a0 endTime = (inr a, w') ->
  appointments w'
  = map (fun b => if uuid_eqb (ID b) id then a else b) (appointments w)
  /\ ID a = id
  /\ StartTime a = ReqStartTime req
  /\ EndTime a = endTime
  /\ Duration_ a = ReqDuration req
  /\ ProviderID a = ReqProviderID req
  /\ Status a = Status a0.
Proof.
  intros Hf. destruct (firstAppointment_Some _ _ _ Hf) as [Hid _].
  unfold updateWrite, dbSave. simpl ID. rewrite Hid, Hf.
  destruct (negb (fkHolds w (Some a0) _)); [discriminate |].
  intros [= <- <-]. simpl. repeat split.
Qed.

Lemma In_replaced id a tbl a0 :
  firstAppointment id tbl = Some a0 ->
  In a (map (fun b => if uuid_eqb (ID b) id then a else b) tbl).
Proof.
  intros Hf. destruct (firstAppointment_Some _ _ _ Hf) as [Hid Hin].
  apply in_map_iff. exists a0. split; [| exact Hin].
  now rewrite Hid, uuid_eqb_refl.
Qed.

Lemma stored_interval (start finish duration : Z) :
  finish = start + wrap64 (duration * Minute) ->
  - 2 ^ 63 <= duration * Minute < 2 ^ 63 ->
  finish - start = duration * Minute /\ (start < finish <-> 0 < duration).
Proof.
  intros -> Hr. rewrite wrap64_small by exact Hr.
  unfold Minute, Second. lia.
Qed.

(** C8 (as amended). The service does not validate the interval.  Whenever
    [CreateAppointment] or [UpdateAppointment] succeeds, the stored
    appointment has the requested start, the requested duration, and the end
    obtained by adding that many minutes to the start in wrapping 64-bit
    nanoseconds; so, for a duration whose nanosecond count fits in 64 bits,
    [end - start] is the duration in minutes, and [start < end] holds
    exactly when the duration is positive.  Neither operation ever returns a
    validation error. *)
Theorem interval_stored_without_validation :
  (forall w e req createdBy a w',
      CreateAppointment w e req createdBy = (inr a, w') ->
      In a (appointments w')
      /\ StartTime a = ReqStartTime req
      /\ Duration_ a = ReqDuration req
      /\ EndTime a = StartTime a + wrap64 (Duration_ a * Minute)
      /\ (- 2 ^ 63 <= Duration_ a * Minute < 2 ^ 63 ->
          EndTime a - StartTime a = Duration_ a * Minute
          /\ (StartTime a < EndTime a <-> 0 < Duration_ a)))
  /\ (forall w e id req updatedBy a w',
         UpdateAppointment w e id req updatedBy = (inr a, w') ->
         In a (appointments w')
         /\ StartTime a = ReqStartTime req
         /\ Duration_ a = ReqDuration req
         /\ EndTime a = StartTime a + wrap64 (Duration_ a * Minute)
         /\ (- 2 ^ 63 <= Duration_ a * Minute < 2 ^ 63 ->
             EndTime a - StartTime a = Duration_ a * Minute
             /\ (StartTime a < EndTime a <-> 0 < Duration_ a)))
  /\ (forall w e req createdBy err,
         fst (CreateAppointment w e req createdBy) = inl err ->
         isValidation err = false)
  /\ (forall w e id req updatedBy err,
         fst (UpdateAppointment w e id req updatedBy) = inl err ->
         isValidation err = false).
Proof.
  split; [| split; [| split]].
  - intros w e req createdBy a w'. unfold CreateAppointment.
    destruct (createCheck w req) as [err | endTime] eqn:Hc; [discriminate |].
    intros Hw. apply createCheck_endTime in Hc.
    apply createWrite_inr in Hw as [Ht [Hs [He [Hd _]]]].
    assert (Hend : EndTime a = StartTime a + wrap64 (Duration_ a * Minute))
      by (rewrite He, Hs, Hd; exact Hc).
    split; [rewrite Ht; apply in_or_app; right; now left |].
    repeat (split; [assumption |]).
    now apply stored_interval.
  - intros w e id req updatedBy a w'. unfold UpdateAppointment.
    destruct (updateCheck w id req) as [err | [a0 endTime]] eqn:Hc; [discriminate |].
    intros Hw. apply updateCheck_inr in Hc as [Hf Hc].
    apply (updateWrite_inr _ _ _ _ id _ _ _ _ Hf) in Hw as [Ht [_ [Hs [He [Hd _]]]]].
    assert (Hend : EndTime a = StartTime a + wrap64 (Duration_ a * Minute))
      by (rewrite He, Hs, Hd; exact Hc).
    split; [rewrite Ht; now apply In_replaced with (a0 := a0) |].
    repeat (split; [assumption |]).
    now apply stored_interval.
  - intros w e req createdBy err. unfold CreateAppointment, createCheck.
    destruct (firstRow (ReqPatientID req) (patients w)); [| now intros [= <-]].
    destruct (firstRow (ReqProviderID req) (users w)); [| now intros [= <-]].
    destruct (isProviderAvailable w _ _ _); simpl; [| now intros [= <-]].
    unfold createWrite. destruct (dbCreate w e _) as [msg | [a w']]; simpl.
    + now intros [= <-].
    + discriminate.
  - intros w e id req updatedBy err. unfold UpdateAppointment, updateCheck.
    destruct (firstAppointment id (appointments w)) as [a0 |]; [| now intros [= <-]].
    destruct (isProviderAvailableExcept w _ _ _ id); simpl; [| now intros [= <-]].
    unfold updateWrite. destruct (dbSave w e _) as [msg | [a w']]; simpl.
    + intros [= <-]. unfold currentDatabaseError.
      now destruct (databaseErrorDetails e).
    + discriminate.
Qed.

(** The 09:00 booking of thirty minutes, as stored. *)
Lemma interval_stored_without_validation_witness :
  CreateAppointment Scenario.empty (Scenario.env 1 Scenario.id1)
    (Scenario.request (Scenario.at_ 9 0) 30) Scenario.clerk
  = (inr Scenario.bookedRow, Scenario.booked0900)
  /\ In Scenario.bookedRow (appointments Scenario.booked0900)
  /\ EndTime Scenario.bookedRow - StartTime Scenario.bookedRow
     = Duration_ Scenario.bookedRow * Minute
  /\ (StartTime Scenario.bookedRow < EndTime Scenario.bookedRow
      <-> 0 < Duration_ Scenario.bookedRow).
Proof.
  assert (H : CreateAppointment Scenario.empty (Scenario.env 1 Scenario.id1)
                (Scenario.request (Scenario.at_ 9 0) 30) Scenario.clerk
              = (inr Scenario.bookedRow, Scenario.booked0900))
    by (vm_compute; reflexivity).
  split; [exact H |].
  destruct (proj1 interval_stored_without_validation _ _ _ _ _ _ H)
    as [Hin [_ [_ [_ Hr]]]].
  split; [exact Hin |].
  apply Hr. vm_compute. split; [discriminate | reflexivity].
Defined.

(** C8 fails as stated: a request for 09:00 with a duration of -30 minutes
    is not refused.  It is stored with start 09:00 and end 08:30, so the
    table holds an appointment whose end is before its start. *)
Lemma negative_duration_is_persisted :
  ReqDuration (Scenario.request (Scenario.at_ 9 0) (-30)) <= 0
  /\ (exists a, fst Scenario.negativeBooking = inr a)
  /\ map (fun a => (StartTime a, EndTime a, Duration_ a))
       (appointments (snd Scenario.negativeBooking))
     = [ (Scenario.at_ 9 0, Scenario.at_ 8 30, -30) ]
  /\ Scenario.at_ 8 30 < Scenario.at_ 9 0.
Proof.
  split; [vm_compute; discriminate |].
  split; [eexists; vm_compute; reflexivity |].
  vm_compute. split; reflexivity.
Qed.

(** ** Concurrent bookings *)

(** A handler that runs alone does what the service function does. *)
Lemma handler_alone_is_CreateAppointment w e req createdBy :
  runSchedule
    (w, [ {| call := CallCreate req createdBy; env_ := e; phase := Arrived |} ])
    [0%nat; 0%nat]
  = (snd (CreateAppointment w e req createdBy),
     [ {| call := CallCreate req createdBy; env_ := e;
          phase := Finished (fst (CreateAppointment w e req createdBy)) |} ]).
Proof.
  unfold runSchedule, CreateAppointment. simpl.
  unfold stepSystem at 2. simpl. unfold stepHandler at 1. simpl.
  destruct (createCheck w req) as [err | endTime]; simpl.
  - reflexivity.
  - unfold stepSystem. simpl. unfold stepHandler. simpl.
    now destruct (createWrite w e req createdBy endTime).
Qed.

Lemma handler_alone_is_UpdateAppointment w e id req updatedBy :
  runSchedule
    (w, [ {| call := CallUpdate id req updatedBy; env_ := e; phase := Arrived |} ])
    [0%nat; 0%nat]
  = (snd (UpdateAppointment w e id req updatedBy),
     [ {| call := CallUpdate id req updatedBy; env_ := e;
          phase := Finished (fst (UpdateAppointment w e id req updatedBy)) |} ]).
Proof.
  unfold runSchedule, UpdateAppointment. simpl.
  unfold stepSystem at 2. simpl. unfold stepHandler at 1. simpl.
  destruct (updateCheck w id req) as [err | [a endTime]]; simpl.
  - reflexivity.
  - unfold stepSystem. simpl. unfold stepHandler. simpl.
    now destruct (updateWrite w e req updatedBy a endTime).
Qed.

Lemma doubleBooked_false w :
  doubleBooked w = false
  <-> forall a b, In a (appointments w) -> In b (appointments w) -> clashb a b = false.
Proof.
  unfold doubleBooked. split.
  - intros H a b Ha Hb. destruct (clashb a b) eqn:E; [| reflexivity].
    rewrite <- H. symmetry. apply existsb_exists. exists a. split; [exact Ha |].
    apply existsb_exists. now exists b.
  - intros H. destruct (existsb _ _) eqn:E; [| reflexivity].
    apply existsb_exists in E as [a [Ha E]].
    apply existsb_exists in E as [b [Hb E]].
    now rewrite (H a b Ha Hb) in E.
Qed.

Lemma clashb_true a b :
  clashb a b = true
  <-> ID a <> ID b /\ ProviderID a = ProviderID b
      /\ notCancelled a = true /\ notCancelled b = true
      /\ StartTime a < EndTime b /\ EndTime a > StartTime b.
Proof.
  unfold clashb.
  rewrite !andb_true_iff, negb_true_iff, uuid_eqb_neq, uuid_eqb_eq, Z.ltb_lt, Z.gtb_lt.
  intuition lia.
Qed.

(** Run alone, from a store without double booking, [CreateAppointment]
    leaves the store without double booking. *)
Lemma CreateAppointment_alone_keeps_disjoint w e req createdBy :
  doubleBooked w = false ->
  doubleBooked (snd (CreateAppointment w e req createdBy)) = false.
Proof.
  intros Hw. unfold CreateAppointment.
  destruct (createCheck w req) as [err | endTime] eqn:Hc; [exact Hw |].
  destruct (createWrite w e req createdBy endTime) as [[err | a] w'] eqn:Hcw.
  - unfold createWrite in Hcw.
    destruct (dbCreate w e _) as [msg | [a w1]]; [| discriminate].
    injection Hcw as _ <-. exact Hw.
  - simpl. apply createWrite_inr in Hcw as [Ht [Hs [He [_ [Hp _]]]]].
    assert (Hav : isProviderAvailable w (ReqProviderID req) (ReqStartTime req) endTime = true).
    { unfold createCheck in Hc.
      destruct (firstRow (ReqPatientID req) (patients w)); [| discriminate].
      destruct (firstRow (ReqProviderID req) (users w)); [| discriminate].
      destruct (isProviderAvailable w _ _ _) eqn:E; simpl in Hc; [| discriminate].
      injection Hc as <-. exact E. }
    assert (Hfree : forall b, In b (appointments w) ->
                              ~ blocks (ReqProviderID req) (ReqStartTime req) endTime b).
    { intros b Hb Hbl.
      assert (isProviderAvailable w (ReqProviderID req) (ReqStartTime req) endTime = false)
        by (apply isProviderAvailable_false; now exists b).
      congruence. }
    rewrite doubleBooked_false in Hw. apply doubleBooked_false.
    intros x y Hx Hy. rewrite Ht in Hx, Hy.
    apply in_app_or in Hx. apply in_app_or in Hy.
    destruct (clashb x y) eqn:E; [exfalso | reflexivity].
    apply clashb_true in E as [Hid [Hpr [Hnx [Hny [H1 H2]]]]].
    apply notCancelled_iff in Hnx. apply notCancelled_iff in Hny.
    destruct Hx as [Hx | [<- | []]]; destruct Hy as [Hy | [<- | []]].
    + specialize (Hw x y Hx Hy).
      assert (clashb x y = true)
        by (apply clashb_true; rewrite !notCancelled_iff; tauto).
      congruence.
    + apply (Hfree x Hx). unfold blocks, overlaps.
      rewrite <- Hp, <- Hs, <- He. repeat split; try assumption; lia.
    + apply (Hfree y Hy). unfold blocks, overlaps.
      rewrite <- Hp, <- Hs, <- He. repeat split; try assumption;
        try (symmetry; assumption); lia.
    + now apply Hid.
Qed.

(** C2, on the code: the conflict query and the insert are two statements
    with nothing that holds other handlers off in between.  Two requests
    for provider [drA], 09:00-09:30 and 09:15-09:45, whose handlers both run
    their conflict query before either inserts, are both admitted and both
    commit: the table ends with two live, overlapping appointments of one
    provider.  Served one after the other, the second request is refused
    with the conflict error.  The same happens when an update that moves a
    booking to 09:00-09:30 races with a create for 09:15-09:45. *)
Theorem concurrent_creates_double_book :
  doubleBooked Scenario.empty = false
  /\ forallb committed
       (snd (runSchedule (Scenario.empty, Scenario.racers)
               [0%nat; 1%nat; 0%nat; 1%nat])) = true
  /\ map (fun a => (ProviderID a, Status a, StartTime a, EndTime a))
       (appointments
          (fst (runSchedule (Scenario.empty, Scenario.racers)
                  [0%nat; 1%nat; 0%nat; 1%nat])))
     = [ (Scenario.drA, AppointmentStatusScheduled,
          Scenario.at_ 9 0, Scenario.at_ 9 30);
         (Scenario.drA, AppointmentStatusScheduled,
          Scenario.at_ 9 15, Scenario.at_ 9 45) ]
  /\ doubleBooked
       (fst (runSchedule (Scenario.empty, Scenario.racers)
               [0%nat; 1%nat; 0%nat; 1%nat])) = true
  /\ map phase
       (snd (runSchedule (Scenario.empty, Scenario.racers)
               [0%nat; 0%nat; 1%nat; 1%nat]))
     = [ Finished (inr Scenario.bookedRow);
         Finished (inl (EApp ErrAppointmentConflict)) ]
  /\ doubleBooked
       (fst (runSchedule (Scenario.empty, Scenario.racers)
               [0%nat; 0%nat; 1%nat; 1%nat])) = false
  /\ doubleBooked Scenario.booked1000 = false
  /\ forallb committed
       (snd (runSchedule (Scenario.booked1000, Scenario.movers)
               [0%nat; 1%nat; 0%nat; 1%nat])) = true
  /\ doubleBooked
       (fst (runSchedule (Scenario.booked1000, Scenario.movers)
               [0%nat; 1%nat; 0%nat; 1%nat])) = true.
Proof. vm_compute. repeat split. Qed.

(** * Further properties of the services *)

(** ** What a call leaves in the store *)

Lemma dbCreate_inr w e a0 a w' :
  dbCreate w e a0 = inr (a, w') ->
  a = BeforeCreate e a0
  /\ uniqueViolation a (appointments w) = false
  /\ w' = setAppointments w (appointments w ++ [a]).
Proof.
  unfold dbCreate.
  destruct (uniqueViolation (BeforeCreate e a0) (appointments w)) eqn:U; [discriminate |].
  destruct (negb (fkHolds w None (BeforeCreate e a0))); [discriminate |].
  intros [= <- <-]. repeat split. exact U.
Qed.

Lemma uniqueViolation_false a tbl :
  uniqueViolation a tbl = false
  <-> forall b, In b tbl -> ID b <> ID a /\ AppointmentNumber b <> AppointmentNumber a.
Proof.
  unfold uniqueViolation. split.
  - intros H b Hb.
    assert (E : uuid_eqb (ID b) (ID a)
                || String.eqb (AppointmentNumber b) (AppointmentNumber a) = false).
    { destruct (uuid_eqb (ID b) (ID a)
                || String.eqb (AppointmentNumber b) (AppointmentNumber a)) eqn:E;
        [| reflexivity].
      rewrite <- H. symmetry. apply existsb_exists. exists b. now split. }
    apply orb_false_iff in E as [E1 E2].
    split; [now apply uuid_eqb_neq | now apply String.eqb_neq].
  - intros H. destruct (existsb _ tbl) eqn:E; [| reflexivity].
    apply existsb_exists in E as [b [Hb E]]. destruct (H b Hb) as [H1 H2].
    apply orb_true_iff in E as [E | E].
    + apply uuid_eqb_eq in E. contradiction.
    + apply String.eqb_eq in E. contradiction.
Qed.

Lemma firstAppointment_app_new a tbl :
  (forall b, In b tbl -> ID b <> ID a) ->
  firstAppointment (ID a) (tbl ++ [a]) = Some a.
Proof.
  intros H. unfold firstAppointment. induction tbl as [| b r IH]; simpl.
  - now rewrite uuid_eqb_refl.
  - destruct (uuid_eqb (ID b) (ID a)) eqn:E.
    + apply uuid_eqb_eq in E. exfalso. apply (H b); [now left | exact E].
    + apply IH. intros c Hc. apply H. now right.
Qed.

Lemma firstAppointment_app_old id a tbl :
  id <> ID a ->
  firstAppointment id (tbl ++ [a]) = firstAppointment id tbl.
Proof.
  intros H. unfold firstAppointment. induction tbl as [| b r IH]; simpl.
  - apply uuid_eqb_neq in H. rewrite String.eqb_sym in H.
    unfold uuid_eqb in *. now rewrite H.
  - destruct (uuid_eqb (ID b) id); [reflexivity | exact IH].
Qed.

Lemma CreateAppointment_inr w e req createdBy a w' :
  CreateAppointment w e req createdBy = (inr a, w') ->
  exists endTime a0,
    createCheck w req = inr endTime
    /\ dbCreate w e a0 = inr (a, setAppointments w (appointments w ++ [a]))
    /\ w' = Publish (setAppointments w (appointments w ++ [a]))
              SubjectAppointmentBooked
              [("appointment_id", VString (ID a));
               ("appointment_number", VString (AppointmentNumber a));
               ("patient_id", VString (PatientID a));
               ("provider_id", VString (ProviderID a));
               ("start_time", VTime (StartTime a));
               ("created_by", VString createdBy)]
    /\ Status a = AppointmentStatusScheduled
    /\ PatientID a = ReqPatientID req
    /\ ProviderID a = ReqProviderID req
    /\ StartTime a = ReqStartTime req
    /\ EndTime a = endTime
    /\ AppointmentNumber a = generateAppointmentNumber e
    /\ ID a = newID e.
Proof.
  unfold CreateAppointment.
  destruct (createCheck w req) as [err | endTime] eqn:Hc; [discriminate |].
  unfold createWrite.
  match goal with |- context [dbCreate w e ?x] => set (a0 := x) end.
  destruct (dbCreate w e a0) as [msg | [a1 w1]] eqn:Hd; [discriminate |].
  intros [= <- <-]. exists endTime, a0.
  destruct (dbCreate_inr _ _ _ _ _ Hd) as [Ha [_ Hw]].
  split; [reflexivity |].
  split; [now rewrite Hd, Hw |].
  split; [now rewrite Hw |].
  rewrite Ha. simpl. rewrite ?uuid_eqb_refl. repeat split.
Qed.

Lemma createCheck_inr w req endTime :
  createCheck w req = inr endTime ->
  (exists p, firstRow (ReqPatientID req) (patients w) = Some p)
  /\ (exists d, firstRow (ReqProviderID req) (users w) = Some d)
  /\ isProviderAvailable w (ReqProviderID req) (ReqStartTime req) endTime = true
  /\ endTime = Add (ReqStartTime req) (mulDuration (ReqDuration req) Minute).
Proof.
  unfold createCheck.
  destruct (firstRow (ReqPatientID req) (patients w)) as [p |]; [| discriminate].
  destruct (firstRow (ReqProviderID req) (users w)) as [d |]; [| discriminate].
  destruct (isProviderAvailable w _ _ _) eqn:E; simpl; [| discriminate].
  intros [= <-]. repeat split; eauto.
Qed.

Lemma patients_Publish w subject data :
  patients (Publish w subject data) = patients w.
Proof. unfold Publish. now destruct (natsConnected w). Qed.

Lemma natsConnected_Publish w subject data :
  natsConnected (Publish w subject data) = natsConnected w.
Proof.
  unfold Publish. destruct (natsConnected w) eqn:E; simpl; congruence.
Qed.

Lemma users_Publish w subject data :
  users (Publish w subject data) = users w.
Proof. unfold Publish. now destruct (natsConnected w). Qed.

(** X1. A created appointment can be read back.  When [CreateAppointment]
    succeeds, the appointment it returns is Scheduled, carries the
    generated identifier and number, and [GetAppointment] on its identifier
    returns exactly that appointment, with the patient and the provider of
    the request loaded. *)
Theorem create_then_get w e req createdBy a w' :
  CreateAppointment w e req createdBy = (inr a, w') ->
  Status a = AppointmentStatusScheduled
  /\ ID a = newID e
  /\ AppointmentNumber a = generateAppointmentNumber e
  /\ exists p d,
       GetAppointment w' (ID a)
       = inr {| Row := a; LoadedPatient := Some p; LoadedProvider := Some d |}
       /\ RowID p = ReqPatientID req
       /\ RowID d = ReqProviderID req.
Proof.
  intros H. apply CreateAppointment_inr in H
    as [endTime [a0 [Hc [Hd [-> [Hs [Hp [Hpr [_ [_ [Hn Hid]]]]]]]]]]].
  split; [exact Hs |]. split; [exact Hid |]. split; [exact Hn |].
  apply createCheck_inr in Hc as [[p Hfp] [[d Hfd] _]].
  apply dbCreate_inr in Hd as [_ [Hu _]].
  exists p, d. unfold GetAppointment, preload.
  rewrite appointments_Publish, patients_Publish, users_Publish. simpl.
  rewrite firstAppointment_app_new
    by (intros b Hb; now apply (proj1 (uniqueViolation_false a _) Hu b Hb)).
  rewrite Hp, Hpr, Hfp, Hfd. repeat split.
  - apply find_some in Hfp as [_ E]. apply andb_true_iff in E as [E _].
    now apply uuid_eqb_eq.
  - apply find_some in Hfd as [_ E]. apply andb_true_iff in E as [E _].
    now apply uuid_eqb_eq.
Qed.

(** The 09:00 booking of the worked scenario, read back. *)
Lemma create_then_get_witness :
  Status Scenario.bookedRow = AppointmentStatusScheduled
  /\ ID Scenario.bookedRow = Scenario.id1
  /\ AppointmentNumber Scenario.bookedRow = "APT1"
  /\ exists p d,
       GetAppointment Scenario.booked0900 (ID Scenario.bookedRow)
       = inr {| Row := Scenario.bookedRow;
                LoadedPatient := Some p; LoadedProvider := Some d |}
       /\ RowID p = Scenario.patA
       /\ RowID d = Scenario.drA.
Proof.
  apply (create_then_get Scenario.empty (Scenario.env 1 Scenario.id1)
           (Scenario.request (Scenario.at_ 9 0) 30) Scenario.clerk
           Scenario.bookedRow Scenario.booked0900).
  vm_compute. reflexivity.
Defined.

Lemma CreateAppointment_inl w e req createdBy err w' :
  CreateAppointment w e req createdBy = (inl err, w') -> w' = w.
Proof.
  unfold CreateAppointment.
  destruct (createCheck w req) as [err0 | endTime]; [now intros [= _ <-] |].
  unfold createWrite. destruct (dbCreate w e _) as [msg | [a w1]].
  - now intros [= _ <-].
  - discriminate.
Qed.

Lemma UpdateAppointment_inl w e id req updatedBy err w' :
  UpdateAppointment w e id req updatedBy = (inl err, w') -> w' = w.
Proof.
  unfold UpdateAppointment.
  destruct (updateCheck w id req) as [err0 | [a endTime]]; [now intros [= _ <-] |].
  unfold updateWrite. destruct (dbSave w e _) as [msg | [a1 w1]].
  - now intros [= _ <-].
  - discriminate.
Qed.

Lemma CancelAppointment_Some w e id reason cancelledBy err w' :
  CancelAppointment w e id reason cancelledBy = (Some err, w') -> w' = w.
Proof.
  unfold CancelAppointment.
  destruct (firstAppointment id (appointments w)) as [a |]; [| now intros [= _ <-]].
  cbv zeta. destruct (dbSave w e _) as [msg | [a1 w1]].
  - now intros [= _ <-].
  - discriminate.
Qed.

Lemma CheckInAppointment_Some w e id err w' :
  CheckInAppointment w e id = (Some err, w') -> w' = w.
Proof.
  unfold CheckInAppointment.
  destruct (firstAppointment id (appointments w)) as [a |]; [| now intros [= _ <-]].
  cbv zeta. destruct (dbSave w e _) as [msg | [a1 w1]].
  - now intros [= _ <-].
  - discriminate.
Qed.

(** X2. A call that fails writes nothing.  Whenever [CreateAppointment],
    [UpdateAppointment], [CancelAppointment] or [CheckInAppointment] returns
    an error, the store and the bus are exactly as before the call: no row
    was added or changed and no event was published. *)
Theorem failed_call_changes_nothing :
  (forall w e req createdBy err w',
      CreateAppointment w e req createdBy = (inl err, w') -> w' = w)
  /\ (forall w e id req updatedBy err w',
         UpdateAppointment w e id req updatedBy = (inl err, w') -> w' = w)
  /\ (forall w e id reason cancelledBy err w',
         CancelAppointment w e id reason cancelledBy = (Some err, w') -> w' = w)
  /\ (forall w e id err w',
         CheckInAppointment w e id = (Some err, w') -> w' = w).
Proof.
  split; [exact CreateAppointment_inl |].
  split; [exact UpdateAppointment_inl |].
  split; [exact CancelAppointment_Some | exact CheckInAppointment_Some].
Qed.

(** The refused 09:15 request of the worked scenario leaves the store as
    it was. *)
Lemma failed_call_changes_nothing_witness :
  snd (CreateAppointment Scenario.booked0900 (Scenario.env 2 Scenario.id2)
         (Scenario.request (Scenario.at_ 9 15) 30) Scenario.clerk)
  = Scenario.booked0900.
Proof.
  apply (proj1 failed_call_changes_nothing
           Scenario.booked0900 (Scenario.env 2 Scenario.id2)
           (Scenario.request (Scenario.at_ 9 15) 30) Scenario.clerk
           (EApp ErrAppointmentConflict)).
  vm_compute. reflexivity.
Defined.

Lemma dbSave_inr w e a1 a' w' :
  dbSave w e a1 = inr (a', w') ->
  a' = BeforeUpdate e a1
  /\ (forall a, firstAppointment (ID a1) (appointments w) = Some a ->
        w' = setAppointments w
               (map (fun b => if uuid_eqb (ID b) (ID a1) then a' else b)
                    (appointments w))).
Proof.
  unfold dbSave.
  destruct (negb (fkHolds w _ _)); [discriminate |].
  destruct (firstAppointment (ID a1) (appointments w)) as [a0 |];
    intros [= <- <-]; (split; [reflexivity |]); intros a Ha;
    [reflexivity | discriminate Ha].
Qed.

Lemma UpdateAppointment_replaces w e id req updatedBy a' w' :
  UpdateAppointment w e id req updatedBy = (inr a', w') -> replacesRow id w w'.
Proof.
  unfold UpdateAppointment.
  destruct (updateCheck w id req) as [err | [a endTime]] eqn:Hc; [discriminate |].
  apply updateCheck_inr in Hc as [Hf _].
  destruct (firstAppointment_Some _ _ _ Hf) as [Hid _].
  unfold updateWrite.
  match goal with |- context [dbSave w e ?x] => set (a1 := x) end.
  destruct (dbSave w e a1) as [msg | [a2 w2]] eqn:Hs; [discriminate |].
  intros [= <- <-]. apply dbSave_inr in Hs as [Ha Hw].
  assert (Hid1 : ID a1 = id) by exact Hid.
  rewrite Hid1 in Hw. specialize (Hw a Hf). subst w2.
  exists a, a2. rewrite Ha. repeat split; try assumption.
Qed.

Lemma CancelAppointment_replaces w e id reason cancelledBy w' :
  CancelAppointment w e id reason cancelledBy = (None, w') -> replacesRow id w w'.
Proof.
  unfold CancelAppointment.
  destruct (firstAppointment id (appointments w)) as [a |] eqn:Hf; [| discriminate].
  destruct (firstAppointment_Some _ _ _ Hf) as [Hid _]. cbv zeta.
  match goal with |- context [dbSave w e ?x] => set (a1 := x) end.
  destruct (dbSave w e a1) as [msg | [a2 w2]] eqn:Hs; [discriminate |].
  intros [= <-]. apply dbSave_inr in Hs as [Ha Hw].
  assert (Hid1 : ID a1 = id) by exact Hid.
  rewrite Hid1 in Hw. specialize (Hw a Hf). subst w2.
  exists a, a2. rewrite Ha.
  rewrite appointments_Publish, patients_Publish, users_Publish, encounters_Publish.
  rewrite natsConnected_Publish.
  repeat split; try assumption.
Qed.

Lemma CheckInAppointment_replaces w e id w' :
  CheckInAppointment w e id = (None, w') -> replacesRow id w w'.
Proof.
  unfold CheckInAppointment.
  destruct (firstAppointment id (appointments w)) as [a |] eqn:Hf; [| discriminate].
  destruct (firstAppointment_Some _ _ _ Hf) as [Hid _]. cbv zeta.
  match goal with |- context [dbSave w e ?x] => set (a1 := x) end.
  destruct (dbSave w e a1) as [msg | [a2 w2]] eqn:Hs; [discriminate |].
  intros [= <-]. apply dbSave_inr in Hs as [Ha Hw].
  assert (Hid1 : ID a1 = id) by exact Hid.
  rewrite Hid1 in Hw. specialize (Hw a Hf). subst w2.
  exists a, a2. rewrite Ha. repeat split; try assumption.
Qed.

Lemma others_after_replace id a' tbl :
  ID a' = id ->
  filter (fun b => negb (uuid_eqb (ID b) id))
    (map (fun b => if uuid_eqb (ID b) id then a' else b) tbl)
  = filter (fun b => negb (uuid_eqb (ID b) id)) tbl.
Proof.
  intros Hid. induction tbl as [| b r IH]; simpl; [reflexivity |].
  destruct (uuid_eqb (ID b) id) eqn:E; simpl.
  - rewrite Hid, uuid_eqb_refl. simpl. exact IH.
  - rewrite E. simpl. now rewrite IH.
Qed.

Lemma first_after_replace id id' a' tbl :
  ID a' = id -> id' <> id ->
  firstAppointment id' (map (fun b => if uuid_eqb (ID b) id then a' else b) tbl)
  = firstAppointment id' tbl.
Proof.
  intros Hid Hne. unfold firstAppointment.
  induction tbl as [| b r IH]; simpl; [reflexivity |].
  destruct (uuid_eqb (ID b) id) eqn:E.
  - apply uuid_eqb_eq in E. rewrite Hid, E.
    apply not_eq_sym in Hne. apply uuid_eqb_neq in Hne. rewrite Hne. exact IH.
  - destruct (uuid_eqb (ID b) id'); [reflexivity | exact IH].
Qed.

Lemma replacesRow_frame id w w' :
  replacesRow id w w' ->
  List.length (appointments w') = List.length (appointments w)
  /\ otherRows id w' = otherRows id w
  /\ (forall id', id' <> id ->
        firstAppointment id' (appointments w')
        = firstAppointment id' (appointments w))
  /\ patients w' = patients w /\ users w' = users w
  /\ encounters w' = encounters w.
Proof.
  intros [a [a' [Hf [Hid [_ [Ht [Hp [Hu [He _]]]]]]]]].
  split; [now rewrite Ht, length_map |].
  split; [unfold otherRows; rewrite Ht; now apply others_after_replace |].
  split; [| tauto].
  intros id' Hne. rewrite Ht. now apply first_after_replace.
Qed.

(** X3. Update, cancel and check-in touch one row.  When
    [UpdateAppointment], [CancelAppointment] or [CheckInAppointment]
    succeeds on appointment [id], the table has as many rows as before,
    every appointment with another identifier is exactly as it was (and
    reads back the same), and the patient, user and encounter tables are
    unchanged. *)
Theorem save_touches_one_row w id w' :
  (exists e req updatedBy a, UpdateAppointment w e id req updatedBy = (inr a, w'))
  \/ (exists e reason cancelledBy,
         CancelAppointment w e id reason cancelledBy = (None, w'))
  \/ (exists e, CheckInAppointment w e id = (None, w')) ->
  List.length (appointments w') = List.length (appointments w)
  /\ otherRows id w' = otherRows id w
  /\ (forall id', id' <> id ->
        firstAppointment id' (appointments w')
        = firstAppointment id' (appointments w))
  /\ patients w' = patients w /\ users w' = users w
  /\ encounters w' = encounters w.
Proof.
  intros H. apply replacesRow_frame.
  destruct H as [[e [req [u [a H]]]] | [[e [r [c H]]] | [e H]]].
  - eapply UpdateAppointment_replaces; exact H.
  - eapply CancelAppointment_replaces; exact H.
  - eapply CheckInAppointment_replaces; exact H.
Qed.

(** Cancelling the seeded APT-004 leaves the seeded APT-003 alone. *)
Lemma save_touches_one_row_witness :
  List.length
    (appointments
       (snd (CancelAppointment Scenario.seeded (Scenario.env 0 Scenario.id1)
               Scenario.id2 EmptyString Scenario.clerk)))
  = List.length (appointments Scenario.seeded)
  /\ otherRows Scenario.id2
       (snd (CancelAppointment Scenario.seeded (Scenario.env 0 Scenario.id1)
               Scenario.id2 EmptyString Scenario.clerk))
     = otherRows Scenario.id2 Scenario.seeded
  /\ (forall id', id' <> Scenario.id2 ->
        firstAppointment id'
          (appointments
             (snd (CancelAppointment Scenario.seeded (Scenario.env 0 Scenario.id1)
                     Scenario.id2 EmptyString Scenario.clerk)))
        = firstAppointment id' (appointments Scenario.seeded))
  /\ patients
       (snd (CancelAppointment Scenario.seeded (Scenario.env 0 Scenario.id1)
               Scenario.id2 EmptyString Scenario.clerk))
     = patients Scenario.seeded
  /\ users
       (snd (CancelAppointment Scenario.seeded (Scenario.env 0 Scenario.id1)
               Scenario.id2 EmptyString Scenario.clerk))
     = users Scenario.seeded
  /\ encounters
       (snd (CancelAppointment Scenario.seeded (Scenario.env 0 Scenario.id1)
               Scenario.id2 EmptyString Scenario.clerk))
     = encounters Scenario.seeded.
Proof.
  apply (save_touches_one_row Scenario.seeded Scenario.id2).
  right. left.
  exists (Scenario.env 0 Scenario.id1), EmptyString, Scenario.clerk.
  vm_compute. reflexivity.
Defined.

(** ** Key uniqueness *)

Lemma NoDup_snoc {A : Type} (l : list A) (x : A) :
  NoDup l -> ~ In x l -> NoDup (l ++ [x]).
Proof.
  induction l as [| y r IH]; simpl; intros Hn Hx.
  - constructor; [intros [] | constructor].
  - inversion Hn as [| ? ? Hy Hr]; subst. constructor.
    + intros Hin. apply in_app_or in Hin as [Hin | [<- | []]]; [now apply Hy |].
      apply Hx. now left.
    + apply IH; [exact Hr | intros Hin; apply Hx; now right].
Qed.

Lemma NoDup_map_injective {A B : Type} (f : A -> B) (l : list A) x y :
  NoDup (map f l) -> In x l -> In y l -> f x = f y -> x = y.
Proof.
  induction l as [| z r IH]; simpl; [intros _ [] |].
  intros Hn Hx Hy Hf. inversion Hn as [| ? ? Hz Hr]; subst.
  destruct Hx as [<- | Hx]; destruct Hy as [<- | Hy]; try reflexivity.
  - exfalso. apply Hz. rewrite Hf. now apply in_map.
  - exfalso. apply Hz. rewrite <- Hf. now apply in_map.
  - now apply IH.
Qed.

Lemma replacesRow_keeps_keys id w w' :
  replacesRow id w w' -> uniqueKeys w -> uniqueKeys w'.
Proof.
  intros [a [a' [Hf [Hid [Hnum [Ht _]]]]]] [Hn1 Hn2].
  destruct (firstAppointment_Some _ _ _ Hf) as [Ha Hin].
  assert (E1 : map ID (appointments w') = map ID (appointments w)).
  { rewrite Ht, map_map. apply map_ext. intros b.
    destruct (uuid_eqb (ID b) id) eqn:E; [| reflexivity].
    apply uuid_eqb_eq in E. congruence. }
  assert (E2 : map AppointmentNumber (appointments w')
               = map AppointmentNumber (appointments w)).
  { rewrite Ht, map_map. apply map_ext_in. intros b Hb.
    destruct (uuid_eqb (ID b) id) eqn:E; [| reflexivity].
    apply uuid_eqb_eq in E.
    assert (b = a) by (apply (NoDup_map_injective ID (appointments w)); congruence).
    congruence. }
  unfold uniqueKeys. now rewrite E1, E2.
Qed.

(** X4. The identifier and the appointment number stay unique.  If no two
    rows of the appointments table share an identifier or an appointment
    number, the same holds after [CreateAppointment], [UpdateAppointment],
    [CancelAppointment] and [CheckInAppointment], whether the call succeeds
    or fails. *)
Theorem keys_stay_unique w :
  uniqueKeys w ->
  (forall e req createdBy, uniqueKeys (snd (CreateAppointment w e req createdBy)))
  /\ (forall e id req updatedBy,
         uniqueKeys (snd (UpdateAppointment w e id req updatedBy)))
  /\ (forall e id reason cancelledBy,
         uniqueKeys (snd (CancelAppointment w e id reason cancelledBy)))
  /\ (forall e id, uniqueKeys (snd (CheckInAppointment w e id))).
Proof.
  intros Hw. split; [| split; [| split]].
  - intros e req createdBy.
    destruct (CreateAppointment w e req createdBy) as [[err | a] w'] eqn:H; simpl.
    + now rewrite (CreateAppointment_inl _ _ _ _ _ _ H).
    + apply CreateAppointment_inr in H as [endTime [a0 [_ [Hd [-> _]]]]].
      apply dbCreate_inr in Hd as [_ [Hu _]].
      rewrite uniqueViolation_false in Hu. destruct Hw as [H1 H2].
      unfold uniqueKeys. rewrite appointments_Publish. simpl.
      rewrite !map_app. simpl. split; apply NoDup_snoc; try assumption.
      * intros Hin. apply in_map_iff in Hin as [b [Hb Hin]].
        now apply (proj1 (Hu b Hin)).
      * intros Hin. apply in_map_iff in Hin as [b [Hb Hin]].
        now apply (proj2 (Hu b Hin)).
  - intros e id req updatedBy.
    destruct (UpdateAppointment w e id req updatedBy) as [[err | a] w'] eqn:H; simpl.
    + now rewrite (UpdateAppointment_inl _ _ _ _ _ _ _ H).
    + apply UpdateAppointment_replaces in H.
      now apply (replacesRow_keeps_keys id w).
  - intros e id reason cancelledBy.
    destruct (CancelAppointment w e id reason cancelledBy) as [[err |] w'] eqn:H; simpl.
    + now rewrite (CancelAppointment_Some _ _ _ _ _ _ _ H).
    + apply CancelAppointment_replaces in H.
      now apply (replacesRow_keeps_keys id w).
  - intros e id.
    destruct (CheckInAppointment w e id) as [[err |] w'] eqn:H; simpl.
    + now rewrite (CheckInAppointment_Some _ _ _ _ _ H).
    + apply CheckInAppointment_replaces in H.
      now apply (replacesRow_keeps_keys id w).
Qed.

(** The seeded table has unique keys, and keeps them. *)
Lemma keys_stay_unique_witness :
  (forall e req createdBy,
      uniqueKeys (snd (CreateAppointment Scenario.seeded e req createdBy)))
  /\ (forall e id req updatedBy,
         uniqueKeys (snd (UpdateAppointment Scenario.seeded e id req updatedBy)))
  /\ (forall e id reason cancelledBy,
         uniqueKeys (snd (CancelAppointment Scenario.seeded e id reason cancelledBy)))
  /\ (forall e id, uniqueKeys (snd (CheckInAppointment Scenario.seeded e id))).
Proof.
  apply (keys_stay_unique Scenario.seeded).
  split; simpl; repeat constructor; simpl; intuition discriminate.
Defined.

(** ** Events *)

(** X5. Which calls publish.  [UpdateAppointment] and [CheckInAppointment]
    never hand anything to the bus, so a rescheduled or checked-in
    appointment is not announced.  [CreateAppointment] hands over exactly one
    [appointment.booked] message, carrying the identifiers, the number and
    the start time of the stored row, when it succeeds and the client is
    connected, and nothing otherwise. *)
Theorem which_calls_publish :
  (forall w e id req updatedBy,
      published (snd (UpdateAppointment w e id req updatedBy)) = published w)
  /\ (forall w e id,
         published (snd (CheckInAppointment w e id)) = published w)
  /\ (forall w e req createdBy,
         published (snd (CreateAppointment w e req createdBy))
         = (published w
              ++ match fst (CreateAppointment w e req createdBy) with
                 | inr a =>
                     if natsConnected w
                     then [ {| Subject := SubjectAppointmentBooked;
                               Payload :=
                                 [("appointment_id", VString (ID a));
                                  ("appointment_number", VString (AppointmentNumber a));
                                  ("patient_id", VString (PatientID a));
                                  ("provider_id", VString (ProviderID a));
                                  ("start_time", VTime (StartTime a));
                                  ("created_by", VString createdBy)] |} ]
                     else []
                 | inl _ => []
                 end)%list).
Proof.
  split; [| split].
  - intros w e id req updatedBy. unfold UpdateAppointment.
    destruct (updateCheck w id req) as [err | [a endTime]]; [reflexivity |].
    unfold updateWrite, dbSave.
    destruct (negb (fkHolds w _ _)); [reflexivity |].
    destruct (firstAppointment _ _); reflexivity.
  - intros w e id. unfold CheckInAppointment.
    destruct (firstAppointment id (appointments w)) as [a |]; [| reflexivity].
    cbv zeta. unfold dbSave.
    destruct (negb (fkHolds w _ _)); [reflexivity |].
    destruct (firstAppointment _ _); reflexivity.
  - intros w e req createdBy.
    destruct (CreateAppointment w e req createdBy) as [[err | a] w'] eqn:H; simpl.
    + rewrite (CreateAppointment_inl _ _ _ _ _ _ H). now rewrite app_nil_r.
    + apply CreateAppointment_inr in H as [endTime [a0 [_ [_ [-> _]]]]].
      now rewrite published_Publish.
Qed.

(** ** Double booking, one call at a time *)

Lemma clashb_sym a b : clashb a b = clashb b a.
Proof.
  unfold clashb, uuid_eqb.
  rewrite (String.eqb_sym (ID a) (ID b)),
    (String.eqb_sym (ProviderID a) (ProviderID b)).
  rewrite !Z.gtb_ltb.
  destruct (negb (ID b =? ID a)%string), (ProviderID b =? ProviderID a)%string,
    (notCancelled a), (notCancelled b),
    (StartTime a <? EndTime b), (StartTime b <? EndTime a); reflexivity.
Qed.

Lemma replace_keeps_disjoint id a' w w' :
  doubleBooked w = false ->
  appointments w'
  = map (fun b => if uuid_eqb (ID b) id then a' else b) (appointments w) ->
  ID a' = id ->
  (forall b, In b (appointments w) -> ID b <> id -> clashb a' b = false) ->
  doubleBooked w' = false.
Proof.
  intros Hw Ht Hid Hfree. rewrite doubleBooked_false in *.
  assert (Hcase : forall x, In x (appointments w') ->
            x = a' \/ (In x (appointments w) /\ ID x <> id)).
  { intros x Hx. rewrite Ht in Hx. apply in_map_iff in Hx as [b [Hb Hin]].
    destruct (uuid_eqb (ID b) id) eqn:E; [left; congruence |].
    right. subst x. split; [exact Hin | now apply uuid_eqb_neq]. }
  intros x y Hx Hy.
  destruct (Hcase x Hx) as [-> | [Hx1 Hx2]];
    destruct (Hcase y Hy) as [-> | [Hy1 Hy2]].
  - unfold clashb. now rewrite uuid_eqb_refl.
  - now apply Hfree.
  - rewrite clashb_sym. now apply Hfree.
  - now apply Hw.
Qed.

(** X6. Served one at a time, bookings, updates and cancellations keep
    providers free of double booking.  From a table in which no two live
    appointments of one provider overlap, [CreateAppointment],
    [UpdateAppointment] and [CancelAppointment] lead to a table with the
    same property, whether they succeed or fail. *)
Theorem served_alone_keeps_disjoint w :
  doubleBooked w = false ->
  (forall e req createdBy,
      doubleBooked (snd (CreateAppointment w e req createdBy)) = false)
  /\ (forall e id req updatedBy,
         doubleBooked (snd (UpdateAppointment w e id req updatedBy)) = false)
  /\ (forall e id reason cancelledBy,
         doubleBooked (snd (CancelAppointment w e id reason cancelledBy)) = false).
Proof.
  intros Hw. split.
  { intros e req createdBy. now apply CreateAppointment_alone_keeps_disjoint. }
  split.
  - intros e id req updatedBy.
    destruct (UpdateAppointment w e id req updatedBy) as [[err | a'] w'] eqn:H; simpl.
    + now rewrite (UpdateAppointment_inl _ _ _ _ _ _ _ H).
    + unfold UpdateAppointment in H.
      destruct (updateCheck w id req) as [err | [a endTime]] eqn:Hc; [discriminate |].
      assert (Hav : isProviderAvailableExcept w (ReqProviderID req)
                      (ReqStartTime req) endTime id = true).
      { unfold updateCheck in Hc.
        destruct (firstAppointment id (appointments w)); [| discriminate].
        destruct (isProviderAvailableExcept w _ _ _ id) eqn:E; simpl in Hc;
          [| discriminate].
        injection Hc as _ <-. exact E. }
      apply updateCheck_inr in Hc as [Hf _].
      apply (updateWrite_inr _ _ _ _ id _ _ _ _ Hf) in H
        as [Ht [Hid [Hs [He [_ [Hp _]]]]]].
      apply (replace_keeps_disjoint id a' w w' Hw Ht Hid).
      intros b Hb Hne. destruct (clashb a' b) eqn:E; [exfalso | reflexivity].
      apply clashb_true in E as [_ [Hpr [_ [Hnb [H1 H2]]]]].
      assert (isProviderAvailableExcept w (ReqProviderID req)
                (ReqStartTime req) endTime id = false); [| congruence].
      apply isProviderAvailableExcept_false. exists b.
      split; [exact Hb |]. split; [exact Hne |].
      unfold blocks, overlaps. apply notCancelled_iff in Hnb.
      rewrite <- Hp, <- Hs, <- He. repeat split; try congruence; lia.
  - intros e id reason cancelledBy.
    destruct (CancelAppointment w e id reason cancelledBy) as [[err |] w'] eqn:H; simpl.
    + now rewrite (CancelAppointment_Some _ _ _ _ _ _ _ H).
    + destruct (firstAppointment id (appointments w)) as [a |] eqn:Hf.
      * destruct (CancelAppointment_found w e id reason cancelledBy a Hf)
          as [a' [w1 [Hc [Hf' [Hst _]]]]].
        rewrite H in Hc. injection Hc as <-.
        apply CancelAppointment_replaces in H
          as [a0 [a1 [Hf0 [Hid [_ [Ht _]]]]]].
        assert (a1 = a').
        { rewrite Ht in Hf'.
          rewrite (firstAppointment_replaced id a1 _ a0 Hid Hf0) in Hf'. congruence. }
        subst a1.
        apply (replace_keeps_disjoint id a' w w' Hw Ht Hid).
        intros b _ _. unfold clashb, notCancelled. rewrite Hst. simpl.
        now rewrite !andb_false_r.
      * unfold CancelAppointment in H. rewrite Hf in H. discriminate.
Qed.

(** Any one call served on the table that holds the 10:00 booking. *)
Lemma served_alone_keeps_disjoint_witness :
  (forall e req createdBy,
      doubleBooked (snd (CreateAppointment Scenario.booked1000 e req createdBy))
      = false)
  /\ (forall e id req updatedBy,
         doubleBooked (snd (UpdateAppointment Scenario.booked1000 e id req updatedBy))
         = false)
  /\ (forall e id reason cancelledBy,
         doubleBooked
           (snd (CancelAppointment Scenario.booked1000 e id reason cancelledBy))
         = false).
Proof.
  apply (served_alone_keeps_disjoint Scenario.booked1000).
  vm_compute. reflexivity.
Defined.

Lemma CheckInAppointment_shape w e id a :
  firstAppointment id (appointments w) = Some a ->
  exists a',
    CheckInAppointment w e id
    = (None,
       setAppointments w
         (map (fun b => if uuid_eqb (ID b) id then a' else b) (appointments w)))
    /\ ID a' = id
    /\ Status a' = AppointmentStatusCheckedIn
    /\ StartTime a' = StartTime a /\ EndTime a' = EndTime a
    /\ ProviderID a' = ProviderID a.
Proof.
  intros Hf. destruct (firstAppointment_Some _ _ _ Hf) as [Hid _].
  unfold CheckInAppointment. rewrite Hf.
  rewrite (dbSave_loaded w e id a) by (try exact Hf; reflexivity).
  eexists. split; [reflexivity |]. simpl. repeat split. exact Hid.
Qed.

(** X7. Check-in can bring a cancelled booking back over a newer one.  If
    a cancelled appointment overlaps a live appointment of the same
    provider, which the conflict guard allows, then checking the cancelled
    one in succeeds and leaves the provider double-booked. *)
Theorem checkin_of_cancelled_double_books w e id a b :
  firstAppointment id (appointments w) = Some a ->
  Status a = AppointmentStatusCancelled ->
  In b (appointments w) ->
  ID b <> id ->
  ProviderID b = ProviderID a ->
  Status b <> AppointmentStatusCancelled ->
  StartTime a < EndTime b -> EndTime a > StartTime b ->
  fst (CheckInAppointment w e id) = None
  /\ doubleBooked (snd (CheckInAppointment w e id)) = true.
Proof.
  intros Hf _ Hb Hne Hp Hlive H1 H2.
  destruct (CheckInAppointment_shape w e id a Hf)
    as [a' [-> [Hid [Hst [Hs' [He' Hp']]]]]].
  simpl. split; [reflexivity |].
  unfold doubleBooked. simpl. apply existsb_exists. exists a'. split.
  - now apply In_replaced with (a0 := a).
  - apply existsb_exists. exists b. split.
    + apply in_map_iff. exists b. split; [| exact Hb].
      apply uuid_eqb_neq in Hne. now rewrite Hne.
    + apply clashb_true. rewrite Hs', He', Hp', Hid.
      repeat split; try congruence; try lia.
      * unfold notCancelled. now rewrite Hst.
      * now apply notCancelled_iff.
Qed.

(** The cancelled 09:00 booking is checked in after the slot was booked
    again. *)
Lemma checkin_of_cancelled_double_books_witness :
  doubleBooked Cases.rebooked = false
  /\ fst (CheckInAppointment Cases.rebooked (Scenario.env 3 Scenario.id1)
            Scenario.id1) = None
  /\ doubleBooked
       (snd (CheckInAppointment Cases.rebooked (Scenario.env 3 Scenario.id1)
               Scenario.id1)) = true.
Proof.
  split; [vm_compute; reflexivity |].
  eapply (checkin_of_cancelled_double_books
            Cases.rebooked (Scenario.env 3 Scenario.id1) Scenario.id1).
  - vm_compute. reflexivity.
  - reflexivity.
  - vm_compute. right. left. reflexivity.
  - vm_compute. discriminate.
  - reflexivity.
  - vm_compute. discriminate.
  - vm_compute. reflexivity.
  - vm_compute. reflexivity.
Defined.

(** ** Appointment numbers *)

Lemma generateAppointmentNumber_same e1 e2 :
  Z.rem (now e2) 1000000000 = Z.rem (now e1) 1000000000 ->
  generateAppointmentNumber e2 = generateAppointmentNumber e1.
Proof. unfold generateAppointmentNumber. now intros ->. Qed.

(** X8. Appointment numbers repeat every second.  The number is built
    from the sub-second part of the clock only, so once an appointment was
    created, a later request whose clock reading has the same nanosecond
    fraction, and which passes the lookups and the conflict guard, fails
    with the database error (unique-key violation) and stores nothing. *)
Theorem same_fraction_of_a_second_collides w e1 req1 by1 a w1 e2 req2 by2 endTime :
  CreateAppointment w e1 req1 by1 = (inr a, w1) ->
  Z.rem (now e2) 1000000000 = Z.rem (now e1) 1000000000 ->
  createCheck w1 req2 = inr endTime ->
  exists details,
    CreateAppointment w1 e2 req2 by2
    = (inl (EApp (WithDetails ErrDatabaseError details)), w1).
Proof.
  intros H1 Hrem Hc.
  apply CreateAppointment_inr in H1
    as [_ [_ [_ [_ [Hw [_ [_ [_ [_ [_ [Hn _]]]]]]]]]]].
  unfold CreateAppointment. rewrite Hc. unfold createWrite, dbCreate.
  match goal with |- context [uniqueViolation ?x ?t] =>
    assert (Hu : uniqueViolation x t = true) end.
  { apply existsb_exists. exists a. split.
    - rewrite Hw, appointments_Publish. simpl. apply in_or_app. right. now left.
    - apply orb_true_iff. right. simpl.
      rewrite (generateAppointmentNumber_same e1 e2 Hrem), Hn.
      apply String.eqb_refl. }
  rewrite Hu. eexists. reflexivity.
Qed.

(** A second booking, for 11:00, exactly one second after the first. *)
Lemma same_fraction_of_a_second_collides_witness :
  exists details,
    CreateAppointment Scenario.booked0900 Cases.oneSecondLater
      (Scenario.request (Scenario.at_ 11 0) 30) Scenario.clerk
    = (inl (EApp (WithDetails ErrDatabaseError details)), Scenario.booked0900).
Proof.
  eapply (same_fraction_of_a_second_collides
            Scenario.empty (Scenario.env 1 Scenario.id1)
            (Scenario.request (Scenario.at_ 9 0) 30) Scenario.clerk
            Scenario.bookedRow Scenario.booked0900 Cases.oneSecondLater).
  - vm_compute. reflexivity.
  - vm_compute. reflexivity.
  - vm_compute. reflexivity.
Defined.

(** ** Availability and the conflict guard together *)

Lemma GetProviderAvailability_inr w providerID date loc slots :
  GetProviderAvailability w providerID date loc = inr slots ->
  slots
  = map (nthSlot
           (orderByStartTime
              (filter (onDay providerID (DateOfDay date 0 loc)
                         (Add (DateOfDay date 0 loc) (24 * Hour)))
                 (appointments w)))
           (DateOfDay date 8 loc))
        (seq 0 18).
Proof.
  intros Hget.
  assert (Hu : firstRow providerID (users w) <> None).
  { unfold GetProviderAvailability in Hget.
    destruct (firstRow providerID (users w)); [discriminate | discriminate Hget]. }
  rewrite (GetProviderAvailability_closed w providerID date loc Hu) in Hget.
  apply (f_equal (fun r => match r with inr l => l | inl _ => [] end)) in Hget.
  cbv beta iota in Hget. now symmetry.
Qed.

Lemma slot_flag w providerID date loc slots s :
  GetProviderAvailability w providerID date loc = inr slots ->
  In s slots ->
  SlotEndTime s = SlotStartTime s + slotDuration
  /\ (Available s = false
      <-> exists a, In a (appointments w)
            /\ onDay providerID (DateOfDay date 0 loc)
                 (Add (DateOfDay date 0 loc) (24 * Hour)) a = true
            /\ meetsSlot s a).
Proof.
  intros Hget Hin. apply GetProviderAvailability_inr in Hget. subst slots.
  apply in_map_iff in Hin as [i [<- _]]. split; [reflexivity |].
  unfold nthSlot, meetsSlot. simpl Available. simpl SlotStartTime. simpl SlotEndTime.
  rewrite slotIsAvailable_false.
  split; intros [a [Ha H]]; exists a.
  - apply In_orderByStartTime, filter_In in Ha. tauto.
  - split; [| tauto]. apply In_orderByStartTime, filter_In. tauto.
Qed.

(** X9. A slot shown as unavailable cannot be booked.  If
    [GetProviderAvailability] flags a slot of a provider unavailable, then
    [CreateAppointment] for that provider over any interval that contains
    the slot, by a patient that exists, is refused with the conflict error
    and stores nothing. *)
Theorem unavailable_slot_is_refused w providerID date loc slots s e req createdBy :
  GetProviderAvailability w providerID date loc = inr slots ->
  In s slots ->
  Available s = false ->
  ReqProviderID req = providerID ->
  firstRow (ReqPatientID req) (patients w) <> None ->
  ReqStartTime req <= SlotStartTime s ->
  SlotEndTime s <= ReqStartTime req + mulDuration (ReqDuration req) Minute ->
  CreateAppointment w e req createdBy = (inl (EApp ErrAppointmentConflict), w).
Proof.
  intros Hget Hin Hav Hp Hpat Hs He.
  assert (Hu : firstRow providerID (users w) <> None).
  { unfold GetProviderAvailability in Hget.
    destruct (firstRow providerID (users w)); [discriminate | discriminate Hget]. }
  destruct (slot_flag _ _ _ _ _ _ Hget Hin) as [_ Hflag].
  apply Hflag in Hav as [a [Ha [Hday [Hm1 Hm2]]]].
  apply onDay_iff in Hday as [Hpa [_ Hlive]].
  assert (Hc : createCheck w req = inl (EApp ErrAppointmentConflict)).
  { apply createCheck_conflict. rewrite Hp. repeat split; try assumption.
    apply isProviderAvailable_false. exists a. split; [exact Ha |].
    unfold blocks, overlaps, Add. repeat split; try assumption; lia. }
  unfold CreateAppointment. now rewrite Hc.
Qed.

(** The 10:00 slot against the 10:00 booking, asked for again. *)
Lemma unavailable_slot_is_refused_witness :
  CreateAppointment Scenario.booked1000 (Scenario.env 2 Scenario.id2)
    (Scenario.request (Scenario.at_ 10 0) 30) Scenario.clerk
  = (inl (EApp ErrAppointmentConflict), Scenario.booked1000).
Proof.
  apply (unavailable_slot_is_refused
           Scenario.booked1000 Scenario.drA (Scenario.at_ 13 37) UTC
           (map (nthSlot (appointments Scenario.booked1000) (Scenario.at_ 8 0))
                (seq 0 18))
           (nthSlot (appointments Scenario.booked1000) (Scenario.at_ 8 0) 4)).
  - vm_compute. reflexivity.
  - apply in_map, in_seq. lia.
  - vm_compute. reflexivity.
  - reflexivity.
  - vm_compute. discriminate.
  - vm_compute. discriminate.
  - vm_compute. discriminate.
Defined.

(** X10. A slot shown as available can be booked, as long as every live
    appointment of the provider starts on the day asked for.  Under that
    condition, if [GetProviderAvailability] flags a slot available, the
    conflict guard admits any interval inside the slot, and
    [CreateAppointment] for it does not return the conflict error. *)
Theorem available_slot_is_admitted w providerID date loc slots s e req createdBy :
  GetProviderAvailability w providerID date loc = inr slots ->
  In s slots ->
  Available s = true ->
  (forall a, In a (appointments w) -> ProviderID a = providerID ->
             Status a <> AppointmentStatusCancelled ->
             DateOfDay date 0 loc <= StartTime a < DateOfDay date 0 loc + 24 * Hour) ->
  ReqProviderID req = providerID ->
  SlotStartTime s <= ReqStartTime req ->
  ReqStartTime req + mulDuration (ReqDuration req) Minute <= SlotEndTime s ->
  isProviderAvailable w providerID (ReqStartTime req)
    (ReqStartTime req + mulDuration (ReqDuration req) Minute) = true
  /\ fst (CreateAppointment w e req createdBy) <> inl (EApp ErrAppointmentConflict).
Proof.
  intros Hget Hin Hav Hall Hp Hs He.
  destruct (slot_flag _ _ _ _ _ _ Hget Hin) as [_ Hflag].
  assert (Hfree : isProviderAvailable w providerID (ReqStartTime req)
                    (ReqStartTime req + mulDuration (ReqDuration req) Minute) = true).
  { destruct (isProviderAvailable w providerID _ _) eqn:E; [reflexivity | exfalso].
    apply isProviderAvailable_false in E as [a [Ha [Hpa [Hlive [Ho1 Ho2]]]]].
    assert (Available s = false); [| congruence].
    apply Hflag. exists a. split; [exact Ha |]. split.
    - apply onDay_iff. unfold Add. pose proof (Hall a Ha Hpa Hlive). tauto.
    - unfold meetsSlot. lia. }
  split; [exact Hfree |].
  rewrite CreateAppointment_conflict, createCheck_conflict.
  intros [_ [_ H]]. unfold Add in H. rewrite Hp in H. congruence.
Qed.

(** The 09:00 slot, free while only 10:00 is booked. *)
Lemma available_slot_is_admitted_witness :
  isProviderAvailable Scenario.booked1000 Scenario.drA (Scenario.at_ 9 0)
    (Scenario.at_ 9 0 + mulDuration 30 Minute) = true
  /\ fst (CreateAppointment Scenario.booked1000 (Scenario.env 2 Scenario.id2)
            (Scenario.request (Scenario.at_ 9 0) 30) Scenario.clerk)
     <> inl (EApp ErrAppointmentConflict).
Proof.
  apply (available_slot_is_admitted
           Scenario.booked1000 Scenario.drA (Scenario.at_ 13 37) UTC
           (map (nthSlot (appointments Scenario.booked1000) (Scenario.at_ 8 0))
                (seq 0 18))
           (nthSlot (appointments Scenario.booked1000) (Scenario.at_ 8 0) 2)
           (Scenario.env 2 Scenario.id2)
           (Scenario.request (Scenario.at_ 9 0) 30) Scenario.clerk).
  - vm_compute. reflexivity.
  - apply in_map, in_seq. lia.
  - vm_compute. reflexivity.
  - intros a [<- | []] _ _. vm_compute. split; [discriminate | reflexivity].
  - reflexivity.
  - vm_compute. discriminate.
  - vm_compute. discriminate.
Defined.

Lemma slot_starts_in_working_window w providerID date loc slots s :
  GetProviderAvailability w providerID date loc = inr slots ->
  In s slots ->
  DateOfDay date 8 loc <= SlotStartTime s < DateOfDay date 17 loc.
Proof.
  intros Hget Hin. apply GetProviderAvailability_inr in Hget. subst slots.
  apply in_map_iff in Hin as [i [<- Hi]]. apply in_seq in Hi. simpl.
  rewrite working_window. unfold slotDuration, Minute, Second. lia.
Qed.

(** X11. A booking that started the day before is invisible to the
    availability calculator.  The calculator fetches only appointments
    whose start lies on the day asked for; so when a live appointment of
    the provider started before that day and is still running in a slot
    that no same-day appointment meets, the slot is shown as available,
    while [CreateAppointment] for exactly that slot is refused with the
    conflict error. *)
Theorem overnight_booking_is_not_shown
        w providerID date loc slots s a e req createdBy :
  GetProviderAvailability w providerID date loc = inr slots ->
  In s slots ->
  In a (appointments w) ->
  ProviderID a = providerID ->
  Status a <> AppointmentStatusCancelled ->
  StartTime a < DateOfDay date 0 loc ->
  SlotStartTime s < EndTime a ->
  (forall b, In b (appointments w) ->
             onDay providerID (DateOfDay date 0 loc)
               (Add (DateOfDay date 0 loc) (24 * Hour)) b = true ->
             ~ meetsSlot s b) ->
  ReqProviderID req = providerID ->
  firstRow (ReqPatientID req) (patients w) <> None ->
  ReqStartTime req = SlotStartTime s ->
  ReqDuration req = 30 ->
  Available s = true
  /\ CreateAppointment w e req createdBy = (inl (EApp ErrAppointmentConflict), w).
Proof.
  intros Hget Hin Ha Hpa Hlive Hbefore Hrun Hnone Hp Hpat Hs Hd.
  assert (Hu : firstRow providerID (users w) <> None).
  { unfold GetProviderAvailability in Hget.
    destruct (firstRow providerID (users w)); [discriminate | discriminate Hget]. }
  destruct (slot_flag _ _ _ _ _ _ Hget Hin) as [_ Hflag].
  pose proof (slot_starts_in_working_window _ _ _ _ _ _ Hget Hin) as Hwin.
  split.
  - destruct (Available s) eqn:E; [reflexivity | exfalso].
    destruct (proj1 Hflag eq_refl) as [b [Hb [Hday Hm]]].
    now apply (Hnone b Hb Hday).
  - assert (Hc : createCheck w req = inl (EApp ErrAppointmentConflict)).
    { apply createCheck_conflict. rewrite Hp. repeat split; try assumption.
      apply isProviderAvailable_false. exists a. split; [exact Ha |].
      unfold blocks, overlaps, Add. rewrite Hs, Hd.
      change (mulDuration 30 Minute) with 1800000000000.
      assert (DateOfDay date 0 loc <= DateOfDay date 8 loc)
        by (unfold DateOfDay, Hour, Minute, Second; lia).
      repeat split; try assumption; lia. }
    unfold CreateAppointment. now rewrite Hc.
Qed.

(** The 08:00 slot of the day, with the overnight booking in the table. *)
Lemma overnight_booking_is_not_shown_witness :
  Available (nthSlot [] (Scenario.at_ 8 0) 0) = true
  /\ CreateAppointment Overnight.world (Scenario.env 2 Scenario.id2)
       (Scenario.request (Scenario.at_ 8 0) 30) Scenario.clerk
     = (inl (EApp ErrAppointmentConflict), Overnight.world).
Proof.
  apply (overnight_booking_is_not_shown
           Overnight.world Scenario.drA (Scenario.at_ 13 37) UTC
           (map (nthSlot [] (Scenario.at_ 8 0)) (seq 0 18))
           (nthSlot [] (Scenario.at_ 8 0) 0)
           Overnight.row).
  - vm_compute. reflexivity.
  - apply in_map, in_seq. lia.
  - vm_compute. left. reflexivity.
  - reflexivity.
  - vm_compute. discriminate.
  - vm_compute. reflexivity.
  - vm_compute. reflexivity.
  - intros b [<- | []] H. vm_compute in H. discriminate H.
  - reflexivity.
  - vm_compute. discriminate.
  - reflexivity.
  - reflexivity.
Defined.

(** ** Listing and paging *)

Lemma length_insertByStartTime a l :
  List.length (insertByStartTime a l) = S (List.length l).
Proof.
  induction l as [| b r IH]; simpl; [reflexivity |].
  destruct (StartTime a <? StartTime b); simpl; [reflexivity | now rewrite IH].
Qed.

Lemma length_orderByStartTime l :
  List.length (orderByStartTime l) = List.length l.
Proof.
  induction l as [| b r IH]; simpl; [reflexivity |].
  now rewrite length_insertByStartTime, IH.
Qed.



Lemma sorted_skipn {A : Type} (R : A -> A -> Prop) n l :
  StronglySorted R l -> StronglySorted R (skipn n l).
Proof.
  revert l. induction n as [| n IH]; intros l Hs; [exact Hs |].
  destruct l as [| x r]; [constructor |]. simpl. apply IH.
  now inversion Hs.
Qed.

Lemma In_firstn {A : Type} (x : A) n l : In x (firstn n l) -> In x l.
Proof.
  intros H. rewrite <- (firstn_skipn n l). apply in_or_app. now left.
Qed.

Lemma sorted_firstn {A : Type} (R : A -> A -> Prop) n l :
  StronglySorted R l -> StronglySorted R (firstn n l).
Proof.
  revert l. induction n as [| n IH]; intros l Hs; [constructor |].
  destruct l as [| x r]; [constructor |]. simpl.
  inversion Hs as [| ? ? Hr Hx]; subst. constructor; [now apply IH |].
  apply Forall_forall. intros y Hy.
  apply (proj1 (Forall_forall _ _) Hx). now apply In_firstn in Hy.
Qed.

Lemma sorted_map {A B : Type} (f : A -> B) (R : B -> B -> Prop) l :
  StronglySorted (fun x y => R (f x) (f y)) l -> StronglySorted R (map f l).
Proof.
  induction 1 as [| x r Hr IH Hx]; simpl; constructor; [exact IH |].
  apply Forall_forall. intros y Hy. apply in_map_iff in Hy as [z [<- Hz]].
  now apply (proj1 (Forall_forall _ _) Hx).
Qed.

Lemma In_Limit_Offset {A : Type} (x : A) n k l :
  In x (Limit n (Offset k l)) -> In x l.
Proof.
  unfold Limit, Offset. intros H.
  assert (H1 : In x (if 0 <? k then skipn (Z.to_nat k) l else l)).
  { destruct (n <? 0); [exact H |].
    rewrite <- (firstn_skipn (Z.to_nat n)). apply in_or_app. now left. }
  destruct (0 <? k); [| exact H1].
  rewrite <- (firstn_skipn (Z.to_nat k) l). apply in_or_app. now right.
Qed.


Lemma length_Limit_Offset {A : Type} n k (l : list A) :
  0 <= n ->
  Z.of_nat (List.length (Limit n (Offset k l)))
  = Z.min n (Z.max 0 (Z.of_nat (List.length l) - Z.max 0 k)).
Proof.
  intros Hn. unfold Limit, Offset.
  replace (n <? 0) with false by (symmetry; apply Z.ltb_ge; lia).
  rewrite length_firstn.
  destruct (0 <? k) eqn:E.
  - apply Z.ltb_lt in E. rewrite length_skipn. lia.
  - apply Z.ltb_ge in E. lia.
Qed.

Lemma Offset_nonpos {A : Type} k (l : list A) : k <= 0 -> Offset k l = l.
Proof.
  intros Hk. unfold Offset.
  now replace (0 <? k) with false by (symmetry; apply Z.ltb_ge; lia).
Qed.

(** The offset of a page as the services compute it, [(page - 1) *
    pageSize] in 64-bit arithmetic, is the exact product as long as that
    product stays below [2^63]. *)
Lemma offset_exact page pageSize :
  1 <= page -> 1 <= pageSize -> (page - 1) * pageSize < 2 ^ 63 ->
  wrap64 (wrap64 (page - 1) * pageSize) = (page - 1) * pageSize.
Proof.
  intros Hp Hs Hov.
  assert (page - 1 <= (page - 1) * pageSize) by nia.
  assert (0 <= (page - 1) * pageSize) by nia.
  assert (0 < 2 ^ 63) by reflexivity.
  rewrite (wrap64_small (page - 1)) by lia. apply wrap64_small. lia.
Qed.



Lemma digitOf_range c d : digitOf c = Some d -> 0 <= d <= 9.
Proof.
  unfold digitOf.
  destruct ((48 <=? Z.of_N (N_of_ascii c)) && (Z.of_N (N_of_ascii c) <=? 57)) eqn:E;
    [| discriminate].
  apply andb_true_iff in E as [E1 E2]. apply Z.leb_le in E1, E2.
  intros [= <-]. lia.
Qed.

Lemma wrap64_range z : - 2 ^ 63 <= wrap64 z <= 2 ^ 63 - 1.
Proof.
  unfold wrap64.
  assert (H : 2 ^ 64 = 2 * 2 ^ 63) by reflexivity.
  assert (0 < 2 ^ 63) by reflexivity.
  pose proof (Z.mod_pos_bound (z + 2 ^ 63) (2 ^ 64) ltac:(lia)). lia.
Qed.

Lemma atoiLoop_range s : forall n m,
  - 2 ^ 63 <= n <= 2 ^ 63 - 1 -> atoiLoop n s = Some m ->
  - 2 ^ 63 <= m <= 2 ^ 63 - 1.
Proof.
  induction s as [| c r IH]; simpl; intros n m Hn.
  - now intros [= <-].
  - destruct ((Z.of_N (N_of_ascii c) - 48) mod 256 >? 9); [discriminate |].
    apply IH. apply wrap64_range.
Qed.

Lemma ParseInt_range s : - 2 ^ 63 <= fst (ParseInt s) <= 2 ^ 63 - 1.
Proof.
  assert (H63 : 0 < 2 ^ 63) by reflexivity.
  unfold ParseInt. destruct s as [| c rest]; [simpl; lia |].
  destruct (if Ascii.eqb c "+" then (false, rest)
            else if Ascii.eqb c "-" then (true, rest)
            else (false, String c rest)) as [neg digits].
  destruct (ParseUint digits) as [un [[|] |]]; [simpl; lia | |];
    (destruct (negb neg && (un >=? 2 ^ 63)); [simpl; lia |];
     destruct (neg && (un >? 2 ^ 63)); [simpl; lia |];
     cbn [fst]; destruct neg; apply wrap64_range).
Qed.

Lemma Atoi_range s : - 2 ^ 63 <= fst (Atoi s) <= 2 ^ 63 - 1.
Proof.
  assert (H63 : 0 < 2 ^ 63) by reflexivity.
  unfold Atoi.
  destruct ((0 <? Z.of_nat (String.length s))
            && (Z.of_nat (String.length s) <? 19)).
  - destruct s as [| s0 rest]; [simpl; lia |]. cbv zeta.
    destruct (_ && _); [simpl; lia |].
    destruct (atoiLoop 0 _) as [n |] eqn:E; [| simpl; lia].
    apply atoiLoop_range in E; [| lia].
    cbn [fst]. destruct (Ascii.eqb s0 "-"); [apply wrap64_range | exact E].
  - pose proof (ParseInt_range s) as H.
    destruct (ParseInt s) as [i64 err]. exact H.
Qed.

Lemma list_page_rows_of_first w page pageSize patientID providerID status date :
  (1 <= page -> 1 <= pageSize -> (page - 1) * pageSize < 2 ^ 63 ->
   wrap64 (wrap64 (page - 1) * pageSize) = (page - 1) * pageSize)
  /\ (wrap64 (wrap64 (page - 1) * pageSize) <= 0 ->
      fst (ListAppointments w page pageSize patientID providerID status date)
      = fst (ListAppointments w 1 pageSize patientID providerID status date)).
Proof.
  split; [apply offset_exact |].
  intros Hoff. unfold ListAppointments. cbn [fst].
  rewrite (Offset_nonpos _ _ Hoff).
  replace (wrap64 (wrap64 (1 - 1) * pageSize)) with 0 by reflexivity.
  now rewrite (Offset_nonpos 0) by lia.
Qed.

Lemma ListAppointments_count w page pageSize patientID providerID status date :
  1 <= pageSize ->
  Z.of_nat (List.length
              (fst (ListAppointments w page pageSize patientID providerID status date)))
  = Z.min pageSize
      (Z.max 0
         (snd (ListAppointments w page pageSize patientID providerID status date)
          - Z.max 0 (wrap64 (wrap64 (page - 1) * pageSize)))).
Proof.
  intros Hs. unfold ListAppointments. cbn [fst snd].
  rewrite length_map, length_Limit_Offset by lia.
  now rewrite length_orderByStartTime.
Qed.

Lemma listPaging_bounds pageParam pageSizeParam :
  1 <= fst (listPaging pageParam pageSizeParam) <= 2 ^ 63 - 1
  /\ 1 <= snd (listPaging pageParam pageSizeParam) <= 100.
Proof.
  unfold listPaging. cbn [fst snd].
  pose proof (Atoi_range (DefaultQuery pageParam "1")) as H1.
  set (p := fst (Atoi (DefaultQuery pageParam "1"))) in *.
  set (q := fst (Atoi (DefaultQuery pageSizeParam "20"))) in *.
  assert (0 < 2 ^ 63) by reflexivity.
  split.
  - destruct (Z.ltb_spec p 1); lia.
  - destruct (Z.ltb_spec q 1); cbn [orb]; [lia |].
    rewrite Z.gtb_ltb. destruct (Z.ltb_spec 100 q); lia.
Qed.

Lemma totalPages_ceiling total pageSize :
  0 <= total < 2 ^ 62 -> 1 <= pageSize <= 100 ->
  (totalPages total pageSize - 1) * pageSize < total
  <= totalPages total pageSize * pageSize.
Proof.
  intros Ht Hs. unfold totalPages.
  assert (H62 : 2 ^ 62 = 4611686018427387904) by reflexivity.
  assert (H63 : 2 ^ 63 = 9223372036854775808) by reflexivity.
  rewrite (wrap64_small (total + pageSize)) by lia.
  rewrite wrap64_small by lia.
  rewrite Z.quot_div_nonneg by lia.
  pose proof (Z.mul_div_le (total + pageSize - 1) pageSize ltac:(lia)).
  pose proof (Z.mul_succ_div_gt (total + pageSize - 1) pageSize ltac:(lia)).
  nia.
Qed.

(** X13. The page count of the handler against the pages of the service,
    on a table of fewer than [2^62] appointments.  Whatever the [page] and
    [page_size] parameters hold (absent, not a number, out of range), the
    handler asks the service for a page number between 1 and [2^63 - 1] and
    a page size between 1 and 100.  The
    [total_pages] it reports is the least number of pages of that size that
    hold [total] rows; every page before it is full and the page with that
    number holds at least one row.  A page after it is empty as long as
    [(page - 1) * page_size] stays below [2^63].  The handler puts no upper
    bound on [page]: beyond that the offset wraps around, and when the
    wrapped offset is not positive the handler answers with the rows of
    page 1. *)
Theorem handler_pages_match_service
        w pageParam pageSizeParam patientID providerID status date :
  Z.of_nat (List.length (appointments w)) < 2 ^ 62 ->
  let page := fst (listPaging pageParam pageSizeParam) in
  let pageSize := snd (listPaging pageParam pageSizeParam) in
  let rows :=
    fst (ListAppointments w page pageSize patientID providerID status date) in
  let total :=
    snd (ListAppointments w page pageSize patientID providerID status date) in
  let pages := totalPages total pageSize in
  1 <= page <= 2 ^ 63 - 1 /\ 1 <= pageSize <= 100
  /\ (pages - 1) * pageSize < total <= pages * pageSize
  /\ (page < pages -> Z.of_nat (List.length rows) = pageSize)
  /\ (page = pages -> 1 <= Z.of_nat (List.length rows) <= pageSize)
  /\ (pages < page -> (page - 1) * pageSize < 2 ^ 63 -> rows = [])
  /\ (wrap64 ((page - 1) * pageSize) <= 0 ->
      rows = fst (ListAppointments w 1 pageSize patientID providerID status date)).
Proof.
  intros Hsize. cbv zeta.
  destruct (listPaging_bounds pageParam pageSizeParam) as [Hp Hs].
  set (page := fst (listPaging pageParam pageSizeParam)) in *.
  set (pageSize := snd (listPaging pageParam pageSizeParam)) in *.
  assert (Htot : 0 <= snd (ListAppointments w page pageSize patientID providerID
                              status date) < 2 ^ 62).
  { unfold ListAppointments, Count. cbn [snd].
    pose proof (filter_length_le (listFilter patientID providerID status date)
                  (appointments w)).
    lia. }
  pose proof (totalPages_ceiling _ _ Htot Hs) as Hceil.
  pose proof (ListAppointments_count w page pageSize patientID providerID status date
                ltac:(lia)) as Hcount.
  destruct (list_page_rows_of_first w page pageSize patientID providerID status date)
    as [Hexact Hfirst].
  set (total := snd (ListAppointments w page pageSize patientID providerID status date))
    in *.
  set (pages := totalPages total pageSize) in *.
  set (rows := fst (ListAppointments w page pageSize patientID providerID status date))
    in *.
  assert (H62 : 2 ^ 62 = 4611686018427387904) by reflexivity.
  assert (H63 : 2 ^ 63 = 9223372036854775808) by reflexivity.
  split; [lia |]. split; [lia |]. split; [exact Hceil |].
  split; [| split; [| split]].
  - intros Hlt. rewrite Hcount, Hexact by nia. nia.
  - intros Heq. rewrite Hcount, Hexact by nia. nia.
  - intros Hgt Hov. rewrite Hexact in Hcount by lia.
    assert (Z.of_nat (List.length rows) = 0) by nia.
    destruct rows; [reflexivity | simpl in *; lia].
  - intros Hoff. apply Hfirst.
    now rewrite (wrap64_small (page - 1)) by lia.
Qed.

(** The seeded table, asked for page 7 of size 0, which is page 7 of size
    20, and for page 9223372036854775807 of size 20, which is answered with
    the rows of page 1. *)
Lemma handler_pages_match_service_witness :
  (1 <= fst (listPaging (Some "7") (Some "0")) <= 2 ^ 63 - 1
   /\ 1 <= snd (listPaging (Some "7") (Some "0")) <= 100
   /\ fst (ListAppointments Scenario.seeded
             (fst (listPaging (Some "7") (Some "0")))
             (snd (listPaging (Some "7") (Some "0")))
             None None None None) = [])
  /\ listPaging (Some "9223372036854775807") (Some "20") = (9223372036854775807, 20)
  /\ fst (ListAppointments Scenario.seeded
            (fst (listPaging (Some "9223372036854775807") (Some "20")))
            (snd (listPaging (Some "9223372036854775807") (Some "20")))
            None None None None)
     = fst (ListAppointments Scenario.seeded 1
              (snd (listPaging (Some "9223372036854775807") (Some "20")))
              None None None None).
Proof.
  assert (Hsize : Z.of_nat (List.length (appointments Scenario.seeded)) < 2 ^ 62)
    by (vm_compute; reflexivity).
  pose proof (handler_pages_match_service Scenario.seeded
                (Some "7") (Some "0") None None None None Hsize) as H.
  pose proof (handler_pages_match_service Scenario.seeded
                (Some "9223372036854775807") (Some "20") None None None None Hsize)
    as H'.
  cbv zeta in H, H'.
  destruct H as [H1 [H2 [_ [_ [_ [H3 _]]]]]].
  destruct H' as [_ [_ [_ [_ [_ [_ H4]]]]]].
  split; [split; [exact H1 | split; [exact H2 |]] |].
  - apply H3; vm_compute; reflexivity.
  - split; [vm_compute; reflexivity |]. apply H4. vm_compute. discriminate.
Defined.

(** ** Package [config]: the string helpers *)

Lemma bytesOf_string_of_list l : bytesOf (string_of_list_ascii l) = l.
Proof. apply list_ascii_of_string_of_list_ascii. Qed.

Lemma dropBlanks_split l :
  exists pre, l = (pre ++ dropBlanks l)%list /\ Forall (fun c => isBlank c = true) pre.
Proof.
  induction l as [| c r [pre [Hl Hp]]]; simpl.
  - exists []. split; [reflexivity | constructor].
  - destruct (isBlank c) eqn:E.
    + exists (c :: pre). split; [simpl; now rewrite <- Hl | now constructor].
    + exists []. split; [reflexivity | constructor].
Qed.

Lemma dropBlanks_head l c r : dropBlanks l = c :: r -> isBlank c = false.
Proof.
  induction l as [| d l IH]; simpl; [discriminate |].
  destruct (isBlank d) eqn:E; [exact IH |]. now intros [= <- _].
Qed.

Lemma dropBlanks_fixed c r : isBlank c = false -> dropBlanks (c :: r) = c :: r.
Proof. simpl. now intros ->. Qed.

Lemma trimSpace_bytes s :
  exists pre suf,
    bytesOf s = (pre ++ bytesOf (trimSpace s) ++ suf)%list
    /\ Forall (fun c => isBlank c = true) pre
    /\ Forall (fun c => isBlank c = true) suf
    /\ dropBlanks (bytesOf s) = (bytesOf (trimSpace s) ++ suf)%list.
Proof.
  unfold trimSpace. rewrite bytesOf_string_of_list.
  destruct (dropBlanks_split (bytesOf s)) as [pre [Hl Hp]].
  destruct (dropBlanks_split (rev (dropBlanks (bytesOf s)))) as [suf [Hr Hs]].
  exists pre, (rev suf).
  assert (Hm : dropBlanks (bytesOf s)
               = (rev (dropBlanks (rev (dropBlanks (bytesOf s)))) ++ rev suf)%list).
  { rewrite <- rev_app_distr, <- Hr. now rewrite rev_involutive. }
  split; [now rewrite <- Hm |].
  split; [exact Hp |]. split; [| exact Hm].
  apply Forall_rev. exact Hs.
Qed.

(** X14. What [trimSpace] removes.  The result is the input without a
    leading and a trailing run of spaces, tabs and newlines: what is cut off
    at either end consists of these three bytes only, the result neither
    starts nor ends with one of them, and trimming twice is the same as
    trimming once. *)
Theorem trimSpace_cuts_blank_ends s :
  (exists pre suf,
      bytesOf s = (pre ++ bytesOf (trimSpace s) ++ suf)%list
      /\ Forall (fun c => isBlank c = true) pre
      /\ Forall (fun c => isBlank c = true) suf)
  /\ (forall c rest, bytesOf (trimSpace s) = c :: rest -> isBlank c = false)
  /\ (forall front c, bytesOf (trimSpace s) = (front ++ [c])%list -> isBlank c = false)
  /\ trimSpace (trimSpace s) = trimSpace s.
Proof.
  destruct (trimSpace_bytes s) as [pre [suf [Hl [Hp [Hs Hm]]]]].
  assert (Hlast : forall front c,
             bytesOf (trimSpace s) = (front ++ [c])%list -> isBlank c = false).
  { intros front c H. unfold trimSpace in H. rewrite bytesOf_string_of_list in H.
    apply (f_equal (@rev ascii)) in H.
    rewrite rev_involutive, rev_app_distr in H. simpl in H.
    now apply dropBlanks_head in H. }
  assert (Hfirst : forall c rest,
             bytesOf (trimSpace s) = c :: rest -> isBlank c = false).
  { intros c rest H. rewrite H in Hm. simpl in Hm. now apply dropBlanks_head in Hm. }
  split; [exists pre, suf; tauto |].
  split; [exact Hfirst |]. split; [exact Hlast |].
  transitivity (string_of_list_ascii (bytesOf (trimSpace s)));
    [| apply string_of_list_ascii_of_string].
  unfold trimSpace at 1. f_equal.
  destruct (bytesOf (trimSpace s)) as [| c rest] eqn:E; [reflexivity |].
  rewrite (dropBlanks_fixed c rest (Hfirst c rest eq_refl)).
  destruct (rev (c :: rest)) as [| d front] eqn:Er.
  - apply (f_equal (@List.length ascii)) in Er. rewrite length_rev in Er. discriminate.
  - assert (Hd : isBlank d = false).
    { apply (Hlast (rev front) d).
      rewrite <- (rev_involutive (c :: rest)), Er. reflexivity. }
    now rewrite (dropBlanks_fixed d front Hd), <- Er, rev_involutive.
Qed.

Lemma lor_below a b n :
  0 <= n -> 0 <= a < 2 ^ n -> 0 <= b < 2 ^ n -> 0 <= Z.lor a b < 2 ^ n.
Proof.
  intros Hn Ha Hb. split; [apply Z.lor_nonneg; lia |].
  destruct (Z.eq_dec a 0) as [-> | Ha0]; [now rewrite Z.lor_0_l |].
  destruct (Z.eq_dec b 0) as [-> | Hb0]; [now rewrite Z.lor_0_r |].
  assert (0 < Z.lor a b).
  { assert (0 <= Z.lor a b) by (apply Z.lor_nonneg; lia).
    assert (Z.lor a b <> 0) by (rewrite Z.lor_eq_0_iff; tauto). lia. }
  apply Z.log2_lt_pow2; [assumption |].
  rewrite Z.log2_lor by lia.
  apply Z.max_lub_lt; apply Z.log2_lt_pow2; lia.
Qed.

Lemma land63 x : Z.land x 63 = x mod 64.
Proof. change 63 with (Z.ones 6). now rewrite Z.land_ones by lia. Qed.

Lemma land31 x : Z.land x 31 = x mod 32.
Proof. change 31 with (Z.ones 5). now rewrite Z.land_ones by lia. Qed.

Lemma land15 x : Z.land x 15 = x mod 16.
Proof. change 15 with (Z.ones 4). now rewrite Z.land_ones by lia. Qed.

Lemma byteOf_range c : 0 <= byteOf c < 256.
Proof.
  unfold byteOf. pose proof (N_ascii_bounded c) as H. lia.
Qed.

Lemma decoderune_range l : 0 <= fst (decoderune l) <= 1114111.
Proof.
  assert (He : 0 <= RuneError <= 1114111) by (unfold RuneError; lia).
  unfold decoderune. destruct l as [| c0 rest]; [exact He |]. cbv zeta.
  pose proof (byteOf_range c0).
  destruct (byteOf c0 <? 128); [simpl; lia |].
  destruct ((192 <=? byteOf c0) && (byteOf c0 <? 224)).
  { destruct rest as [| c1 r1]; [exact He |].
    match goal with |- context [if ?b then _ else _] => destruct b end; [| exact He].
    cbn [fst]. rewrite land31, land63, Z.shiftl_mul_pow2 by lia.
    pose proof (Z.mod_pos_bound (byteOf c0) 32 ltac:(lia)).
    pose proof (Z.mod_pos_bound (byteOf c1) 64 ltac:(lia)).
    assert (0 <= Z.lor (byteOf c0 mod 32 * 2 ^ 6) (byteOf c1 mod 64) < 2 ^ 11)
      by (apply lor_below; lia).
    lia. }
  destruct ((224 <=? byteOf c0) && (byteOf c0 <? 240)).
  { destruct rest as [| c1 [| c2 r2]]; try exact He.
    match goal with |- context [if ?b then _ else _] => destruct b end; [| exact He].
    cbn [fst]. rewrite land15, !land63, !Z.shiftl_mul_pow2 by lia.
    pose proof (Z.mod_pos_bound (byteOf c0) 16 ltac:(lia)).
    pose proof (Z.mod_pos_bound (byteOf c1) 64 ltac:(lia)).
    pose proof (Z.mod_pos_bound (byteOf c2) 64 ltac:(lia)).
    assert (0 <= Z.lor (Z.lor (byteOf c0 mod 16 * 2 ^ 12) (byteOf c1 mod 64 * 2 ^ 6))
                       (byteOf c2 mod 64) < 2 ^ 16)
      by (apply lor_below; [lia | apply lor_below; lia | lia]).
    lia. }
  destruct ((240 <=? byteOf c0) && (byteOf c0 <? 248)); [| exact He].
  destruct rest as [| c1 [| c2 [| c3 r3]]]; try exact He.
  match goal with |- context [if ?b then _ else _] => destruct b eqn:E end;
    [| exact He].
  cbn [fst]. rewrite !andb_true_iff in E. destruct E as [[_ E1] E2].
  apply Z.ltb_lt in E1. apply Z.leb_le in E2. lia.
Qed.

Lemma runesFrom_range l : forall skip,
  Forall (fun r => 0 <= r <= 1114111) (runesFrom skip l).
Proof.
  induction l as [| c rest IH]; intros skip; simpl; [constructor |].
  destruct skip as [| k]; [| apply IH].
  pose proof (decoderune_range (c :: rest)) as H.
  destruct (decoderune (c :: rest)) as [r size]. constructor; [exact H | apply IH].
Qed.

Lemma charOf_high K x :
  Z.testbit K 7 = true -> byteOf (charOf (Z.lor K x)) <> 44.
Proof.
  intros HK. unfold byteOf, charOf.
  pose proof (Z.mod_pos_bound (Z.lor K x) 256 ltac:(lia)) as Hb.
  rewrite N_ascii_embedding by lia. rewrite Z2N.id by lia.
  intros H44.
  assert (Hbit : Z.testbit (Z.lor K x mod 2 ^ 8) 7 = true).
  { rewrite Z.mod_pow2_bits_low by lia. rewrite Z.lor_spec, HK. reflexivity. }
  change (2 ^ 8) with 256 in Hbit. rewrite H44 in Hbit. discriminate Hbit.
Qed.

Lemma encoderune_no_comma r :
  0 <= r <= 1114111 -> r <> 44 ->
  Forall (fun c => byteOf c <> 44) (encoderune r).
Proof.
  intros Hr Hne. unfold encoderune.
  rewrite (Z.mod_small r (2 ^ 32)) by (change (2 ^ 32) with 4294967296; lia).
  destruct (r <=? 127) eqn:E1.
  - apply Z.leb_le in E1. constructor; [| constructor].
    unfold byteOf, charOf. rewrite Z.mod_small by lia.
    rewrite N_ascii_embedding by lia. rewrite Z2N.id by lia. exact Hne.
  - destruct (r <=? 2047);
      [repeat constructor; now apply charOf_high |].
    destruct ((1114111 <? r) || ((55296 <=? r) && (r <=? 57343)));
      [repeat constructor; now apply charOf_high |].
    destruct (r <=? 65535); repeat constructor; now apply charOf_high.
Qed.

Lemma splitLoop_no_comma runes : forall current result,
  Forall (fun r => 0 <= r <= 1114111) runes ->
  Forall (fun c => byteOf c <> 44) current ->
  Forall (fun p => Forall (fun c => byteOf c <> 44) (bytesOf p)) result ->
  Forall (fun p => Forall (fun c => byteOf c <> 44) (bytesOf p))
         (splitLoop runes current result).
Proof.
  induction runes as [| r rest IH]; intros current result Hr Hc Hres; simpl.
  - destruct current as [| c cur]; [exact Hres |].
    apply Forall_app. split; [exact Hres |].
    constructor; [| constructor]. now rewrite bytesOf_string_of_list.
  - inversion Hr as [| ? ? Hr1 Hr2]; subst.
    destruct (r =? 44) eqn:E.
    + apply IH; [exact Hr2 | constructor |].
      apply Forall_app. split; [exact Hres |].
      constructor; [| constructor]. now rewrite bytesOf_string_of_list.
    + apply Z.eqb_neq in E. apply IH; [exact Hr2 | | exact Hres].
      apply Forall_app. split; [exact Hc | now apply encoderune_no_comma].
Qed.

Lemma charOf_byteOf c : charOf (byteOf c) = c.
Proof.
  unfold charOf, byteOf. pose proof (N_ascii_bounded c).
  rewrite Z.mod_small by lia. rewrite N2Z.id. apply ascii_N_embedding.
Qed.

Lemma byteOf_comma c : byteOf c = 44 -> c = ","%char.
Proof.
  intros H. rewrite <- (charOf_byteOf c), H. reflexivity.
Qed.

Lemma decoderune_ascii c rest :
  byteOf c < 128 -> decoderune (c :: rest) = (byteOf c, 1%nat).
Proof.
  intros H. unfold decoderune. apply Z.ltb_lt in H. now rewrite H.
Qed.

Lemma runesFrom_ascii l :
  Forall (fun c => byteOf c < 128) l -> runesFrom 0 l = map byteOf l.
Proof.
  induction 1 as [| c rest Hc Hrest IH]; [reflexivity |].
  cbn [runesFrom]. rewrite decoderune_ascii by exact Hc. simpl. now rewrite IH.
Qed.

Lemma encoderune_ascii c : byteOf c < 128 -> encoderune (byteOf c) = [c].
Proof.
  intros H. unfold encoderune. pose proof (byteOf_range c).
  rewrite Z.mod_small by (change (2 ^ 32) with 4294967296; lia).
  replace (byteOf c <=? 127) with true by (symmetry; apply Z.leb_le; lia).
  now rewrite charOf_byteOf.
Qed.

Lemma endsOpen_app a b : b <> [] -> endsOpen (a ++ b) = endsOpen b.
Proof.
  intros Hb. unfold endsOpen. rewrite rev_app_distr.
  destruct (rev b) as [| x t] eqn:E; [| reflexivity].
  apply (f_equal (@List.length ascii)) in E. rewrite length_rev in E.
  destruct b; [now destruct Hb | discriminate].
Qed.

Lemma endsOpen_no_comma l :
  l <> [] -> Forall (fun c => byteOf c <> 44) l -> endsOpen l = true.
Proof.
  intros Hl Hf. unfold endsOpen.
  destruct (rev l) as [| x t] eqn:E.
  - apply (f_equal (@List.length ascii)) in E. rewrite length_rev in E.
    destruct l; [now destruct Hl | discriminate].
  - assert (Hx : In x l) by (apply in_rev; rewrite E; now left).
    apply (proj1 (Forall_forall _ _) Hf) in Hx.
    apply Z.eqb_neq in Hx. now rewrite Hx.
Qed.

Lemma commaTerminated_snoc res cur :
  commaTerminated (res ++ [string_of_list_ascii cur])
  = (commaTerminated res ++ cur ++ [","%char])%list.
Proof.
  unfold commaTerminated. rewrite flat_map_app. simpl.
  now rewrite bytesOf_string_of_list, app_nil_r.
Qed.

Lemma splitLoop_ascii l : forall cur res,
  Forall (fun c => byteOf c < 128) l ->
  Forall (fun c => byteOf c <> 44) cur ->
  commaTerminated (splitLoop (map byteOf l) cur res)
  = (commaTerminated res ++ cur ++ l
       ++ (if endsOpen (cur ++ l) then [","%char] else []))%list.
Proof.
  induction l as [| c rest IH]; intros cur res Hl Hc; simpl.
  - rewrite app_nil_r. destruct cur as [| x cur'].
    + simpl. now rewrite app_nil_r.
    + rewrite commaTerminated_snoc.
      rewrite endsOpen_no_comma by (try discriminate; exact Hc).
      reflexivity.
  - inversion Hl as [| ? ? Hc1 Hrest]; subst.
    destruct (byteOf c =? 44) eqn:E.
    + apply Z.eqb_eq in E. rewrite IH by (try constructor; assumption).
      rewrite commaTerminated_snoc. simpl.
      apply byteOf_comma in E. subst c.
      rewrite <- !app_assoc. simpl. do 3 f_equal.
      rewrite endsOpen_app by discriminate.
      destruct rest as [| d rest']; [reflexivity |].
      change (","%char :: d :: rest') with ([","%char] ++ d :: rest')%list.
      now rewrite endsOpen_app by discriminate.
    + apply Z.eqb_neq in E. rewrite encoderune_ascii by exact Hc1.
      rewrite IH; [| exact Hrest | apply Forall_app; split; [exact Hc | now repeat constructor]].
      rewrite <- !app_assoc. reflexivity.
Qed.

(** X15. What [splitByComma] returns.  No piece contains a comma, on any
    input.  On a text of ASCII bytes the pieces are the text cut at its
    commas: writing every piece followed by a comma gives the text back,
    with one comma added when the text does not already end with one (so
    the empty text has no piece, and a final comma does not start another
    piece). *)
Theorem splitByComma_pieces s :
  Forall (fun p => Forall (fun c => byteOf c <> 44) (bytesOf p)) (splitByComma s)
  /\ (Forall (fun c => byteOf c < 128) (bytesOf s) ->
      commaTerminated (splitByComma s)
      = (bytesOf s ++ (if endsOpen (bytesOf s) then [","%char] else []))%list).
Proof.
  split.
  - unfold splitByComma. apply splitLoop_no_comma; try constructor.
    apply runesFrom_range.
  - intros Hascii. unfold splitByComma.
    rewrite runesFrom_ascii by exact Hascii.
    now rewrite splitLoop_ascii by (try constructor; exact Hascii).
Qed.

(** Two origins and a final comma. *)
Lemma splitByComma_pieces_witness :
  commaTerminated (splitByComma "http://a.example,https://b.example,")
  = bytesOf "http://a.example,https://b.example,".
Proof.
  apply (proj2 (splitByComma_pieces "http://a.example,https://b.example,")).
  repeat constructor.
Defined.

Lemma trimSpace_first s c rest :
  bytesOf (trimSpace s) = c :: rest -> isBlank c = false.
Proof.
  intros H. destruct (trimSpace_bytes s) as [pre [suf [_ [_ [_ Hm]]]]].
  rewrite H in Hm. simpl in Hm. now apply dropBlanks_head in Hm.
Qed.

Lemma trimSpace_last s front c :
  bytesOf (trimSpace s) = (front ++ [c])%list -> isBlank c = false.
Proof.
  intros H. unfold trimSpace in H. rewrite bytesOf_string_of_list in H.
  apply (f_equal (@rev ascii)) in H.
  rewrite rev_involutive, rev_app_distr in H. simpl in H.
  now apply dropBlanks_head in H.
Qed.

Lemma trimSpace_keeps (P : ascii -> Prop) s :
  Forall P (bytesOf s) -> Forall P (bytesOf (trimSpace s)).
Proof.
  intros H. destruct (trimSpace_bytes s) as [pre [suf [Hl _]]].
  rewrite Hl in H. apply Forall_app in H as [_ H]. now apply Forall_app in H as [H _].
Qed.

Lemma slice_fold l : forall acc,
  fold_left
    (fun result v =>
       let trimmed := trimSpace v in
       if String.eqb trimmed EmptyString then result
       else (result ++ [trimmed])%list) l acc
  = (acc ++ filter (fun v => negb (String.eqb v EmptyString)) (map trimSpace l))%list.
Proof.
  induction l as [| v rest IH]; intros acc; simpl; [now rewrite app_nil_r |].
  rewrite IH. destruct (String.eqb (trimSpace v) EmptyString); simpl;
    [reflexivity | now rewrite <- app_assoc].
Qed.

(** X16. What [getEnvAsSlice] lets through.  For an unset or empty
    variable the result is the default.  Otherwise the default plays no
    part: the result is the list of the trimmed pieces of the value, in
    order, without the empty ones, so that every element is non-empty, has
    no comma and has no space, tab or newline at either end; it is the empty
    list when the value holds nothing but commas and blanks. *)
Theorem getEnvAsSlice_values env key defaultValue :
  (env key = EmptyString -> getEnvAsSlice env key defaultValue = defaultValue)
  /\ (env key <> EmptyString ->
      getEnvAsSlice env key defaultValue
      = filter (fun v => negb (String.eqb v EmptyString))
               (map trimSpace (splitByComma (env key)))
      /\ Forall cleanValue (getEnvAsSlice env key defaultValue)).
Proof.
  unfold getEnvAsSlice. split.
  - intros ->. reflexivity.
  - intros Hne. apply String.eqb_neq in Hne. rewrite Hne.
    rewrite slice_fold. simpl. split; [reflexivity |].
    apply Forall_forall. intros v Hv. apply filter_In in Hv as [Hin Hv].
    apply in_map_iff in Hin as [p [<- Hp]].
    apply negb_true_iff, String.eqb_neq in Hv.
    split; [exact Hv |]. split.
    + apply trimSpace_keeps.
      assert (Hall := splitLoop_no_comma (runesFrom 0 (bytesOf (env key))) [] []
                        (runesFrom_range _ _) (Forall_nil _) (Forall_nil _)).
      exact (proj1 (Forall_forall _ _) Hall p Hp).
    + split; [apply trimSpace_first | apply trimSpace_last].
Qed.

(** A list of origins with blanks and an empty entry. *)
Lemma getEnvAsSlice_values_witness :
  getEnvAsSlice (fun _ => " http://a.example , ,https://b.example,") "CORS_ALLOWED_ORIGINS"
    ["http://localhost:3000"]
  = ["http://a.example"; "https://b.example"]
  /\ Forall cleanValue
       (getEnvAsSlice (fun _ => " http://a.example , ,https://b.example,")
          "CORS_ALLOWED_ORIGINS" ["http://localhost:3000"]).
Proof.
  destruct (proj2 (getEnvAsSlice_values
                     (fun _ => " http://a.example , ,https://b.example,")
                     "CORS_ALLOWED_ORIGINS" ["http://localhost:3000"]))
    as [H1 H2]; [discriminate |].
  split; [rewrite H1; vm_compute; reflexivity | exact H2].
Defined.

(** ** Package [config]: loading *)

Lemma getEnv_empty_default env key :
  getEnv env key EmptyString = env key.
Proof.
  unfold getEnv. destruct (String.eqb (env key) EmptyString) eqn:E; [| reflexivity].
  apply String.eqb_eq in E. now rewrite E.
Qed.

Lemma getEnvAsBool_true_default env key :
  getEnvAsBool env key true = false <-> ParseBool (env key) = Some false.
Proof.
  unfold getEnvAsBool.
  destruct (String.eqb (env key) EmptyString) eqn:E.
  - apply String.eqb_eq in E. rewrite E. split; discriminate.
  - destruct (ParseBool (env key)) as [[|] |]; split; congruence.
Qed.

Lemma Validate_None c :
  Validate c = None
  <-> (DbURL (Database c) <> EmptyString \/ DbPassword (Database c) <> EmptyString)
      /\ Secret (JWT c) <> EmptyString
      /\ Secret (JWT c) <> "your_jwt_secret_key"
      /\ (EncryptionKey (Security c) <> EmptyString
          \/ DataEncryptionEnabled (Security c) = false).
Proof.
  unfold Validate.
  destruct (String.eqb_spec (DbURL (Database c)) EmptyString) as [E1 | E1];
    destruct (String.eqb_spec (DbPassword (Database c)) EmptyString) as [E2 | E2];
    cbn [andb]; try (split; [discriminate | tauto]);
    (destruct (String.eqb_spec (Secret (JWT c)) EmptyString) as [E3 | E3];
     cbn [orb]; [split; [discriminate | tauto] |]);
    (destruct (String.eqb_spec (Secret (JWT c)) "your_jwt_secret_key") as [E4 | E4];
     [split; [discriminate | tauto] |]);
    (destruct (String.eqb_spec (EncryptionKey (Security c)) EmptyString) as [E5 | E5];
     cbn [andb]; [| split; [tauto | reflexivity]]);
    (destruct (DataEncryptionEnabled (Security c));
     [split; [discriminate | intros [_ [_ [_ [H | H]]]]; [contradiction | discriminate H]]
     | split; [tauto | reflexivity]]).
Qed.

Lemma getEnv_secret env :
  (getEnv env "JWT_SECRET" "your_jwt_secret_key" <> EmptyString
   /\ getEnv env "JWT_SECRET" "your_jwt_secret_key" <> "your_jwt_secret_key")
  <-> (env "JWT_SECRET" <> EmptyString /\ env "JWT_SECRET" <> "your_jwt_secret_key").
Proof.
  unfold getEnv.
  destruct (String.eqb_spec (env "JWT_SECRET") EmptyString) as [E | E]; tauto.
Qed.

(** X17. When [Load] succeeds.  [Load] returns a configuration exactly
    when the environment gives a database URL or a database password, a JWT
    secret other than the empty text and the placeholder
    [your_jwt_secret_key], and either an encryption key or a
    [DATA_ENCRYPTION_ENABLED] that [strconv.ParseBool] reads as false (unset
    or unreadable counts as enabled).  The configuration returned is the one
    read from the environment, it passes [Validate], and its connection
    string is the database URL whenever one is given.  With no variable set
    [Load] fails. *)
Theorem Load_succeeds_iff env :
  ((exists c, Load env = inr c)
   <-> (env "DATABASE_URL" <> EmptyString \/ env "DB_PASSWORD" <> EmptyString)
       /\ env "JWT_SECRET" <> EmptyString
       /\ env "JWT_SECRET" <> "your_jwt_secret_key"
       /\ (env "ENCRYPTION_KEY" <> EmptyString
           \/ ParseBool (env "DATA_ENCRYPTION_ENABLED") = Some false))
  /\ (forall c, Load env = inr c ->
        c = readConfig env /\ Validate c = None
        /\ (env "DATABASE_URL" <> EmptyString -> GetDSN c = env "DATABASE_URL"))
  /\ Load (fun _ => EmptyString)
     = inl "DB_PASSWORD is required when DATABASE_URL is not set".
Proof.
  split; [| split; [| reflexivity]].
  - transitivity (Validate (readConfig env) = None).
    + unfold Load. destruct (Validate (readConfig env)) as [err |].
      * split; [intros [c Hc]; discriminate Hc | discriminate].
      * split; [reflexivity | intros _; eexists; reflexivity].
    + rewrite Validate_None.
      cbn [readConfig Database JWT Security DbURL DbPassword
           Secret EncryptionKey DataEncryptionEnabled].
      rewrite !getEnv_empty_default, getEnvAsBool_true_default.
      pose proof (getEnv_secret env). tauto.
  - intros c. unfold Load.
    destruct (Validate (readConfig env)) as [err |] eqn:Hv; [discriminate |].
    intros [= <-]. split; [reflexivity |]. split; [exact Hv |].
    intros Hurl. unfold GetDSN.
    cbn [readConfig Database DbURL]. rewrite getEnv_empty_default.
    apply String.eqb_neq in Hurl. now rewrite Hurl.
Qed.

(** A production-like environment: URL, secret, encryption switched off. *)
Lemma Load_succeeds_iff_witness :
  Load Deployment.env = inr (readConfig Deployment.env)
  /\ GetDSN (readConfig Deployment.env) = "postgres://emr@db:5432/emr".
Proof.
  assert (H : Load Deployment.env = inr (readConfig Deployment.env))
    by (vm_compute; reflexivity).
  split; [exact H |].
  refine (proj2 (proj2 (proj1 (proj2 (Load_succeeds_iff Deployment.env))
                          (readConfig Deployment.env) H)) _).
  vm_compute. discriminate.
Defined.

(** ** More on appointments *)

Lemma UpdateAppointment_shape w e id req updatedBy a' w' :
  UpdateAppointment w e id req updatedBy = (inr a', w') ->
  exists a,
    firstAppointment id (appointments w) = Some a
    /\ w' = setAppointments w
              (map (fun b => if uuid_eqb (ID b) id then a' else b) (appointments w))
    /\ a' = BeforeUpdate e
              {| ID := ID a; CreatedAt := CreatedAt a; UpdatedAt := UpdatedAt a;
                 CreatedBy := CreatedBy a; UpdatedBy := updatedBy;
                 AppointmentNumber := AppointmentNumber a;
                 PatientID := ReqPatientID req; ProviderID := ReqProviderID req;
                 ApptType := ReqAppointmentType req;
                 Status := Status a;
                 StartTime := ReqStartTime req;
                 EndTime := ReqStartTime req + mulDuration (ReqDuration req) Minute;
                 Duration_ := ReqDuration req;
                 Department := ReqDepartment req; Location_ := ReqLocation req;
                 Room := ReqRoom req; ReasonForVisit := ReqReasonForVisit req;
                 Notes := ReqNotes req;
                 ReminderSent := ReminderSent a;
                 ReminderSentAt := ReminderSentAt a;
                 CheckedInAt := CheckedInAt a;
                 CancelledAt := CancelledAt a;
                 CancellationReason := CancellationReason a |}.
Proof.
  unfold UpdateAppointment.
  destruct (updateCheck w id req) as [err | [a endTime]] eqn:Hc; [discriminate |].
  apply updateCheck_inr in Hc as [Hf Hend].
  destruct (firstAppointment_Some _ _ _ Hf) as [Hid _].
  unfold updateWrite.
  match goal with |- context [dbSave w e ?x] => set (x0 := x) end.
  destruct (dbSave w e x0) as [msg | [a2 w2]] eqn:Hs; [discriminate |].
  intros [= <- <-]. apply dbSave_inr in Hs as [Ha Hw].
  assert (Hid0 : ID x0 = id) by exact Hid.
  rewrite Hid0 in Hw. exists a. split; [exact Hf |].
  split; [now apply (Hw a) |].
  rewrite Ha. unfold x0. now rewrite Hend.
Qed.

(** X18. An updated appointment, read back.  When [UpdateAppointment]
    succeeds, [GetAppointment] returns the appointment it returned; that
    appointment takes patient, provider, start, duration and the computed
    end from the request, and keeps the identifier, the number, the status,
    the creation stamp and the check-in and cancellation marks of the stored
    row, so a cancelled appointment that is rescheduled stays cancelled. *)
Theorem update_then_get w e id req updatedBy a' w' :
  UpdateAppointment w e id req updatedBy = (inr a', w') ->
  exists a,
    firstAppointment id (appointments w) = Some a
    /\ GetAppointment w' id = inr (preload w' a')
    /\ (ID a', AppointmentNumber a', Status a', CreatedAt a', CreatedBy a')
       = (id, AppointmentNumber a, Status a, CreatedAt a, CreatedBy a)
    /\ (CheckedInAt a', CancelledAt a', CancellationReason a')
       = (CheckedInAt a, CancelledAt a, CancellationReason a)
    /\ (PatientID a', ProviderID a', StartTime a', Duration_ a')
       = (ReqPatientID req, ReqProviderID req, ReqStartTime req, ReqDuration req)
    /\ EndTime a' = ReqStartTime req + mulDuration (ReqDuration req) Minute
    /\ UpdatedBy a' = updatedBy
    /\ UpdatedAt a' = hookNow e.
Proof.
  intros H. apply UpdateAppointment_shape in H as [a [Hf [-> Ha]]].
  destruct (firstAppointment_Some _ _ _ Hf) as [Hida _].
  exists a. split; [exact Hf |].
  assert (Hid : ID a' = id) by (rewrite Ha; exact Hida).
  split.
  - unfold GetAppointment. simpl.
    now rewrite (firstAppointment_replaced id a' _ a Hid Hf).
  - rewrite Ha. simpl. rewrite Hida. repeat split.
Qed.

(** The cancelled 09:00 booking is moved to 11:00; it stays cancelled. *)
Lemma update_then_get_witness :
  exists a a' w',
    UpdateAppointment Scenario.cancelledOnce (Scenario.env 4 Scenario.id2)
      Scenario.id1 (Scenario.request (Scenario.at_ 11 0) 30) Scenario.clerk
    = (inr a', w')
    /\ firstAppointment Scenario.id1 (appointments Scenario.cancelledOnce) = Some a
    /\ GetAppointment w' Scenario.id1 = inr (preload w' a')
    /\ Status a' = AppointmentStatusCancelled
    /\ StartTime a' = Scenario.at_ 11 0.
Proof.
  destruct (UpdateAppointment Scenario.cancelledOnce (Scenario.env 4 Scenario.id2)
              Scenario.id1 (Scenario.request (Scenario.at_ 11 0) 30) Scenario.clerk)
    as [[err | a'] w'] eqn:H; [vm_compute in H; discriminate H |].
  destruct (update_then_get _ _ _ _ _ _ _ H)
    as [a [Hf [Hg [H1 [_ [H2 _]]]]]].
  exists a, a', w'. split; [reflexivity |]. split; [exact Hf |]. split; [exact Hg |].
  split.
  - injection H1 as _ _ Hst _ _. rewrite Hst.
    vm_compute in Hf. injection Hf as <-. reflexivity.
  - injection H2 as _ _ Hs _. exact Hs.
Defined.

(** ** Availability after a booking and after a cancellation *)

Lemma CancelAppointment_shape w e id reason cancelledBy w' :
  CancelAppointment w e id reason cancelledBy = (None, w') ->
  exists a',
    appointments w'
    = map (fun b => if uuid_eqb (ID b) id then a' else b) (appointments w)
    /\ users w' = users w
    /\ ID a' = id
    /\ Status a' = AppointmentStatusCancelled.
Proof.
  intros H.
  destruct (firstAppointment id (appointments w)) as [a |] eqn:Hf.
  - destruct (firstAppointment_Some _ _ _ Hf) as [Hid _].
    unfold CancelAppointment in H. rewrite Hf in H. cbv zeta in H.
    rewrite (dbSave_loaded w e id a) in H by (try exact Hf; reflexivity).
    injection H as <-. eexists.
    rewrite appointments_Publish, users_Publish. simpl.
    split; [reflexivity |]. repeat split. exact Hid.
  - unfold CancelAppointment in H. rewrite Hf in H. discriminate H.
Qed.

(** X19. A cancellation frees the slots.  After [CancelAppointment]
    succeeded on appointment [id], a slot of [GetProviderAvailability] is
    unavailable exactly when a live appointment of the provider other than
    [id], starting on that day, meets it: the cancelled appointment blocks
    nothing any more and nothing else changed. *)
Theorem cancel_frees_slots w e id reason cancelledBy w' providerID date loc slots s :
  CancelAppointment w e id reason cancelledBy = (None, w') ->
  GetProviderAvailability w' providerID date loc = inr slots ->
  In s slots ->
  (Available s = false
   <-> exists a, In a (appointments w)
         /\ ID a <> id
         /\ ProviderID a = providerID
         /\ Status a <> AppointmentStatusCancelled
         /\ DateOfDay date 0 loc <= StartTime a < DateOfDay date 0 loc + 24 * Hour
         /\ meetsSlot s a).
Proof.
  intros Hc Hget Hin.
  apply CancelAppointment_shape in Hc as [a' [Ht [_ [Hid Hst]]]].
  destruct (slot_flag _ _ _ _ _ _ Hget Hin) as [_ Hflag]. rewrite Hflag, Ht.
  split.
  - intros [x [Hx [Hday Hm]]]. apply in_map_iff in Hx as [b [Hb Hinb]].
    destruct (uuid_eqb (ID b) id) eqn:E.
    + subst x. apply onDay_iff in Hday as [_ [_ Hlive]]. contradiction.
    + subst x. exists b. apply onDay_iff in Hday. apply uuid_eqb_neq in E.
      unfold Add in Hday. tauto.
  - intros [b [Hb [Hne [Hp [Hl [Hd Hm]]]]]]. exists b. split.
    + apply in_map_iff. exists b. apply uuid_eqb_neq in Hne. now rewrite Hne.
    + split; [apply onDay_iff; unfold Add; tauto | exact Hm].
Qed.

(** After the 10:00 booking is cancelled, the 10:00 slot is free again. *)
Lemma cancel_frees_slots_witness :
  Available
    (nthSlot [] (Scenario.at_ 8 0) 4) = false
  <-> exists a, In a (appointments Scenario.booked1000)
        /\ ID a <> Scenario.id1
        /\ ProviderID a = Scenario.drA
        /\ Status a <> AppointmentStatusCancelled
        /\ DateOfDay (Scenario.at_ 13 37) 0 UTC <= StartTime a
           < DateOfDay (Scenario.at_ 13 37) 0 UTC + 24 * Hour
        /\ meetsSlot (nthSlot [] (Scenario.at_ 8 0) 4) a.
Proof.
  apply (cancel_frees_slots Scenario.booked1000 (Scenario.env 5 Scenario.id2)
           Scenario.id1 EmptyString Scenario.clerk
           (snd (CancelAppointment Scenario.booked1000 (Scenario.env 5 Scenario.id2)
                   Scenario.id1 EmptyString Scenario.clerk))
           Scenario.drA (Scenario.at_ 13 37) UTC
           (map (nthSlot [] (Scenario.at_ 8 0)) (seq 0 18))).
  - vm_compute. reflexivity.
  - vm_compute. reflexivity.
  - apply in_map, in_seq. lia.
Defined.

(** X20. A booking blocks the slots it meets.  After [CreateAppointment]
    succeeded, every slot that [GetProviderAvailability] returns for the
    provider and the day on which the new appointment starts, and that the
    appointment meets, is flagged unavailable. *)
Theorem booking_blocks_slots w e req createdBy a w' date loc slots s :
  CreateAppointment w e req createdBy = (inr a, w') ->
  GetProviderAvailability w' (ReqProviderID req) date loc = inr slots ->
  In s slots ->
  DateOfDay date 0 loc <= ReqStartTime req < DateOfDay date 0 loc + 24 * Hour ->
  meetsSlot s a ->
  Available s = false.
Proof.
  intros Hc Hget Hin Hday Hm.
  apply CreateAppointment_inr in Hc
    as [endTime [a0 [_ [_ [-> [Hst [_ [Hp [Hs _]]]]]]]]].
  destruct (slot_flag _ _ _ _ _ _ Hget Hin) as [_ Hflag]. apply Hflag.
  exists a. rewrite appointments_Publish. simpl. split.
  - apply in_or_app. right. now left.
  - split; [| exact Hm]. apply onDay_iff. rewrite Hp, Hs, Hst. unfold Add.
    unfold Hour, Minute, Second in *.
    repeat split; try lia; try reflexivity. discriminate.
Qed.

(** The 10:00 booking and the 10:00 slot. *)
Lemma booking_blocks_slots_witness :
  Available (nthSlot (appointments Scenario.booked1000) (Scenario.at_ 8 0) 4) = false.
Proof.
  apply (booking_blocks_slots Scenario.empty (Scenario.env 1 Scenario.id1)
           (Scenario.request (Scenario.at_ 10 0) 30) Scenario.clerk
           (nth 0 (appointments Scenario.booked1000) Scenario.bookedRow)
           Scenario.booked1000 (Scenario.at_ 13 37) UTC
           (map (nthSlot (appointments Scenario.booked1000) (Scenario.at_ 8 0))
                (seq 0 18))).
  - vm_compute. reflexivity.
  - vm_compute. reflexivity.
  - apply in_map, in_seq. lia.
  - vm_compute. split; [discriminate | reflexivity].
  - vm_compute. split; reflexivity.
Defined.

(** ** More on encounters *)

Lemma firstEncounter_app_new enc tbl :
  (forall b, In b tbl -> EncID b <> EncID enc) ->
  firstEncounter (EncID enc) (tbl ++ [enc]) = Some enc.
Proof.
  intros H. unfold firstEncounter. induction tbl as [| b r IH]; simpl.
  - now rewrite uuid_eqb_refl.
  - destruct (uuid_eqb (EncID b) (EncID enc)) eqn:E.
    + apply uuid_eqb_eq in E. exfalso. apply (H b); [now left | exact E].
    + apply IH. intros c Hc. apply H. now right.
Qed.

(** X21. A created encounter.  When [CreateEncounter] succeeds, the
    encounter is stored with the status Scheduled, no discharge time and
    exactly the admission time of the request, whatever that time is; it can
    be found by its identifier; the appointments are untouched and one
    [encounter.created] message goes to the bus if it is connected.  When it
    fails, nothing is stored or published. *)
Theorem create_encounter_result w e req createdBy :
  match CreateEncounter w e req createdBy with
  | (inr enc, w') =>
      EncStatus enc = EncounterStatusScheduled
      /\ DischargeDate enc = None
      /\ AdmissionDate enc = EReqAdmissionDate req
      /\ EncID enc = newID e
      /\ firstEncounter (EncID enc) (encounters w') = Some enc
      /\ appointments w' = appointments w
      /\ map Subject (published w')
         = (map Subject (published w)
              ++ (if natsConnected w then ["encounter.created"] else []))%list
  | (inl _, w') => w' = w
  end.
Proof.
  unfold CreateEncounter.
  destruct (firstRow (EReqPatientID req) (patients w)); [| reflexivity].
  destruct (firstRow (EReqProviderID req) (users w)); [| reflexivity].
  cbv zeta.
  match goal with |- context [existsb ?f (encounters w)] =>
    destruct (existsb f (encounters w)) eqn:E end; [reflexivity |].
  rewrite encounters_Publish, appointments_Publish, published_Publish. simpl.
  repeat split.
  - apply (firstEncounter_app_new
             {| EncID := newID e; EncCreatedAt := hookNow e; EncUpdatedAt := hookNow e;
                EncCreatedBy := createdBy; EncUpdatedBy := createdBy;
                EncounterNumber := generateEncounterNumber e;
                EncPatientID := EReqPatientID req; EncProviderID := EReqProviderID req;
                EncounterType := EReqEncounterType req;
                EncStatus := EncounterStatusScheduled;
                Priority := EReqPriority req;
                EncDepartment := EReqDepartment req; EncLocation := EReqLocation req;
                AdmissionDate := EReqAdmissionDate req; DischargeDate := None;
                ChiefComplaint := EReqChiefComplaint req;
                EncReasonForVisit := EReqReasonForVisit req |}).
    intros b Hb Heq. simpl in Heq.
    assert (existsb (fun b0 => uuid_eqb (EncID b0) (newID e)
                               || String.eqb (EncounterNumber b0)
                                    (generateEncounterNumber e)) (encounters w) = true);
      [| simpl in E; congruence].
    apply existsb_exists. exists b. split; [exact Hb |].
    apply orb_true_iff. left. now apply uuid_eqb_eq.
  - rewrite map_app. destruct (natsConnected w); reflexivity.
Qed.



Lemma In_insertByAdmissionDesc enc x l :
  In enc (insertByAdmissionDesc x l) <-> enc = x \/ In enc l.
Proof.
  induction l as [| b r IH]; simpl.
  - intuition congruence.
  - destruct (AdmissionDate b <? AdmissionDate x); simpl; rewrite ?IH;
      intuition congruence.
Qed.

Lemma In_orderByAdmissionDesc enc l : In enc (orderByAdmissionDesc l) <-> In enc l.
Proof.
  induction l as [| b r IH]; simpl; [reflexivity |].
  rewrite In_insertByAdmissionDesc, IH. intuition congruence.
Qed.

Lemma length_orderByAdmissionDesc l :
  List.length (orderByAdmissionDesc l) = List.length l.
Proof.
  induction l as [| b r IH]; simpl; [reflexivity |].
  rewrite <- IH. generalize (orderByAdmissionDesc r). intros t.
  induction t as [| c t IHt]; simpl; [reflexivity |].
  destruct (AdmissionDate c <? AdmissionDate b); simpl; [reflexivity | now rewrite IHt].
Qed.

Lemma sorted_insertByAdmissionDesc enc l :
  StronglySorted (fun x y => AdmissionDate y <= AdmissionDate x) l ->
  StronglySorted (fun x y => AdmissionDate y <= AdmissionDate x)
                 (insertByAdmissionDesc enc l).
Proof.
  induction l as [| b r IH]; simpl; intros Hs.
  - constructor; constructor.
  - inversion Hs as [| ? ? Hr Hb]; subst.
    destruct (AdmissionDate b <? AdmissionDate enc) eqn:E.
    + apply Z.ltb_lt in E. constructor; [exact Hs |].
      constructor; [lia |].
      eapply Forall_impl; [| exact Hb]. simpl. intros; lia.
    + apply Z.ltb_ge in E. constructor; [now apply IH |].
      apply Forall_forall. intros x Hx.
      apply In_insertByAdmissionDesc in Hx as [-> | Hx]; [exact E |].
      now apply (proj1 (Forall_forall _ _) Hb).
Qed.

Lemma sorted_orderByAdmissionDesc l :
  StronglySorted (fun x y => AdmissionDate y <= AdmissionDate x)
                 (orderByAdmissionDesc l).
Proof.
  induction l as [| b r IH]; simpl; [constructor |].
  now apply sorted_insertByAdmissionDesc.
Qed.

(** X23. A page of [ListEncounters].  For a page size of at least 1 and
    any page number, the page holds encounters of the table that match
    every filter given (patient, provider, status), latest admission first;
    the total is the number of encounters that match; and the page holds
    exactly [min(pageSize, max(0, total - max(0, offset)))] of them, where
    [offset] is [(page - 1) * pageSize] as the code computes it, in 64-bit
    arithmetic.  For a page number of at least 1 whose product stays below
    [2^63] the offset is the exact product.  Otherwise it has wrapped
    around, and an offset that is not positive skips nothing: the
    encounters are those of page 1. *)
Theorem list_encounters_page w page pageSize patientID providerID status :
  1 <= pageSize ->
  let rows := fst (ListEncounters w page pageSize patientID providerID status) in
  let total := snd (ListEncounters w page pageSize patientID providerID status) in
  let offset := wrap64 (wrap64 (page - 1) * pageSize) in
  (forall r, In r rows ->
     In (EncRow r) (encounters w)
     /\ (forall p, patientID = Some p -> EncPatientID (EncRow r) = p)
     /\ (forall p, providerID = Some p -> EncProviderID (EncRow r) = p)
     /\ (forall s, status = Some s -> EncStatus (EncRow r) = s))
  /\ StronglySorted byAdmissionDesc rows
  /\ total
     = Z.of_nat (List.length
                   (filter (encounterFilter patientID providerID status)
                           (encounters w)))
  /\ Z.of_nat (List.length rows)
     = Z.min pageSize (Z.max 0 (total - Z.max 0 offset))
  /\ (1 <= page -> (page - 1) * pageSize < 2 ^ 63 ->
      offset = (page - 1) * pageSize)
  /\ (offset <= 0 ->
      rows = fst (ListEncounters w 1 pageSize patientID providerID status)).
Proof.
  intros Hs. cbv zeta. unfold ListEncounters. cbn [fst snd].
  split; [| split; [| split; [| split; [| split]]]].
  - intros r Hr. apply in_map_iff in Hr as [enc [<- Henc]].
    apply In_Limit_Offset, In_orderByAdmissionDesc, filter_In in Henc as [Hin Hf].
    split; [exact Hin |]. simpl. unfold encounterFilter in Hf.
    apply andb_true_iff in Hf as [Hf H3]. apply andb_true_iff in Hf as [H1 H2].
    repeat split.
    + intros p ->. now apply uuid_eqb_eq.
    + intros p ->. now apply uuid_eqb_eq.
    + intros s ->. now apply String.eqb_eq.
  - apply sorted_map. unfold Limit, Offset.
    assert (Hsorted := sorted_orderByAdmissionDesc
                         (filter (encounterFilter patientID providerID status)
                                 (encounters w))).
    destruct (pageSize <? 0);
      destruct (0 <? wrap64 (wrap64 (page - 1) * pageSize));
      try apply sorted_firstn; try apply sorted_skipn; exact Hsorted.
  - reflexivity.
  - rewrite length_map, length_Limit_Offset by lia.
    now rewrite length_orderByAdmissionDesc.
  - intros Hp Hov. now apply offset_exact.
  - intros Hoff. rewrite (Offset_nonpos _ _ Hoff).
    replace (wrap64 (wrap64 (1 - 1) * pageSize)) with 0 by reflexivity.
    now rewrite (Offset_nonpos 0) by lia.
Qed.

(** The encounters of the scenario: the first page of ten, and the page
    numbered [2^63 - 1], whose offset wraps around to -20. *)
Lemma list_encounters_page_witness :
  StronglySorted byAdmissionDesc
    (fst (ListEncounters Scenario.completedAt1500 1 10 None None None))
  /\ snd (ListEncounters Scenario.completedAt1500 1 10 None None None) = 1
  /\ Z.of_nat
       (List.length (fst (ListEncounters Scenario.completedAt1500 1 10 None None None)))
     = 1
  /\ fst (ListEncounters Scenario.completedAt1500 9223372036854775807 10
            None None None)
     = fst (ListEncounters Scenario.completedAt1500 1 10 None None None).
Proof.
  assert (Ha : 1 <= 10) by lia.
  destruct (list_encounters_page Scenario.completedAt1500 1 10 None None None Ha)
    as [_ [H1 [H2 [H3 _]]]].
  destruct (list_encounters_page Scenario.completedAt1500 9223372036854775807 10
              None None None Ha)
    as [_ [_ [_ [_ [_ H4]]]]].
  cbv zeta in H1, H2, H3, H4.
  split; [exact H1 |]. split; [rewrite H2; reflexivity |].
  split; [rewrite H3, H2; reflexivity |].
  apply H4. vm_compute. discriminate.
Defined.

(** ** The shared database error *)



